(** * WhatsApp Cloud API dashboard: a shallow embedding of the server routes,
    the [lib/whatsapp] helpers and the dashboard's conversation grouping.

    Conventions of the embedding.
    - JavaScript strings are [string]s whose characters stand for code units
      below 256.
    - Instants ([Date], ISO strings, TIMESTAMPTZ columns) are [Z] numbers of
      milliseconds since the epoch.
    - JavaScript numbers that hold hours are doubles, written as the exact
      rational ([Q]) a double denotes: an arithmetic operation on them is
      the exact operation followed by the rounding [Js.double].
    - Code that talks to the store, to the provider or to the clock runs in
      the monad [M]: a state of the outside world is threaded through, and a
      computation either returns or throws. *)

From Stdlib Require Import ZArith QArith Qround Qminmax Qpower Lqa.
From Stdlib Require Import String Ascii List Bool Lia DecimalString.
From Stdlib Require Import Sorted Permutation.
Import ListNotations.

Local Open Scope Z_scope.
Local Open Scope string_scope.

(* ================================================================== *)
(** ** JavaScript values and string primitives *)
(* ================================================================== *)

Module Js.

(** A JSON scalar as a request body can carry it, [JUndefined] standing
    for an absent field.  Numbers are restricted to integers; [JObject]
    stands for any object or array (always truthy, never a string). *)
Inductive jsval : Type :=
| JUndefined
| JNull
| JBool (b : bool)
| JNum (n : Z)
| JStr (s : string)
| JObject.

(** ToBoolean. *)
Definition truthy (v : jsval) : bool :=
  match v with
  | JUndefined | JNull => false
  | JBool b => b
  | JNum n => negb (n =? 0)%Z
  | JStr s => negb (s =? "")
  | JObject => true
  end.

(** [a || b]. *)
Definition or (a b : jsval) : jsval := if truthy a then a else b.

(** [a || b] where [a] is a possibly absent string and [b] a string. *)
Definition or_str (a : option string) (b : string) : string :=
  match a with
  | Some s => if s =? "" then b else s
  | None => b
  end.

(** What a [throw] carries: an [Error] object with its message, or some
    other value. *)
Inductive thrown : Type :=
| JsError (message : string)
| NonError.

(** [error instanceof Error ? error.message : fallback]. *)
Definition message_or (e : thrown) (fallback : string) : string :=
  match e with
  | JsError m => m
  | NonError => fallback
  end.

(** The regular expression class [\s], on code units below 256. *)
Definition is_space (c : ascii) : bool :=
  let n := nat_of_ascii c in
  ((9 <=? n)%nat && (n <=? 13)%nat) || (n =? 32)%nat || (n =? 160)%nat.

Fixpoint remove_all (p : ascii -> bool) (s : string) : string :=
  match s with
  | EmptyString => EmptyString
  | String c r => if p c then remove_all p r else String c (remove_all p r)
  end.

(** [s.replace(/\+/g, '')] *)
Definition strip_plus (s : string) : string :=
  remove_all (fun c => Ascii.eqb c "+"%char) s.

(** [s.replace(/\s/g, '')] *)
Definition strip_spaces (s : string) : string := remove_all is_space s.

Fixpoint trim_start (s : string) : string :=
  match s with
  | EmptyString => EmptyString
  | String c r => if is_space c then trim_start r else s
  end.

Fixpoint trim_end (s : string) : string :=
  match s with
  | EmptyString => EmptyString
  | String c r =>
      match trim_end r with
      | EmptyString => if is_space c then EmptyString else String c EmptyString
      | r' => String c r'
      end
  end.

(** [s.trim()] *)
Definition trim (s : string) : string := trim_end (trim_start s).

Fixpoint drop (n : nat) (s : string) : string :=
  match n, s with
  | O, _ => s
  | S n', String _ r => drop n' r
  | S _, EmptyString => EmptyString
  end.

(** [s.replace(pat, rep)] with a string pattern: the first occurrence only. *)
Fixpoint replace (pat rep s : string) : string :=
  if prefix pat s then rep ++ drop (String.length pat) s
  else match s with
       | EmptyString => EmptyString
       | String c r => String c (replace pat rep r)
       end.

(** Sorting by a key, largest first; elements of equal key keep their
    order.  This is [xs.sort((a, b) => key(b) - key(a))]. *)
Fixpoint insert_desc {A} (key : A -> Z) (x : A) (sorted : list A) : list A :=
  match sorted with
  | [] => [x]
  | y :: r =>
      if (key y <=? key x)%Z then x :: sorted
      else y :: insert_desc key x r
  end.

Definition sort_desc {A} (key : A -> Z) (xs : list A) : list A :=
  fold_right (insert_desc key) [] xs.

(** Decimal rendering of an integer, as template literals print it. *)
Definition show_int (n : Z) : string := NilZero.string_of_int (Z.to_int n).

(** *** [parseInt] without a radix argument *)

Definition digit_val (radix : Z) (c : ascii) : option Z :=
  let n := Z.of_nat (nat_of_ascii c) in
  let v :=
    if ((48 <=? n) && (n <=? 57))%Z then Some (n - 48)
    else if ((97 <=? n) && (n <=? 122))%Z then Some (n - 87)
    else if ((65 <=? n) && (n <=? 90))%Z then Some (n - 55)
    else None in
  match v with
  | Some d => if (d <? radix)%Z then Some d else None
  | None => None
  end.

(** The longest prefix of digits; [acc] is [None] until a digit is read. *)
Fixpoint parse_digits (radix : Z) (acc : option Z) (s : string) : option Z :=
  match s with
  | EmptyString => acc
  | String c r =>
      match digit_val radix c with
      | Some d =>
          parse_digits radix
            (Some (match acc with Some a => a * radix + d | None => d end)) r
      | None => acc
      end
  end.

(** [None] is NaN.  The result is exact, where JavaScript rounds to a
    double above 2^53; such values are far outside the range of [Date]
    (see [date_of_ms]), so callers below cannot tell the difference. *)
Definition parseInt (s : string) : option Z :=
  let s1 := trim_start s in
  let '(neg, s2) :=
    match s1 with
    | String "-"%char r => (true, r)
    | String "+"%char r => (false, r)
    | _ => (false, s1)
    end in
  let '(radix, s3) :=
    match s2 with
    | String "0"%char (String "x"%char r) => (16, r)
    | String "0"%char (String "X"%char r) => (16, r)
    | _ => (10, s2)
    end in
  option_map (fun n => if neg then - n else n) (parse_digits radix None s3).

(** *** Plain objects used as maps

    An object literal [{}] filled by [object[key] = v] is an association
    list in the order the keys were created. *)

(** The names [{}] inherits from [Object.prototype].  Read under one of
    them, an object that has no such key of its own gives a function (the
    prototype itself for ["__proto__"]), not [undefined]. *)
Definition inherited_keys : list string :=
  ["constructor"; "hasOwnProperty"; "isPrototypeOf"; "propertyIsEnumerable";
   "toLocaleString"; "toString"; "valueOf"; "__proto__";
   "__defineGetter__"; "__defineSetter__"; "__lookupGetter__";
   "__lookupSetter__"].

Definition is_inherited (key : string) : bool :=
  existsb (String.eqb key) inherited_keys.

(** The array index a key is, if it is one: the decimal of an integer
    from 0 to 2^32 - 2. *)
Definition array_index (key : string) : option Z :=
  match parse_digits 10 None key with
  | Some n =>
      if (show_int n =? key) && (n <=? 4294967294)%Z then Some n else None
  | None => None
  end.

Definition is_array_index (key : string) : bool :=
  match array_index key with
  | Some _ => true
  | None => false
  end.

(** [Object.entries(object)]: the keys that are array indices come first,
    smallest first, then the other keys in the order they were created. *)
Definition entries {A} (object : list (string * A)) : list (string * A) :=
  (sort_desc
     (fun entry =>
        match array_index (fst entry) with
        | Some n => (- n)%Z
        | None => 0%Z
        end)
     (filter (fun entry => is_array_index (fst entry)) object)
   ++ filter (fun entry => negb (is_array_index (fst entry))) object)%list.

(** [new Date(v)]: the time value, or [None] for an invalid date (NaN or
    beyond 8.64e15 ms on either side). *)
Definition date_of_ms (v : option Z) : option Z :=
  match v with
  | Some ms => if (Z.abs ms <=? 8640000000000000)%Z then Some ms else None
  | None => None
  end.

(** *** Numbers

    A double is written as the rational it denotes.  The result of an
    operation on doubles is the double nearest to the exact result, the
    one with an even significand when two are as near: [double] of the
    exact result.  The range of exponents is not modelled; the numbers
    below are hours and hundredths of hours between instants of [Date],
    far from overflow and from the subnormal range. *)

(** [floor (log2 x)], for [0 < x]. *)
Definition ilog2 (x : Q) : Z :=
  let e := (Z.log2 (Qnum x) - Z.log2 (Z.pos (Qden x)))%Z in
  if Qle_bool (2 ^ e) x then e else (e - 1)%Z.

(** To the nearest integer, a half to the even one. *)
Definition round_even (t : Q) : Z :=
  let f := Qfloor t in
  match Qcompare (t - inject_Z f) (1 # 2) with
  | Lt => f
  | Gt => (f + 1)%Z
  | Eq => if Z.even f then f else (f + 1)%Z
  end.

(** The double nearest to [a], for [0 <= a]: 53 significant bits. *)
Definition double_abs (a : Q) : Q :=
  if Qle_bool a 0 then 0%Q
  else
    let ulp := (2 ^ (ilog2 a - 52))%Q in
    (inject_Z (round_even (a / ulp)) * ulp)%Q.

(** The double nearest to [x]. *)
Definition double (x : Q) : Q :=
  if Qle_bool 0 x then double_abs x else (- double_abs (- x))%Q.

(** [Math.round]: to the nearest integer, halves upwards. *)
Definition round (x : Q) : Z := Qfloor (x + (1 # 2)).

(** [x.toFixed(1)] for [0 <= x]: the decimal with one digit nearest to the
    number [x] denotes, the larger one when two are as near. *)
Definition toFixed1 (x : Q) : string :=
  let n := Qfloor (x * 10 + (1 # 2)) in
  show_int (n / 10) ++ "." ++ show_int (n mod 10).

End Js.

Import Js.

(* ================================================================== *)
(** ** Data: provider payloads, table rows, the outside world *)
(* ================================================================== *)

(** The part of a webhook envelope the code reads, after the access path
    [body.entry?.[0]?.changes?.[0]].  Fields the code reads unguarded are
    plain; fields read through [?.] or defaulted with [||] are options. *)
Record Media : Type := mkMedia {
  media_id : option string;
  mime_type : option string;
  media_caption : option string
}.

Record InboundMessage : Type := mkInbound {
  wa_id : string;
  wa_from : string;
  wa_timestamp : string;
  wa_type : string;
  wa_text_body : option string;      (* message.text?.body *)
  wa_image : option Media;
  wa_video : option Media;
  wa_audio : option Media;
  wa_document : option Media
}.

Record StatusUpdate : Type := mkStatus {
  st_id : string;
  st_status : string
}.

Record ChangeValue : Type := mkValue {
  v_messages : option (list InboundMessage);
  v_statuses : option (list StatusUpdate);
  v_phone_number_id : option string  (* value.metadata?.phone_number_id *)
}.

Record Change : Type := mkChange {
  field : option string;
  value : option ChangeValue
}.

(** What [await request.json()] gives on the webhook route. *)
Inductive WebhookRequest : Type :=
| BadJson (msg : string)            (* the body does not parse: SyntaxError *)
| JsonNull                          (* the body is the literal null *)
| Envelope (c : option Change).     (* [None]: no entry[0].changes[0] *)

(** What the provider's answer to a send holds, as far as the code reads
    it: [data.error?.message] and [data.messages?.[0]?.id]. *)
Record ProviderData : Type := mkData {
  error_message : option string;
  first_message_id : option string
}.

Inductive ProviderBody : Type :=
| BadBody (msg : string)            (* response.json() rejects *)
| NullData                          (* the body is the literal null *)
| Data (d : ProviderData).

Inductive FetchOutcome : Type :=
| NetworkFailure (e : thrown)
| Response (ok : bool) (b : ProviderBody).

Inductive Direction : Type := inbound | outbound.

Definition Direction_eqb (a b : Direction) : bool :=
  match a, b with
  | inbound, inbound | outbound, outbound => true
  | _, _ => false
  end.

Inductive Metadata : Type :=
| RawWebhook (c : option Change)
| RawProvider (d : ProviderData).

Module Table.

(** A row of table [messages] (SETUP.md), with the columns the code writes
  or reads. *)
Record Row : Type := mkRow {
message_id : string;               (* TEXT UNIQUE NOT NULL *)
phone_number : string;             (* TEXT NOT NULL *)
from_number : string;              (* TEXT NOT NULL *)
to_number : string;                (* TEXT NOT NULL *)
body : option string;              (* TEXT *)
direction : Direction;             (* CHECK (direction IN (...)) *)
status : option string;            (* TEXT *)
timestamp : Z;                     (* TIMESTAMPTZ NOT NULL *)
message_type : string;
media_url : option string;
media_mime_type : option string;
caption : option string;
is_ai_response : bool;             (* BOOLEAN DEFAULT FALSE *)
metadata : Metadata
}.

Definition set_status (s : string) (r : Row) : Row :=
mkRow (message_id r) (phone_number r) (from_number r) (to_number r)
      (body r) (direction r) (Some s) (timestamp r) (message_type r)
      (media_url r) (media_mime_type r) (caption r) (is_ai_response r)
      (metadata r).

End Table.

Import Table.

Inductive LogPayload : Type :=
| LoggedBody (c : option Change)
| LoggedError (msg : string).

(** A row of table [webhook_logs]. *)
Record LogRow : Type := mkLog {
  event_type : string;
  payload : LogPayload;
  processed : bool;
  log_error : option string
}.

(** How the store answers one call: it runs the statement, it answers with
    an error object, or the promise rejects.  The client is not in the
    sources; as the code sets it up, a failed request is answered with an
    error object, and [Rejects] stands for the worst a caller of an
    awaited promise has to reckon with. *)
Inductive StoreOutcome : Type :=
| Healthy
| ErrorResult (msg : string)
| Rejects (e : thrown).

(** The outside world.  [store_script] and [provider_script] say, call by
    call, how long the next call to the store (to the provider) takes in
    milliseconds and how it ends; an exhausted script means an immediate
    healthy store, and an unreachable provider. *)
Record World : Type := mkWorld {
  messages : list Row;
  webhook_logs : list LogRow;
  clock : Z;
  store_script : list (N * StoreOutcome);
  provider_script : list (N * FetchOutcome);
  provider_calls : list (string * jsval)    (* (to, text.body) posted so far *)
}.

(** The store engine's reading of JSON scalars the code hands over
    unchecked: the value stored in a TEXT and in a BOOLEAN column, or
    [None] when the engine refuses the value. *)
Record Engine : Type := mkEngine {
  text_column : jsval -> option (option string);
  bool_column : jsval -> option bool
}.

(** Environment variables. *)
Record Config : Type := mkConfig {
  WHATSAPP_PHONE_NUMBER_ID : option string;
  WHATSAPP_ACCESS_TOKEN : option string;
  WEBHOOK_VERIFY_TOKEN : option string
}.

(* ================================================================== *)
(** ** The monad of effectful code *)
(* ================================================================== *)

Inductive result (A : Type) : Type :=
| Ok (a : A)
| Throw (e : thrown).
Arguments Ok {A} a.
Arguments Throw {A} e.

Definition M (A : Type) : Type := World -> result A * World.

Definition ret {A} (a : A) : M A := fun w => (Ok a, w).

Definition throw {A} (e : thrown) : M A := fun w => (Throw e, w).

Definition bind {A B} (m : M A) (k : A -> M B) : M B :=
  fun w =>
    match m w with
    | (Ok a, w') => k a w'
    | (Throw e, w') => (Throw e, w')
    end.

(** [try { body } catch (error) { handler }] *)
Definition try_catch {A} (body : M A) (handler : thrown -> M A) : M A :=
  fun w =>
    match body w with
    | (Ok a, w') => (Ok a, w')
    | (Throw e, w') => handler e w'
    end.

Notation "x <- m ;; k" := (bind m (fun x => k))
  (at level 61, m at next level, right associativity).
Notation "m ;;; k" := (bind m (fun _ => k))
  (at level 61, right associativity).

(** [for (const x of xs) { f x }] *)
Fixpoint for_each {A} (xs : list A) (f : A -> M unit) : M unit :=
  match xs with
  | [] => ret tt
  | x :: r => f x ;;; for_each r f
  end.

(** [Date.now()] *)
Definition now : M Z := fun w => (Ok (clock w), w).

(* ================================================================== *)
(** ** The store client ([supabaseAdmin]) *)
(* ================================================================== *)

Module Store.

(** The [{ data, error }] pair every call resolves to. *)
Record Reply (A : Type) : Type := mkReply {
  data : option A;
  error : option string
}.
Arguments mkReply {A} data error.
Arguments data {A} r.
Arguments error {A} r.

Definition with_messages (rows : list Row) (w : World) : World :=
  mkWorld rows (webhook_logs w) (clock w) (store_script w)
          (provider_script w) (provider_calls w).

Definition with_logs (logs : list LogRow) (w : World) : World :=
  mkWorld (messages w) logs (clock w) (store_script w)
          (provider_script w) (provider_calls w).

(** The next entry of the script: time passes, the outcome is known. *)
Definition call : M StoreOutcome :=
  fun w =>
    match store_script w with
    | [] => (Ok Healthy, w)
    | (d, o) :: rest =>
        (Ok o, mkWorld (messages w) (webhook_logs w) (clock w + Z.of_N d)
                       rest (provider_script w) (provider_calls w))
    end.

(** One awaited call: the statement runs only on a healthy store. *)
Definition run {A} (stmt : M (Reply A)) : M (Reply A) :=
  o <- call ;;
  match o with
  | Healthy => stmt
  | ErrorResult msg => ret (mkReply None (Some msg))
  | Rejects e => throw e
  end.

Definition has_id (id : string) (rows : list Row) : bool :=
  existsb (fun r => message_id r =? id) rows.

(** [from('messages').insert(row)], with or without [.select()].
    [None] is a row the engine refuses to build from the values given.
    Column [message_id] is UNIQUE: a second row with a stored id is
    refused with an error and the table is left as it was. *)
Definition insert_message (row : option Row) : M (Reply (list Row)) :=
  run (fun w =>
    match row with
    | None => (Ok (mkReply None (Some "invalid input syntax")), w)
    | Some r =>
        if has_id (message_id r) (messages w)
        then (Ok (mkReply None
                (Some "duplicate key value violates unique constraint")), w)
        else (Ok (mkReply (Some [r]) None),
              with_messages (messages w ++ [r]) w)
    end).

(** [from('messages').update({ status }).eq('message_id', id)] *)
Definition update_status (id st : string) : M (Reply (list Row)) :=
  run (fun w =>
    (Ok (mkReply None None),
     with_messages
       (map (fun r => if message_id r =? id then set_status st r else r)
            (messages w)) w)).

(** [from('webhook_logs').insert(log)] *)
Definition insert_log (l : LogRow) : M (Reply (list LogRow)) :=
  run (fun w =>
    (Ok (mkReply None None), with_logs (webhook_logs w ++ [l]) w)).

(** *** Query builders of [from('messages').select('*')] *)

Definition eq_phone_number (p : string) (rows : list Row) : list Row :=
  filter (fun r => phone_number r =? p) rows.

Definition eq_direction (d : Direction) (rows : list Row) : list Row :=
  filter (fun r => Direction_eqb (direction r) d) rows.

Definition eq_is_ai_response (b : bool) (rows : list Row) : list Row :=
  filter (fun r => Bool.eqb (is_ai_response r) b) rows.

Definition gte_timestamp (t : Z) (rows : list Row) : list Row :=
  filter (fun r => (t <=? timestamp r)%Z) rows.

(** [.order('timestamp', { ascending: false })]; rows of equal timestamp
    keep their table order. *)
Definition order_timestamp_desc (rows : list Row) : list Row :=
  sort_desc timestamp rows.

Definition limit (n : nat) (rows : list Row) : list Row := firstn n rows.

(** Awaiting a built query. *)
Definition select (q : list Row -> list Row) : M (Reply (list Row)) :=
  run (fun w => (Ok (mkReply (Some (q (messages w))) None), w)).

End Store.

(** The provider's HTTP endpoint: [fetch(url, { method: 'POST', ... })]
    with the text envelope for [to] and [body]. *)
Definition fetch_provider (to : string) (text_body : jsval)
  : M (bool * ProviderBody) :=
  fun w =>
    let calls := (provider_calls w ++ [(to, text_body)])%list in
    match provider_script w with
    | [] =>
        (Throw (JsError "fetch failed"),
         mkWorld (messages w) (webhook_logs w) (clock w) (store_script w)
                 [] calls)
    | (d, o) :: rest =>
        let w' := mkWorld (messages w) (webhook_logs w) (clock w + Z.of_N d)
                          (store_script w) rest calls in
        match o with
        | NetworkFailure e => (Throw e, w')
        | Response ok b => (Ok (ok, b), w')
        end
    end.

(* ================================================================== *)
(** ** lib/whatsapp.ts *)
(* ================================================================== *)

Module Whatsapp.

(** [!v] for an environment variable. *)
Definition missing (v : option string) : bool :=
  match v with
  | Some s => s =? ""
  | None => true
  end.

(** [to.replace(/\+/g, '').replace(/\s/g, '')], which needs a string. *)
Definition clean_to (to : jsval) : M string :=
  match to with
  | JStr s => ret (strip_spaces (strip_plus s))
  | JUndefined =>
      throw (JsError "Cannot read properties of undefined (reading 'replace')")
  | JNull =>
      throw (JsError "Cannot read properties of null (reading 'replace')")
  | _ => throw (JsError "to.replace is not a function")
  end.

(** [await response.json()] *)
Definition response_json (b : ProviderBody) : M (option ProviderData) :=
  match b with
  | BadBody msg => throw (JsError msg)
  | NullData => ret None
  | Data d => ret (Some d)
  end.

(** A property read on [data], which throws on null. *)
Definition read_data (prop : string) (data : option ProviderData)
  : M ProviderData :=
  match data with
  | Some d => ret d
  | None =>
      throw (JsError ("Cannot read properties of null (reading '"
                      ++ prop ++ "')"))
  end.

(** What the default of [isAiResponse: boolean = false] makes of the
    argument. *)
Definition defaulted (isAiResponse : jsval) : jsval :=
  match isAiResponse with
  | JUndefined => JBool false
  | v => v
  end.

Definition sendWhatsAppMessage (E : Engine) (cfg : Config)
    (to body isAiResponse : jsval) : M ProviderData :=
  let isAiResponse := defaulted isAiResponse in
  let phoneNumberId := WHATSAPP_PHONE_NUMBER_ID cfg in
  let accessToken := WHATSAPP_ACCESS_TOKEN cfg in
  if missing phoneNumberId || missing accessToken
  then throw (JsError "WhatsApp credentials not configured")
  else
    cleanTo <- clean_to to ;;
    response <- fetch_provider cleanTo body ;;
    let '(ok, raw) := response in
    data <- response_json raw ;;
    if negb ok
    then
      d <- read_data "error" data ;;
      throw (JsError (or_str (error_message d) "Failed to send message"))
    else
      d <- read_data "messages" data ;;
      t <- now ;;
      let messageId := or_str (first_message_id d) ("msg_" ++ show_int t) in
      let fromNumber := or_str phoneNumberId "" in
      sent_at <- now ;;
      Store.insert_message
        (match text_column E body, bool_column E isAiResponse with
         | Some b, Some ai =>
             Some (mkRow messageId cleanTo fromNumber cleanTo b outbound
                         (Some "sent") sent_at "text" None None None ai
                         (RawProvider d))
         | _, _ => None
         end) ;;;
      ret d.

(** [getMessages(phoneNumber?, limit = 1000)] *)
Definition getMessages (phoneNumber : option string) (limit : nat)
  : M (list Row) :=
  let query :=
    match phoneNumber with
    | Some p =>
        if p =? "" then
          fun rows => Store.limit limit (Store.order_timestamp_desc rows)
        else
          let cleanPhone := strip_spaces (strip_plus p) in
          fun rows =>
            Store.limit limit
              (Store.order_timestamp_desc
                 (Store.eq_phone_number cleanPhone rows))
    | None =>
        fun rows => Store.limit limit (Store.order_timestamp_desc rows)
    end in
  reply <- Store.select query ;;
  match Store.error reply with
  | Some _ => throw (JsError "Failed to fetch messages from database")
  | None =>
      ret (match Store.data reply with Some rows => rows | None => [] end)
  end.

Definition media_field (f : Media -> option string) (m : option Media)
  : option string :=
  match m with
  | Some x => f x
  | None => None
  end.

(** [caption || placeholder] *)
Definition caption_or (c : option string) (placeholder : string) : string :=
  or_str c placeholder.

(** [webhookData.entry?.[0]?.changes?.[0]?.value?.messages?.[0]] *)
Definition first_message (c : option Change) : option InboundMessage :=
  match c with
  | Some ch =>
      match value ch with
      | Some v =>
          match v_messages v with
          | Some (m :: _) => Some m
          | _ => None
          end
      | None => None
      end
  | None => None
  end.

(** [webhookData.entry?.[0]?.changes?.[0]?.value?.metadata?.phone_number_id] *)
Definition business_number (c : option Change) : option string :=
  match c with
  | Some ch =>
      match value ch with
      | Some v => v_phone_number_id v
      | None => None
      end
  | None => None
  end.

(** [new Date(parseInt(ts) * 1000).toISOString()] *)
Definition iso_of_seconds (ts : string) : M Z :=
  match date_of_ms (option_map (fun s => s * 1000) (parseInt ts)) with
  | Some ms => ret ms
  | None => throw (JsError "Invalid time value")
  end.

Definition storeInboundMessage (webhookData : option Change)
  : M (option Row) :=
  match first_message webhookData with
  | None => ret None
  | Some message =>
      let messageId := wa_id message in
      let from := wa_from message in
      timestamp <- iso_of_seconds (wa_timestamp message) ;;
      let messageType := wa_type message in
      let '(body, mediaUrl, mediaMimeType, caption) :=
        if wa_type message =? "text" then
          (or_str (wa_text_body message) "", None, None, None)
        else if wa_type message =? "image" then
          let caption := media_field media_caption (wa_image message) in
          (caption_or caption "[Image]",
           media_field media_id (wa_image message),
           media_field mime_type (wa_image message), caption)
        else if wa_type message =? "video" then
          let caption := media_field media_caption (wa_video message) in
          (caption_or caption "[Video]",
           media_field media_id (wa_video message),
           media_field mime_type (wa_video message), caption)
        else if wa_type message =? "audio" then
          ("[Audio]",
           media_field media_id (wa_audio message),
           media_field mime_type (wa_audio message), None)
        else if wa_type message =? "document" then
          let caption := media_field media_caption (wa_document message) in
          (caption_or caption "[Document]",
           media_field media_id (wa_document message),
           media_field mime_type (wa_document message), caption)
        else
          ("[" ++ wa_type message ++ "]", None, None, None) in
      reply <-
        Store.insert_message
          (Some (mkRow messageId from from
                       (or_str (business_number webhookData) "")
                       (Some body) inbound (Some "received") timestamp
                       messageType mediaUrl mediaMimeType caption false
                       (RawWebhook webhookData))) ;;
      ret (match Store.data reply with
           | Some (r :: _) => Some r
           | _ => None
           end)
  end.

End Whatsapp.

(* ================================================================== *)
(** ** The API routes *)
(* ================================================================== *)

(** An HTTP response: its status and its body. *)
Record Http (B : Type) : Type := mkHttp {
  http_status : Z;
  http_body : B
}.
Arguments mkHttp {B} http_status http_body.
Arguments http_status {B} h.
Arguments http_body {B} h.

(** [NextResponse.json(body)] answers 200 unless a status is given. *)
Definition json {B} (b : B) : Http B := mkHttp 200 b.

(** *** app/api/messages/send/route.ts *)
Module SendRoute.

(** What [await request.json()] gives. *)
Inductive Request : Type :=
| BadJson (msg : string)
| JsonNull
| Fields (to body isAiResponse : jsval).

Inductive Body : Type :=
| Failure (error : string)
| Success (message : ProviderData).

Definition request_json (r : Request) : M (jsval * jsval * jsval) :=
  match r with
  | BadJson msg => throw (JsError msg)
  | JsonNull =>
      throw (JsError
               ("Cannot destructure property 'to' of "
                ++ "'(intermediate value)' as it is null."))
  | Fields to body isAiResponse => ret (to, body, isAiResponse)
  end.

Definition POST (E : Engine) (cfg : Config) (request : Request)
  : M (Http Body) :=
  try_catch
    (fields <- request_json request ;;
     let '(to, body, isAiResponse) := fields in
     if negb (truthy to) || negb (truthy body)
     then ret (mkHttp 400 (Failure "Missing required fields: to, body"))
     else
       data <- Whatsapp.sendWhatsAppMessage E cfg to body
                 (Js.or isAiResponse (JBool false)) ;;
       ret (json (Success data)))
    (fun error =>
       ret (mkHttp 500 (Failure (message_or error "Failed to send message")))).

End SendRoute.

(** *** app/api/messages/fetch/route.ts *)
Module FetchRoute.

(** An item of the [messages] array of the answer; [direction] is
    ['inbound'] or ['outbound-api']. *)
Record Message : Type := mkMessage {
  sid : string;
  from : string;
  to : string;
  body : string;
  date_sent : Z;
  status : string;
  direction : string;
  message_type : string;
  is_ai_response : bool
}.

Inductive Body : Type :=
| Failure (error : string)
| Messages (messages : list Message).

Definition is_inbound (msg : Row) : bool :=
  Direction_eqb (Table.direction msg) inbound.

Definition format (msg : Row) : Message :=
  mkMessage
    (message_id msg)
    (if is_inbound msg then from_number msg else to_number msg)
    (if is_inbound msg then to_number msg else from_number msg)
    (or_str (Table.body msg) "")
    (timestamp msg)
    (or_str (Table.status msg) "delivered")
    (if is_inbound msg then "inbound" else "outbound-api")
    (Table.message_type msg)
    (Table.is_ai_response msg).

Definition GET : M (Http Body) :=
  try_catch
    (messages <- Whatsapp.getMessages None 1000 ;;
     let formattedMessages := map format messages in
     ret (json (Messages formattedMessages)))
    (fun _ => ret (mkHttp 500 (Failure "Failed to fetch messages"))).

End FetchRoute.

(** *** app/api/check-human/route.ts *)
Module CheckHuman.

Record Result : Type := mkResult {
  phoneNumber : string;
  humanActive : bool;
  lastHumanResponseTime : option Z;
  hoursRemaining : Q;
  message : string
}.

Inductive Body : Type :=
| Failure (error : string) (humanActive : bool)
| Verdict (r : Result).

(** The [humanActive] field, which every body of this route has. *)
Definition human_active (b : Body) : bool :=
  match b with
  | Failure _ active => active
  | Verdict r => humanActive r
  end.

Definition hour : Z := 1000 * 60 * 60.

(** [0 < x] on numbers *)
Definition positive (x : Q) : bool := negb (Qle_bool x 0).

(** Field [hoursRemaining] of the answer holds the decimal the response
    carries: for an integer [n] of at most 15 digits, the double
    [n / 100] is written as the decimal of [n] hundredths. *)
Definition GET (phone : option string) : M (Http Body) :=
  try_catch
    (match phone with
     | None =>
         ret (mkHttp 400
                (Failure "Phone number is required as query parameter" false))
     | Some phoneNumber =>
         if phoneNumber =? "" then
           ret (mkHttp 400
                  (Failure "Phone number is required as query parameter"
                           false))
         else
           let cleanPhoneNumber :=
             trim (strip_spaces (strip_plus phoneNumber)) in
           t0 <- now ;;
           let twoHoursAgo := t0 - 2 * 60 * 60 * 1000 in
           reply <-
             Store.select (fun rows =>
               Store.limit 1
                 (Store.order_timestamp_desc
                    (Store.gte_timestamp twoHoursAgo
                       (Store.eq_is_ai_response false
                          (Store.eq_direction outbound
                             (Store.eq_phone_number cleanPhoneNumber
                                rows)))))) ;;
           match Store.error reply with
           | Some _ =>
               ret (mkHttp 500
                      (Failure "Failed to check conversation status" false))
           | None =>
               verdict <-
                 match Store.data reply with
                 | Some (lastMessage :: _) =>
                     let lastHumanResponseTime := timestamp lastMessage in
                     let messageTime := lastHumanResponseTime in
                     t1 <- now ;;
                     let hoursElapsed :=
                       double (inject_Z (t1 - messageTime) / inject_Z hour) in
                     let hoursRemaining :=
                       Qmax 0 (double (2 - hoursElapsed)) in
                     ret (positive hoursRemaining,
                          Some lastHumanResponseTime, hoursRemaining)
                 | _ => ret (false, None, 0%Q)
                 end ;;
               let '(humanActive, lastHumanResponseTime, hoursRemaining) :=
                 verdict in
               ret (json (Verdict
                 (mkResult cleanPhoneNumber humanActive lastHumanResponseTime
                    (inject_Z (Js.round (double (hoursRemaining * 100)))
                     / 100)%Q
                    (if humanActive
                     then "Human is active - AI should wait "
                          ++ toFixed1 hoursRemaining ++ " more hours"
                     else "No human activity detected - AI can respond"))))
           end
     end)
    (fun _ =>
       ret (mkHttp 500 (Failure "Failed to check conversation status" false))).

End CheckHuman.

(** *** app/api/webhook/route.ts *)
Module Webhook.

(** [a === b] between a query parameter (string or null) and a string or
    an environment variable (string or undefined): both must be strings. *)
Definition strict_eq (a b : option string) : bool :=
  match a, b with
  | Some x, Some y => x =? y
  | _, _ => false
  end.

Definition GET (cfg : Config) (mode token challenge : option string)
  : M (Http (option string)) :=
  try_catch
    (if strict_eq mode (Some "subscribe")
        && strict_eq token (WEBHOOK_VERIFY_TOKEN cfg)
     then ret (mkHttp 200 challenge)
     else ret (mkHttp 403 (Some "Forbidden")))
    (fun _ => ret (mkHttp 500 (Some "Internal Server Error"))).

Definition request_json (r : WebhookRequest) : M (option (option Change)) :=
  match r with
  | BadJson msg => throw (JsError msg)
  | JsonNull => ret None
  | Envelope c => ret (Some c)
  end.

(** [body.entry?.[0]?.changes?.[0]], which throws on a null body. *)
Definition first_change (body : option (option Change))
  : M (option Change) :=
  match body with
  | Some c => ret c
  | None =>
      throw (JsError "Cannot read properties of null (reading 'entry')")
  end.

Definition change_field (c : option Change) : option string :=
  match c with
  | Some ch => field ch
  | None => None
  end.

Definition change_value (c : option Change) : option ChangeValue :=
  match c with
  | Some ch => value ch
  | None => None
  end.

(** [xs && xs.length > 0] *)
Definition non_empty {A} (xs : option (list A)) : bool :=
  match xs with
  | Some (_ :: _) => true
  | _ => false
  end.

Definition items {A} (xs : option (list A)) : list A :=
  match xs with
  | Some l => l
  | None => []
  end.

Definition POST (request : WebhookRequest) : M (Http string) :=
  try_catch
    (body <- request_json request ;;
     change <- first_change body ;;
     Store.insert_log
       (mkLog (or_str (change_field change) "unknown")
              (LoggedBody change) false None) ;;;
     let messages :=
       match change_value change with
       | Some v => v_messages v
       | None => None
       end in
     let statuses :=
       match change_value change with
       | Some v => v_statuses v
       | None => None
       end in
     (if non_empty messages then
        storedMessage <- Whatsapp.storeInboundMessage change ;;
        match storedMessage with
        | Some _ =>
            Store.insert_log
              (mkLog "message_received" (LoggedBody change) true None) ;;;
            ret tt
        | None => ret tt
        end
      else if non_empty statuses then
        for_each (items statuses) (fun status =>
          let messageId := st_id status in
          let newStatus := st_status status in
          Store.update_status messageId newStatus ;;;
          ret tt) ;;;
        Store.insert_log
          (mkLog "status_update" (LoggedBody change) true None) ;;;
        ret tt
      else ret tt) ;;;
     ret (mkHttp 200 "ok"))
    (fun error =>
       try_catch
         (Store.insert_log
            (mkLog "error"
                   (LoggedError (message_or error "Unknown error"))
                   false
                   (Some (message_or error "Unknown error"))) ;;;
          ret tt)
         (fun _ => ret tt) ;;;
       ret (mkHttp 200 "error")).

End Webhook.


(* ================================================================== *)
(** ** app/page.tsx: the conversation list of the dashboard *)
(* ================================================================== *)

Module Page.

Record Conversation : Type := mkConversation {
  phoneNumber : string;
  messages : list FetchRoute.Message;
  lastMessage : option FetchRoute.Message     (* sortedMessages[0] *)
}.

(** The key a message is filed under (lines 65 to 67). *)
Definition group_key (message : FetchRoute.Message) : string :=
  if FetchRoute.direction message =? "inbound"
  then replace "whatsapp:" "" (FetchRoute.from message)
  else replace "whatsapp:" "" (FetchRoute.to message).

(** [if (!groups[key]) groups[key] = []; groups[key].push(message)], for
    a key the object does not inherit. *)
Fixpoint push (key : string) (message : FetchRoute.Message)
    (groups : list (string * list FetchRoute.Message))
  : list (string * list FetchRoute.Message) :=
  match groups with
  | [] => [(key, [message])]
  | (k, ms) :: rest =>
      if k =? key then (k, (ms ++ [message])%list) :: rest
      else (k, ms) :: push key message rest
  end.

(** The [forEach] of lines 64 to 73.  Under a key the object inherits,
    [messageGroups[phoneNumber]] is never [undefined]: no array is made,
    and the call of [push] on what is found there throws (the browser
    words the message with the names the build has given the
    variables). *)
Fixpoint group_messages (messages : list FetchRoute.Message)
    (messageGroups : list (string * list FetchRoute.Message))
  : result (list (string * list FetchRoute.Message)) :=
  match messages with
  | [] => Ok messageGroups
  | message :: rest =>
      let phoneNumber := group_key message in
      if is_inherited phoneNumber then
        Throw (JsError "messageGroups[phoneNumber].push is not a function")
      else group_messages rest (push phoneNumber message messageGroups)
  end.

Definition messageGroups (messages : list FetchRoute.Message)
  : result (list (string * list FetchRoute.Message)) :=
  group_messages messages [].

Definition last_date (c : Conversation) : Z :=
  match lastMessage c with
  | Some m => FetchRoute.date_sent m
  | None => 0
  end.

Definition conversationList (messages : list FetchRoute.Message)
  : result (list Conversation) :=
  match messageGroups messages with
  | Throw e => Throw e
  | Ok messageGroups =>
      Ok (sort_desc last_date
            (map (fun entry : string * list FetchRoute.Message =>
                    let '(phoneNumber, messages) := entry in
                    let sortedMessages :=
                      sort_desc FetchRoute.date_sent messages in
                    mkConversation phoneNumber sortedMessages
                      (hd_error sortedMessages))
                 (entries messageGroups)))
  end.

(** [fetchMessages], up to the list handed to [setConversations]. *)
Definition fetchMessages (response : Http FetchRoute.Body)
  : result (list Conversation) :=
  let ok :=
    ((200 <=? http_status response) && (http_status response <=? 299))%Z in
  if negb ok then
    Throw (JsError
             (or_str (match http_body response with
                      | FetchRoute.Failure error => Some error
                      | FetchRoute.Messages _ => None
                      end) "Failed to fetch messages"))
  else
    match http_body response with
    | FetchRoute.Messages messages => conversationList messages
    | FetchRoute.Failure _ =>
        Throw (JsError
                 "Cannot read properties of undefined (reading 'forEach')")
    end.

(** *** The rest of the dashboard's logic

    Instants read with [new Date()] are the parameter [now].  The field
    [lastMessage] is read through [last_date]: it is defined for every
    conversation [conversationList] builds. *)

(** [formatPhoneNumber] *)
Definition formatPhoneNumber (phoneNumber : string) : string :=
  replace "whatsapp:" "" phoneNumber.

(** [(now - t) / (1000 * 60 * 60)] *)
Definition hoursSince (now t : Z) : Q :=
  double (inject_Z (now - t) / inject_Z (1000 * 60 * 60)).

Definition isOutside24HourWindow (now : Z) (conversation : Conversation)
  : bool :=
  match lastMessage conversation with
  | None => false
  | Some last =>
      let lastMessageTime := FetchRoute.date_sent last in
      let hoursDiff := hoursSince now lastMessageTime in
      (FetchRoute.direction last =? "inbound")
      && negb (Qle_bool hoursDiff 24)
  end.

Record Analytics : Type := mkAnalytics {
  totalConversations : Z;
  totalMessages : Z;
  aiMessages : Z;
  humanMessages : Z;
  avgResponseTime : Q;
  messagesLast24h : Z;
  messagesLast7d : Z
}.

(** The counters [calculateAnalytics] keeps in [let] variables. *)
Record Counters : Type := mkCounters {
  n_totalMessages : Z;
  n_aiMessages : Z;
  n_humanMessages : Z;
  n_messagesLast24h : Z;
  n_messagesLast7d : Z;
  n_totalResponseTime : Z;
  n_responseCount : Z
}.

(** [xs.forEach((x, index) => ...)], the state being threaded through. *)
Fixpoint forEach_indexed {A St} (f : St -> A -> nat -> St)
    (index : nat) (xs : list A) (acc : St) : St :=
  match xs with
  | [] => acc
  | x :: rest => forEach_indexed f (S index) rest (f acc x index)
  end.

(** The body of the inner [forEach] of [calculateAnalytics]. *)
Definition count_message (now : Z) (conv : Conversation)
    (c : Counters) (message : FetchRoute.Message) (index : nat) : Counters :=
  let last24h := now - 24 * 60 * 60 * 1000 in
  let last7d := now - 7 * 24 * 60 * 60 * 1000 in
  let messageDate := FetchRoute.date_sent message in
  let c :=
    mkCounters
      (n_totalMessages c + 1)
      (n_aiMessages c)
      (n_humanMessages c)
      (if (last24h <? messageDate)%Z
       then n_messagesLast24h c + 1 else n_messagesLast24h c)
      (if (last7d <? messageDate)%Z
       then n_messagesLast7d c + 1 else n_messagesLast7d c)
      (n_totalResponseTime c)
      (n_responseCount c) in
  if FetchRoute.direction message =? "outbound-api" then
    match nth_error (messages conv) (index + 1) with
    | Some prevMessage =>
        if FetchRoute.direction prevMessage =? "inbound" then
          let responseTime :=
            FetchRoute.date_sent message - FetchRoute.date_sent prevMessage in
          mkCounters
            (n_totalMessages c)
            (if (responseTime <? 30000)%Z
             then n_aiMessages c + 1 else n_aiMessages c)
            (if (responseTime <? 30000)%Z
             then n_humanMessages c else n_humanMessages c + 1)
            (n_messagesLast24h c)
            (n_messagesLast7d c)
            (n_totalResponseTime c + responseTime)
            (n_responseCount c + 1)
        else
          mkCounters (n_totalMessages c) (n_aiMessages c)
                     (n_humanMessages c + 1) (n_messagesLast24h c)
                     (n_messagesLast7d c) (n_totalResponseTime c)
                     (n_responseCount c)
    | None =>
        mkCounters (n_totalMessages c) (n_aiMessages c)
                   (n_humanMessages c + 1) (n_messagesLast24h c)
                   (n_messagesLast7d c) (n_totalResponseTime c)
                   (n_responseCount c)
    end
  else c.

Definition count_all (now : Z) (conversations : list Conversation)
  : Counters :=
  fold_left
    (fun c conv =>
       forEach_indexed (count_message now conv) 0 (messages conv) c)
    conversations
    (mkCounters 0 0 0 0 0 0 0).

(** [calculateAnalytics], up to the record handed to [setAnalytics]. *)
Definition calculateAnalytics (now : Z) (conversations : list Conversation)
  : Analytics :=
  let c := count_all now conversations in
  mkAnalytics
    (Z.of_nat (List.length conversations))
    (n_totalMessages c)
    (n_aiMessages c)
    (n_humanMessages c)
    (if (0 <? n_responseCount c)%Z
     then double
            (inject_Z (n_totalResponseTime c) / inject_Z (n_responseCount c))
     else 0%Q)
    (n_messagesLast24h c)
    (n_messagesLast7d c).

Definition isAIMessage (message : FetchRoute.Message)
    (allMessages : list FetchRoute.Message) (index : nat) : bool :=
  if negb (FetchRoute.direction message =? "outbound-api") then false
  else
    match nth_error allMessages (index + 1) with
    | Some prevMessage =>
        if FetchRoute.direction prevMessage =? "inbound" then
          let responseTime :=
            FetchRoute.date_sent message - FetchRoute.date_sent prevMessage in
          (responseTime <? 30000)%Z
        else false
    | None => false
    end.

(** The label over a message in the message pane (lines 496 to 518).
    The pane shows [messages.slice().reverse()], and hands [isAIMessage]
    that list and [indexOf(message)] in it, which is the position of the
    message, the items being distinct objects. *)
Inductive Label : Type := no_label | ai_response | manual_reply.

Definition shownMessages (conversation : Conversation)
  : list FetchRoute.Message :=
  rev (messages conversation).

Definition label (conversation : Conversation) (index : nat)
    (message : FetchRoute.Message) : Label :=
  if FetchRoute.direction message =? "outbound-api" then
    if isAIMessage message (shownMessages conversation) index
    then ai_response else manual_reply
  else no_label.

Inductive FilterType : Type :=
| filter_all | filter_4h | filter_8h | filter_24h | filter_old.

Inductive SortType : Type := newest | oldest | active.

(** [s.toLowerCase()], on code units below 256. *)
Definition lower_char (c : ascii) : ascii :=
  let n := nat_of_ascii c in
  if ((65 <=? n) && (n <=? 90))%nat
     || ((192 <=? n) && (n <=? 222) && negb (n =? 215))%nat
  then ascii_of_nat (n + 32)
  else c.

Fixpoint toLowerCase (s : string) : string :=
  match s with
  | EmptyString => EmptyString
  | String c r => String (lower_char c) (toLowerCase r)
  end.

(** [s.includes(t)] *)
Fixpoint includes (s t : string) : bool :=
  prefix t s
  || match s with
     | EmptyString => false
     | String _ r => includes r t
     end.

(** [xs.sort(cmp)], a stable sort: an element stays before the ones that
    followed it unless [cmp] puts it after them. *)
Fixpoint insert_sorted {A} (cmp : A -> A -> Q) (x : A) (sorted : list A)
  : list A :=
  match sorted with
  | [] => [x]
  | y :: r =>
      if Qle_bool (cmp x y) 0 then x :: sorted
      else y :: insert_sorted cmp x r
  end.

Definition sort {A} (cmp : A -> A -> Q) (xs : list A) : list A :=
  fold_right (insert_sorted cmp) [] xs.

(** The time filter of [filterConversations]. *)
Definition inTimeFilter (now : Z) (filter : FilterType) (conv : Conversation)
  : bool :=
  let lastMessageTime := last_date conv in
  let hoursDiff := hoursSince now lastMessageTime in
  match filter with
  | filter_4h => Qle_bool hoursDiff 4
  | filter_8h => Qle_bool hoursDiff 8
  | filter_24h => Qle_bool hoursDiff 24
  | filter_old => negb (Qle_bool hoursDiff 24)
  | filter_all => true
  end.

(** The search filter of [filterConversations]. *)
Definition matchesSearch (searchTerm : string) (conv : Conversation) : bool :=
  let searchLower := toLowerCase searchTerm in
  includes (phoneNumber conv) searchTerm
  || existsb
       (fun msg => includes (toLowerCase (FetchRoute.body msg)) searchLower)
       (messages conv).

(** The comparator of [filterConversations]; the clock is taken not to
    tick while the list is sorted. *)
Definition compareConversations (now : Z) (sortBy : SortType)
    (a b : Conversation) : Q :=
  let aTime := last_date a in
  let bTime := last_date b in
  match sortBy with
  | newest => inject_Z (bTime - aTime)
  | oldest => inject_Z (aTime - bTime)
  | active =>
      let aRecent := hoursSince now aTime in
      let bRecent := hoursSince now bTime in
      double (aRecent - bRecent)
  end.

Definition filterConversations (now : Z) (sortBy : SortType)
    (conversations : list Conversation) (filter : FilterType)
    (searchTerm : string) : list Conversation :=
  let filtered :=
    match filter with
    | filter_all => conversations
    | _ => List.filter (inTimeFilter now filter) conversations
    end in
  let filtered :=
    if searchTerm =? "" then filtered
    else List.filter (matchesSearch searchTerm) filtered in
  sort (compareConversations now sortBy) filtered.

End Page.

(* ================================================================== *)
(** ** Vocabulary of the statements *)
(* ================================================================== *)

(** How the store ends its next call. *)
Definition next_store_outcome (w : World) : StoreOutcome :=
  match store_script w with
  | [] => Healthy
  | (_, o) :: _ => o
  end.

(** The store runs every statement it is sent. *)
Definition store_up (w : World) : Prop :=
  Forall (fun e : N * StoreOutcome => snd e = Healthy) (store_script w).

(** Table [messages] respects the UNIQUE constraint on [message_id]. *)
Definition unique_ids (rows : list Row) : Prop :=
  NoDup (map message_id rows).

(** Number of rows with a given [message_id]. *)
Definition count_id (id : string) (rows : list Row) : nat :=
  List.length (filter (fun r => message_id r =? id) rows).

(** A webhook delivery of the inbound event [id]: an envelope whose first
    message has that identifier and a timestamp that names an instant. *)
Definition delivers (id : string) (request : WebhookRequest) : Prop :=
  exists c m,
    request = Envelope c /\
    Whatsapp.first_message c = Some m /\
    wa_id m = id /\
    date_of_ms (option_map (fun s => s * 1000) (parseInt (wa_timestamp m)))
      <> None.

(** The world after a sequence of webhook deliveries, one after another. *)
Fixpoint deliver_all (requests : list WebhookRequest) (w : World) : World :=
  match requests with
  | [] => w
  | r :: rest => deliver_all rest (snd (Webhook.POST r w))
  end.


(** The world when the clock shows [t]. *)
Definition at_time (t : Z) (w : World) : World :=
  mkWorld (messages w) (webhook_logs w) t (store_script w)
          (provider_script w) (provider_calls w).

(** A row that counts as a human reply to [phone]. *)
Definition human_reply (phone : string) (r : Row) : bool :=
  (phone_number r =? phone)
  && Direction_eqb (direction r) outbound
  && Bool.eqb (is_ai_response r) false.

(** The conversation a message with identifier [sid] is listed in. *)
Definition conversation_of (sid : string) (cs : list Page.Conversation)
  : option string :=
  option_map Page.phoneNumber
    (find (fun c =>
             existsb (fun m => FetchRoute.sid m =? sid) (Page.messages c)) cs).

(** The engine stores a JSON boolean as that boolean. *)
Definition stores_booleans (E : Engine) : Prop :=
  forall b, bool_column E (JBool b) = Some b.

(** How long the store's next call takes, in milliseconds. *)
Definition next_store_delay (w : World) : Z :=
  match store_script w with
  | [] => 0
  | (d, _) :: _ => Z.of_N d
  end.

(** The world once the store's next call has been answered. *)
Definition after_call (w : World) : World := snd (Store.call w).

(** The query of the gate, as a function of the table. *)
Definition human_window (phone : string) (since : Z) (rows : list Row)
  : list Row :=
  Store.limit 1
    (Store.order_timestamp_desc
       (Store.gte_timestamp since
          (Store.eq_is_ai_response false
             (Store.eq_direction outbound
                (Store.eq_phone_number phone rows))))).

(** The instant of the row the gate's query finds, if any. *)
Definition latest_human_reply (phone : string) (since : Z) (rows : list Row)
  : option Z :=
  option_map timestamp (hd_error (human_window phone since rows)).

(** Hours left of the two-hour window [age] milliseconds after the reply
    that opened it, as the gate computes them. *)
Definition hours_left_after (age : Z) : Q :=
  Qmax 0 (double (2 - double (inject_Z age / inject_Z CheckHuman.hour))).

(** Hours left of the two-hour window at [t1], before the rounding to two
    decimals. *)
Definition hours_left (t1 : Z) (latest : option Z) : Q :=
  match latest with
  | Some ts => hours_left_after (t1 - ts)
  | None => 0
  end.

(** [Math.round(x * 100) / 100], as the response carries it. *)
Definition two_decimals (x : Q) : Q :=
  inject_Z (Js.round (double (x * 100))) / 100.

(** The last human reply to [phone] in the table was sent at [T]. *)
Definition last_human_reply_at (phone : string) (T : Z) (rows : list Row)
  : Prop :=
  (exists r, In r rows /\ human_reply phone r = true /\ timestamp r = T) /\
  (forall r, In r rows -> human_reply phone r = true -> timestamp r <= T).

(** The table holds no human reply to [phone] from [since] on. *)
Definition no_human_reply_since (phone : string) (since : Z)
    (rows : list Row) : Prop :=
  forall r, In r rows -> human_reply phone r = true -> timestamp r < since.

(** The counterparty identifier the gate looks up for a query parameter. *)
Definition gate_key (phone : string) : string :=
  trim (strip_spaces (strip_plus phone)).

(** An invariant of the world that no call to the store breaks: time may
    pass and the script advance, a row with a fresh identifier may be
    appended, statuses may be rewritten, log rows may be appended. *)
Record store_invariant (inv : World -> Prop) : Prop := mkStoreInvariant {
  inv_call :
    forall w d o rest,
      store_script w = (d, o) :: rest -> inv w ->
      inv (mkWorld (messages w) (webhook_logs w) (clock w + Z.of_N d) rest
                   (provider_script w) (provider_calls w));
  inv_insert :
    forall w r,
      inv w -> Store.has_id (message_id r) (messages w) = false ->
      inv (Store.with_messages (messages w ++ [r]) w);
  inv_update :
    forall w id st,
      inv w ->
      inv (Store.with_messages
             (map (fun r => if message_id r =? id then set_status st r else r)
                  (messages w)) w);
  inv_log :
    forall w l, inv w -> inv (Store.with_logs (webhook_logs w ++ [l]) w)
}.

(** *** Sample data *)

Definition sample_engine : Engine :=
  mkEngine
    (fun v =>
       match v with
       | JStr s => Some (Some s)
       | JNull | JUndefined => Some None
       | _ => None
       end)
    (fun v =>
       match v with
       | JBool b => Some b
       | _ => None
       end).

Definition sample_config : Config :=
  mkConfig (Some "106540352242922") (Some "EAAG-token") (Some "verify-me").

Definition sample_inbound : WebhookRequest :=
  Envelope
    (Some (mkChange (Some "messages")
       (Some (mkValue
          (Some [mkInbound "wamid.IN1" "254700000001" "1699999000" "text"
                           (Some "hello") None None None None])
          None (Some "106540352242922"))))).

(** An empty store, a provider that accepts one send after 250 ms. *)
Definition sample_world : World :=
  mkWorld [] [] 1700000000000 []
    [(250%N, Response true (Data (mkData None (Some "wamid.OUT1"))))] [].

Definition sample_send : SendRoute.Request :=
  SendRoute.Fields (JStr "+254 700 000001") (JStr "hi there") JUndefined.

(** The sample world after the inbound delivery and the reply to it. *)
Definition sample_thread : World :=
  snd (SendRoute.POST sample_engine sample_config sample_send
         (snd (Webhook.POST sample_inbound sample_world))).

(* ================================================================== *)
(** ** Vocabulary of the further properties *)
(* ================================================================== *)

(** From a world where [P] holds, [m] ends, returning or throwing, in a
    world where [Q] holds. *)
Definition takes {A} (P Q : World -> Prop) (m : M A) : Prop :=
  forall w, P w -> Q (snd (m w)).

(** A recipient as the provider is handed it: no plus sign, no white
    space. *)
Definition clean_number (s : string) : Prop :=
  forall c, In c (list_ascii_of_string s) ->
            c <> "+"%char /\ is_space c = false.

(** The identifier a send stores its row under: the provider's, or one
    made from the clock. *)
Definition sent_id (d : ProviderData) (t : Z) : string :=
  or_str (first_message_id d) ("msg_" ++ show_int t).

(** The instants of the human replies to [phone] in the table. *)
Definition human_reply_times (phone : string) (rows : list Row) : list Z :=
  map timestamp (filter (human_reply phone) rows).

(** A row with its status blanked: what a status update leaves alone. *)
Definition without_status (r : Row) : Row := set_status "" r.

(** The status the last update of a batch gives to [id], if any names it. *)
Definition last_status_for (id : string) (statuses : list StatusUpdate)
  : option string :=
  fold_left
    (fun found s => if st_id s =? id then Some (st_status s) else found)
    statuses None.

(** A row after a batch of status updates. *)
Definition apply_statuses (statuses : list StatusUpdate) (r : Row) : Row :=
  match last_status_for (message_id r) statuses with
  | Some st => set_status st r
  | None => r
  end.

(** Largest key first. *)
Definition newest_first {A} (key : A -> Z) (xs : list A) : Prop :=
  StronglySorted (fun a b => key b <= key a) xs.

(** The age, in milliseconds, the last message of a conversation must
    have at [now] to fall under a time filter. *)
Definition in_bucket (now : Z) (filter : Page.FilterType)
    (conv : Page.Conversation) : Prop :=
  let age := now - Page.last_date conv in
  match filter with
  | Page.filter_all => True
  | Page.filter_4h => age <= 4 * 3600000
  | Page.filter_8h => age <= 8 * 3600000
  | Page.filter_24h => age <= 24 * 3600000
  | Page.filter_old => 24 * 3600000 < age
  end.

(** Smallest key first. *)
Definition oldest_first {A} (key : A -> Z) (xs : list A) : Prop :=
  StronglySorted (fun a b => key a <= key b) xs.

(** The messages of a conversation sent by the business. *)
Definition outbound_count (conv : Page.Conversation) : Z :=
  Z.of_nat
    (List.length
       (filter (fun m => FetchRoute.direction m =? "outbound-api")
               (Page.messages conv))).

(** The sum of [f] over a list. *)
Definition total {A} (f : A -> Z) (xs : list A) : Z :=
  fold_right (fun x acc => f x + acc) 0 xs.

(** The row [storeInboundMessage] builds for the message [m] of the
    envelope [c], [ms] being the instant its timestamp names. *)
Definition inbound_row (c : option Change) (m : InboundMessage) (ms : Z)
    (row : Row) : Prop :=
  message_id row = wa_id m /\
  phone_number row = wa_from m /\
  from_number row = wa_from m /\
  to_number row = or_str (Whatsapp.business_number c) "" /\
  direction row = inbound /\
  Table.status row = Some "received" /\
  timestamp row = ms /\
  Table.message_type row = wa_type m /\
  is_ai_response row = false /\
  metadata row = RawWebhook c /\
  (wa_type m = "text" ->
   Table.body row = Some (or_str (wa_text_body m) "")) /\
  (wa_type m <> "text" ->
   exists b, Table.body row = Some b /\ b <> "").

(** The instant a provider timestamp (seconds, in decimal) names. *)
Definition instant_of (ts : string) : option Z :=
  date_of_ms (option_map (fun s => s * 1000) (parseInt ts)).

(** The audit row a delivery starts with. *)
Definition raw_log (c : option Change) : LogRow :=
  mkLog (or_str (Webhook.change_field c) "unknown") (LoggedBody c) false None.

(** The audit row the route writes when processing threw. *)
Definition error_log (msg : string) : LogRow :=
  mkLog "error" (LoggedError msg) false (Some msg).

(** The messages and the status updates of an envelope, as the route
    reads them. *)
Definition envelope_messages (c : option Change)
  : option (list InboundMessage) :=
  match Webhook.change_value c with
  | Some v => v_messages v
  | None => None
  end.

Definition envelope_statuses (c : option Change)
  : option (list StatusUpdate) :=
  match Webhook.change_value c with
  | Some v => v_statuses v
  | None => None
  end.

(* ================================================================== *)
(** ** Reasoning about effectful code *)
(* ================================================================== *)

(** Every value [m] can return satisfies [P]. *)
Definition returns_only {A} (P : A -> Prop) (m : M A) : Prop :=
  forall w a w', m w = (Ok a, w') -> P a.

(** [m] returns, whatever the world. *)
Definition never_throws {A} (m : M A) : Prop :=
  forall w, exists a w', m w = (Ok a, w').

(** [m] leaves [inv] as it found it, returning or throwing. *)
Definition preserves {A} (inv : World -> Prop) (m : M A) : Prop :=
  forall w, inv w -> inv (snd (m w)).

Lemma returns_only_ret {A} (P : A -> Prop) (a : A) :
  P a -> returns_only P (ret a).
Proof. intros H w a' w' E. inversion E; subst; exact H. Qed.

Lemma returns_only_bind {A B} (P : B -> Prop) (m : M A) (k : A -> M B) :
  (forall a, returns_only P (k a)) -> returns_only P (bind m k).
Proof.
  intros H w b w' E. unfold bind in E.
  destruct (m w) as [[a|e] w1]; [eapply H; eassumption | discriminate].
Qed.

Lemma never_throws_ret {A} (a : A) : never_throws (ret a).
Proof. intros w. exists a, w. reflexivity. Qed.

Lemma never_throws_bind {A B} (m : M A) (k : A -> M B) :
  never_throws m -> (forall a, never_throws (k a)) -> never_throws (bind m k).
Proof.
  intros Hm Hk w. destruct (Hm w) as (a & w1 & E).
  destruct (Hk a w1) as (b & w2 & E2).
  exists b, w2. unfold bind. rewrite E. exact E2.
Qed.

Lemma never_throws_try_catch {A} (body : M A) (handler : thrown -> M A) :
  (forall e, never_throws (handler e)) -> never_throws (try_catch body handler).
Proof.
  intros Hh w. unfold try_catch.
  destruct (body w) as [[a|e] w1].
  - exists a, w1. reflexivity.
  - apply Hh.
Qed.

Lemma preserves_ret {A} (inv : World -> Prop) (a : A) : preserves inv (ret a).
Proof. intros w H. exact H. Qed.

Lemma preserves_throw {A} (inv : World -> Prop) (e : thrown) :
  preserves inv (@throw A e).
Proof. intros w H. exact H. Qed.

Lemma preserves_bind {A B} (inv : World -> Prop) (m : M A) (k : A -> M B) :
  preserves inv m -> (forall a, preserves inv (k a)) ->
  preserves inv (bind m k).
Proof.
  intros Hm Hk w H. unfold bind.
  specialize (Hm w H). destruct (m w) as [[a|e] w1]; simpl in *.
  - apply Hk, Hm.
  - exact Hm.
Qed.

Lemma preserves_try_catch {A} (inv : World -> Prop)
    (body : M A) (handler : thrown -> M A) :
  preserves inv body -> (forall e, preserves inv (handler e)) ->
  preserves inv (try_catch body handler).
Proof.
  intros Hb Hh w H. unfold try_catch.
  specialize (Hb w H). destruct (body w) as [[a|e] w1]; simpl in *.
  - exact Hb.
  - apply Hh, Hb.
Qed.

Lemma preserves_for_each {A} (inv : World -> Prop)
    (xs : list A) (f : A -> M unit) :
  (forall x, preserves inv (f x)) -> preserves inv (for_each xs f).
Proof.
  intros Hf. induction xs as [|x r IH]; simpl.
  - apply preserves_ret.
  - apply preserves_bind; [apply Hf | intros _; exact IH].
Qed.

Lemma preserves_now (inv : World -> Prop) : preserves inv now.
Proof. intros w H. exact H. Qed.

(* ================================================================== *)
(** ** The webhook route *)
(* ================================================================== *)

Lemma strict_eq_true (a b : option string) :
  Webhook.strict_eq a b = true <-> exists s, a = Some s /\ b = Some s.
Proof.
  destruct a as [x|], b as [y|]; simpl; split;
    try discriminate; try (intros (s & H1 & H2); discriminate).
  - intros H. apply String.eqb_eq in H. subst. eauto.
  - intros (s & H1 & H2). inversion H1; inversion H2; subst.
    apply String.eqb_refl.
Qed.

(** C8.  The verification handshake answers 200 exactly when [hub.mode] is
    "subscribe" and [hub.verify_token] is the configured token, its body
    being then the challenge; it answers 403 in every other case; and it
    leaves the world, the store included, as it found it. *)
Theorem webhook_verification_handshake
    (cfg : Config) (mode token challenge : option string) (w : World) :
  exists r,
    Webhook.GET cfg mode token challenge w = (Ok r, w) /\
    (http_status r = 200 <->
       mode = Some "subscribe" /\
       exists t, token = Some t /\ WEBHOOK_VERIFY_TOKEN cfg = Some t) /\
    (http_status r = 200 -> http_body r = challenge) /\
    (http_status r <> 200 -> http_status r = 403).
Proof.
  unfold Webhook.GET, try_catch.
  destruct (Webhook.strict_eq mode (Some "subscribe")) eqn:Hm;
    destruct (Webhook.strict_eq token (WEBHOOK_VERIFY_TOKEN cfg)) eqn:Ht;
    simpl; eexists; (split; [reflexivity|]); simpl.
  - apply strict_eq_true in Hm, Ht.
    destruct Hm as (s & -> & Hs). inversion Hs; subst.
    destruct Ht as (t & -> & Hc).
    repeat split; eauto; congruence.
  - repeat split; try discriminate; try reflexivity.
    intros (_ & t & H1 & H2).
    assert (Webhook.strict_eq token (WEBHOOK_VERIFY_TOKEN cfg) = true)
      by (apply strict_eq_true; eauto).
    congruence.
  - repeat split; try discriminate; try reflexivity.
    intros (H1 & _).
    assert (Webhook.strict_eq mode (Some "subscribe") = true)
      by (apply strict_eq_true; eauto).
    congruence.
  - repeat split; try discriminate; try reflexivity.
    intros (H1 & _).
    assert (Webhook.strict_eq mode (Some "subscribe") = true)
      by (apply strict_eq_true; eauto).
    congruence.
Qed.

(** C5.  Every webhook delivery is answered 200, with body "ok" or
    "error": an unparsable or null body, a throwing parser or store, and a
    failure to log the failure all end there. *)
Theorem webhook_delivery_always_acknowledged
    (request : WebhookRequest) (w : World) :
  exists r w',
    Webhook.POST request w = (Ok r, w') /\
    http_status r = 200 /\
    (http_body r = "ok" \/ http_body r = "error").
Proof.
  unfold Webhook.POST.
  match goal with
  | |- context [try_catch ?b ?h] => set (body := b); set (handler := h)
  end.
  assert (Hbody : returns_only
            (fun r : Http string => http_status r = 200 /\ http_body r = "ok")
            body).
  { unfold body.
    repeat (apply returns_only_bind; intros).
    apply returns_only_ret. split; reflexivity. }
  assert (Hhandler : forall e, returns_only
            (fun r : Http string => http_status r = 200 /\ http_body r = "error")
            (handler e)).
  { intros e. unfold handler.
    apply returns_only_bind; intros.
    apply returns_only_ret. split; reflexivity. }
  assert (Hnever : forall e, never_throws (handler e)).
  { intros e. unfold handler.
    apply never_throws_bind; [|intros; apply never_throws_ret].
    apply never_throws_try_catch. intros; apply never_throws_ret. }
  unfold try_catch.
  destruct (body w) as [[r|e] w1] eqn:E.
  - exists r, w1. split; [reflexivity|].
    destruct (Hbody _ _ _ E) as [H1 H2]. auto.
  - destruct (Hnever e w1) as (r & w2 & E2).
    exists r, w2. split; [exact E2|].
    destruct (Hhandler e _ _ _ E2) as [H1 H2]. auto.
Qed.

(* ================================================================== *)
(** ** The send route *)
(* ================================================================== *)

(** C6.  A send request whose [to] or whose [body] is empty (absent, null,
    the empty string, or any other falsy value) is answered 400 with a
    message naming the missing fields; the world is left as it was: no row
    is written and the provider is not called. *)
Theorem send_with_empty_field_is_rejected
    (E : Engine) (cfg : Config) (to body isAiResponse : jsval) (w : World) :
  truthy to = false \/ truthy body = false ->
  SendRoute.POST E cfg (SendRoute.Fields to body isAiResponse) w
  = (Ok (mkHttp 400 (SendRoute.Failure "Missing required fields: to, body")),
     w).
Proof.
  intros H. unfold SendRoute.POST, try_catch, bind; simpl.
  destruct H as [-> | ->]; simpl; [reflexivity|].
  rewrite orb_true_r. reflexivity.
Qed.

Lemma send_with_empty_field_is_rejected_witness :
  SendRoute.POST sample_engine sample_config
    (SendRoute.Fields (JStr "254700000001") (JStr "") JUndefined) sample_world
  = (Ok (mkHttp 400 (SendRoute.Failure "Missing required fields: to, body")),
     sample_world).
Proof.
  apply send_with_empty_field_is_rejected. right. reflexivity.
Defined.

(** Whatever way [sendWhatsAppMessage] ends, either table [messages] is as
    it was, or the call returned and left one new outbound row, last in the
    table, whose flag is the engine's reading of the argument. *)
Lemma sendWhatsAppMessage_rows
    (E : Engine) (cfg : Config) (to body isAiResponse : jsval)
    (w w' : World) (res : result ProviderData) :
  Whatsapp.sendWhatsAppMessage E cfg to body isAiResponse w = (res, w') ->
  messages w' = messages w \/
  exists d row,
    res = Ok d /\
    messages w' = (messages w ++ [row])%list /\
    direction row = outbound /\
    Table.status row = Some "sent" /\
    bool_column E (Whatsapp.defaulted isAiResponse) = Some (is_ai_response row)
    /\ Whatsapp.clean_to to w = (Ok (phone_number row), w).
Proof.
  unfold Whatsapp.sendWhatsAppMessage.
  destruct (Whatsapp.missing _ || Whatsapp.missing _).
  { intros H; inversion H; auto. }
  unfold bind at 1.
  destruct (Whatsapp.clean_to to w) as [[cleanTo|e] w1] eqn:Hc.
  2:{ intros H; inversion H; subst.
      destruct to; inversion Hc; auto. }
  assert (w1 = w) by (destruct to; inversion Hc; auto). subst w1.
  unfold bind at 1.
  destruct (fetch_provider cleanTo body w) as [[[ok raw]|e] w2] eqn:Hf.
  2:{ intros H; inversion H; subst. left.
      unfold fetch_provider in Hf.
      destruct (provider_script w) as [|[d o] rest];
        [|destruct o]; inversion Hf; reflexivity. }
  assert (Hm2 : messages w2 = messages w).
  { unfold fetch_provider in Hf.
    destruct (provider_script w) as [|[d o] rest];
      [|destruct o]; inversion Hf; reflexivity. }
  unfold bind at 1.
  destruct raw as [msg| |d]; simpl.
  { intros H; inversion H; subst; auto. }
  { destruct ok; simpl; unfold bind; simpl;
      intros H; inversion H; subst; auto. }
  destruct ok; simpl.
  2:{ unfold bind; simpl. intros H; inversion H; subst; auto. }
  unfold bind; simpl.
  unfold Store.insert_message, Store.run, bind, Store.call.
  destruct (store_script w2) as [|[dl o] rest]; simpl.
  - destruct (text_column E body) as [b|];
      destruct (bool_column E (Whatsapp.defaulted isAiResponse)) as [ai|] eqn:Hai;
      simpl; try (intros H; inversion H; subst; auto; fail).
    destruct (Store.has_id _ (messages w2)); simpl;
      intros H; inversion H; subst; simpl; auto.
    right. rewrite Hm2. do 2 eexists. repeat split; reflexivity.
  - destruct o; simpl; try (intros H; inversion H; subst; auto; fail).
    destruct (text_column E body) as [b|];
      destruct (bool_column E (Whatsapp.defaulted isAiResponse)) as [ai|] eqn:Hai;
      simpl; try (intros H; inversion H; subst; auto; fail).
    destruct (Store.has_id _ (messages w2)); simpl;
      intros H; inversion H; subst; simpl; auto.
    right. rewrite Hm2. do 2 eexists. repeat split; reflexivity.
Qed.

(** C7.  When the provider answers a send with a non-success status,
    [sendWhatsAppMessage] throws an error whose message is the provider's
    own when the answer holds one; table [messages] is as it was; and the
    send route answers 500 with that same message. *)
Theorem provider_failure_is_surfaced
    (E : Engine) (cfg : Config) (to : string) (body isAiResponse : jsval)
    (w : World) (delay : N) (answer : ProviderBody)
    (rest : list (N * FetchOutcome)) :
  Whatsapp.missing (WHATSAPP_PHONE_NUMBER_ID cfg) = false ->
  Whatsapp.missing (WHATSAPP_ACCESS_TOKEN cfg) = false ->
  provider_script w = (delay, Response false answer) :: rest ->
  exists msg w',
    Whatsapp.sendWhatsAppMessage E cfg (JStr to) body isAiResponse w
      = (Throw (JsError msg), w') /\
    messages w' = messages w /\
    (forall d, answer = Data d ->
       msg = or_str (error_message d) "Failed to send message") /\
    (forall d m, answer = Data d -> error_message d = Some m -> m <> "" ->
       msg = m) /\
    (to <> "" -> truthy body = true ->
     exists w'',
       SendRoute.POST E cfg (SendRoute.Fields (JStr to) body isAiResponse) w
         = (Ok (mkHttp 500 (SendRoute.Failure msg)), w'') /\
       messages w'' = messages w).
Proof.
  intros Hid Htok Hscript.
  assert (Hsend : forall ai, exists msg,
    Whatsapp.sendWhatsAppMessage E cfg (JStr to) body ai w
      = (Throw (JsError msg),
         mkWorld (messages w) (webhook_logs w) (clock w + Z.of_N delay)
                 (store_script w) rest
                 (provider_calls w
                    ++ [(strip_spaces (strip_plus to), body)])%list) /\
    msg = match answer with
          | BadBody m => m
          | NullData => "Cannot read properties of null (reading 'error')"
          | Data d => or_str (error_message d) "Failed to send message"
          end).
  { intros ai. unfold Whatsapp.sendWhatsAppMessage.
    rewrite Hid, Htok. simpl.
    unfold bind at 1. simpl.
    unfold bind at 1. unfold fetch_provider. rewrite Hscript.
    destruct answer as [m| |d]; simpl; eexists; split; reflexivity. }
  destruct (Hsend isAiResponse) as (msg & Hthrow & Hmsg).
  exists msg. eexists. split; [exact Hthrow|].
  split; [reflexivity|].
  split; [intros d ->; exact Hmsg|].
  split.
  - intros d m -> Hem Hne. rewrite Hmsg, Hem. simpl.
    destruct (m =? "") eqn:Em; [apply String.eqb_eq in Em; contradiction|].
    reflexivity.
  - intros Hto Hbody.
    destruct (Hsend (Js.or isAiResponse (JBool false)))
      as (msg' & Hthrow' & Hmsg').
    assert (msg' = msg) by congruence. subst msg'.
    assert (Hguard : negb (truthy (JStr to)) || negb (truthy body) = false).
    { rewrite Hbody. simpl.
      destruct (to =? "") eqn:Eto; [|reflexivity].
      apply String.eqb_eq in Eto; contradiction. }
    eexists. split.
    + unfold SendRoute.POST, try_catch, bind, SendRoute.request_json, ret.
      rewrite Hguard, Hthrow'. cbn [message_or].
      rewrite <- Hmsg. reflexivity.
    + reflexivity.
Qed.

Lemma provider_failure_is_surfaced_witness :
  exists msg w',
    Whatsapp.sendWhatsAppMessage sample_engine sample_config
      (JStr "254700000001") (JStr "hi") JUndefined
      (mkWorld [] [] 0 []
         [(40%N, Response false
                   (Data (mkData (Some "Recipient not allowed") None)))] [])
      = (Throw (JsError msg), w') /\
    msg = "Recipient not allowed".
Proof.
  destruct (provider_failure_is_surfaced sample_engine sample_config
              "254700000001" (JStr "hi") JUndefined
              (mkWorld [] [] 0 []
                 [(40%N, Response false
                    (Data (mkData (Some "Recipient not allowed") None)))] [])
              40%N (Data (mkData (Some "Recipient not allowed") None)) []
              eq_refl eq_refl eq_refl)
    as (msg & w' & H1 & _ & H3 & _).
  exists msg, w'. split; [exact H1|].
  exact (H3 _ eq_refl).
Defined.

(* ================================================================== *)
(** ** The human-activity gate *)
(* ================================================================== *)

(** The gate on a store that does not run its query. *)
Lemma check_human_store_down (phone : option string) (w : World) :
  next_store_outcome w <> Healthy ->
  exists r w',
    CheckHuman.GET phone w = (Ok r, w') /\
    CheckHuman.human_active (http_body r) = false /\
    http_status r <> 200.
Proof.
  intros Hdown. unfold CheckHuman.GET, try_catch.
  destruct phone as [p|]; [destruct (p =? "") eqn:Ep|].
  - do 2 eexists. simpl. repeat split; discriminate.
  - unfold next_store_outcome in Hdown.
    unfold bind at 1. simpl.
    unfold bind at 1, Store.select, Store.run, bind at 1, Store.call.
    destruct (store_script w) as [|[d o] rest]; [contradiction|].
    destruct o as [|msg|e]; [contradiction| |]; simpl;
      do 2 eexists; repeat split; discriminate.
  - do 2 eexists. simpl. repeat split; discriminate.
Qed.

(** C9.  When the store answers the gate's query with an error, or the
    query throws, the route still answers, with an error status and
    [humanActive] false: an error path never reports an active human. *)
Theorem check_human_fails_closed (phone : option string) (w : World) :
  next_store_outcome w <> Healthy ->
  exists r w',
    CheckHuman.GET phone w = (Ok r, w') /\
    CheckHuman.human_active (http_body r) = false /\
    http_status r <> 200.
Proof. apply check_human_store_down. Qed.

Lemma check_human_fails_closed_witness :
  exists r w',
    CheckHuman.GET (Some "254700000001")
      (mkWorld (messages sample_thread) [] 1700003600250
               [(30000%N, ErrorResult "connection refused")] [] [])
      = (Ok r, w') /\
    CheckHuman.human_active (http_body r) = false /\
    http_status r <> 200.
Proof.
  apply check_human_fails_closed. simpl. discriminate.
Defined.

(* ================================================================== *)
(** ** Idempotent ingestion *)
(* ================================================================== *)

Section StoreInvariants.

Variable inv : World -> Prop.
Hypothesis Hinv : store_invariant inv.

Lemma preserves_call : preserves inv Store.call.
Proof.
  intros w H. unfold Store.call.
  destruct (store_script w) as [|[d o] rest] eqn:E; simpl; [exact H|].
  eapply inv_call; eassumption.
Qed.

Lemma preserves_run {A} (stmt : M (Store.Reply A)) :
  preserves inv stmt -> preserves inv (Store.run stmt).
Proof.
  intros Hs. unfold Store.run.
  apply preserves_bind; [apply preserves_call|].
  intros [|msg|e]; [exact Hs | apply preserves_ret | apply preserves_throw].
Qed.

Lemma preserves_insert_message (row : option Row) :
  preserves inv (Store.insert_message row).
Proof.
  apply preserves_run. intros w H.
  destruct row as [r|]; simpl; [|exact H].
  destruct (Store.has_id (message_id r) (messages w)) eqn:E; simpl;
    [exact H|].
  apply inv_insert; assumption.
Qed.

Lemma preserves_update_status (id st : string) :
  preserves inv (Store.update_status id st).
Proof.
  apply preserves_run. intros w H. simpl. apply inv_update; assumption.
Qed.

Lemma preserves_insert_log (l : LogRow) : preserves inv (Store.insert_log l).
Proof.
  apply preserves_run. intros w H. simpl. apply inv_log; assumption.
Qed.

Lemma preserves_storeInboundMessage (c : option Change) :
  preserves inv (Whatsapp.storeInboundMessage c).
Proof.
  unfold Whatsapp.storeInboundMessage.
  destruct (Whatsapp.first_message c) as [m|]; [|apply preserves_ret].
  apply preserves_bind.
  - unfold Whatsapp.iso_of_seconds.
    destruct (date_of_ms _); [apply preserves_ret | apply preserves_throw].
  - intros ts.
    repeat match goal with
           | |- context [if ?b then _ else _] => destruct b
           end;
      (apply preserves_bind;
       [apply preserves_insert_message | intros; apply preserves_ret]).
Qed.

Lemma preserves_webhook_POST (request : WebhookRequest) :
  preserves inv (Webhook.POST request).
Proof.
  unfold Webhook.POST. apply preserves_try_catch.
  - apply preserves_bind.
    { destruct request; [apply preserves_throw | apply preserves_ret ..]. }
    intros body. apply preserves_bind.
    { destruct body; [apply preserves_ret | apply preserves_throw]. }
    intros change. apply preserves_bind; [apply preserves_insert_log|].
    intros _. apply preserves_bind; [|intros; apply preserves_ret].
    destruct (Webhook.non_empty _).
    + apply preserves_bind; [apply preserves_storeInboundMessage|].
      intros [row|]; [|apply preserves_ret].
      apply preserves_bind; [apply preserves_insert_log|].
      intros; apply preserves_ret.
    + destruct (Webhook.non_empty _); [|apply preserves_ret].
      apply preserves_bind.
      * apply preserves_for_each. intros st.
        apply preserves_bind; [apply preserves_update_status|].
        intros; apply preserves_ret.
      * intros _. apply preserves_bind; [apply preserves_insert_log|].
        intros; apply preserves_ret.
  - intros e. apply preserves_bind; [|intros; apply preserves_ret].
    apply preserves_try_catch; [|intros; apply preserves_ret].
    apply preserves_bind; [apply preserves_insert_log|].
    intros; apply preserves_ret.
Qed.

Lemma preserves_deliver_all (requests : list WebhookRequest) (w : World) :
  inv w -> inv (deliver_all requests w).
Proof.
  revert w. induction requests as [|r rest IH]; intros w H; simpl.
  - exact H.
  - apply IH, preserves_webhook_POST, H.
Qed.

End StoreInvariants.

Lemma has_id_In (id : string) (rows : list Row) :
  Store.has_id id rows = true <-> In id (map message_id rows).
Proof.
  unfold Store.has_id. rewrite existsb_exists, in_map_iff. split.
  - intros (r & Hin & E). apply String.eqb_eq in E. eauto.
  - intros (r & E & Hin). exists r. split; [exact Hin|].
    apply String.eqb_eq. exact E.
Qed.

Lemma has_id_app (id : string) (rows more : list Row) :
  Store.has_id id (rows ++ more)
  = Store.has_id id rows || Store.has_id id more.
Proof. unfold Store.has_id. apply existsb_app. Qed.

Lemma ids_after_update (id st : string) (rows : list Row) :
  map message_id
    (map (fun r => if message_id r =? id then set_status st r else r) rows)
  = map message_id rows.
Proof.
  rewrite map_map. apply map_ext. intros r.
  destruct (message_id r =? id); reflexivity.
Qed.

Lemma unique_ids_invariant :
  store_invariant (fun w => unique_ids (messages w)).
Proof.
  constructor; simpl; intros.
  - assumption.
  - unfold unique_ids in *. rewrite map_app. simpl.
    apply NoDup_app; [assumption | constructor; [intros []|constructor] |].
    intros x Hin [<-|[]].
    apply has_id_In in Hin. congruence.
  - unfold unique_ids in *. rewrite ids_after_update. assumption.
  - assumption.
Qed.

Lemma has_id_invariant (id : string) :
  store_invariant (fun w => Store.has_id id (messages w) = true).
Proof.
  constructor; simpl; intros.
  - assumption.
  - rewrite has_id_app. apply orb_true_iff. left. assumption.
  - apply has_id_In. rewrite ids_after_update. apply has_id_In. assumption.
  - assumption.
Qed.

Lemma store_up_invariant : store_invariant store_up.
Proof.
  constructor; unfold store_up; simpl; intros; try assumption.
  match goal with
  | H : store_script _ = _, H' : Forall _ _ |- _ =>
      rewrite H in H'; inversion H'; assumption
  end.
Qed.

Lemma count_id_unique (id : string) (rows : list Row) :
  unique_ids rows -> (count_id id rows <= 1)%nat.
Proof.
  unfold unique_ids, count_id.
  induction rows as [|r rest IH]; simpl; intros H; [lia|].
  inversion H as [|x l Hnotin Hnodup]; subst.
  destruct (message_id r =? id) eqn:E; simpl; [|auto].
  apply String.eqb_eq in E. subst id.
  assert (Hzero : filter (fun r0 => message_id r0 =? message_id r) rest = []).
  { destruct (filter _ rest) as [|y ys] eqn:F; [reflexivity|].
    exfalso. apply Hnotin.
    assert (Hy : In y (filter (fun r0 => message_id r0 =? message_id r) rest))
      by (rewrite F; left; reflexivity).
    apply filter_In in Hy. destruct Hy as [Hin Heq].
    apply String.eqb_eq in Heq. rewrite <- Heq.
    apply in_map. exact Hin. }
  rewrite Hzero. simpl. lia.
Qed.

Lemma count_id_present (id : string) (rows : list Row) :
  Store.has_id id rows = true -> (1 <= count_id id rows)%nat.
Proof.
  unfold Store.has_id, count_id.
  induction rows as [|r rest IH]; simpl; [discriminate|].
  destruct (message_id r =? id); simpl; [lia|exact IH].
Qed.

(** On a store that is up, an awaited call runs its statement, whatever
    time that takes. *)
Lemma run_on_store_up {A} (stmt : M (Store.Reply A)) (w : World) :
  store_up w ->
  exists w1,
    Store.run stmt w = stmt w1 /\
    messages w1 = messages w /\
    store_up w1.
Proof.
  intros Hup. unfold Store.run, bind, Store.call.
  destruct (store_script w) as [|[d o] rest] eqn:E.
  - exists w. auto.
  - pose proof Hup as Hup'. unfold store_up in Hup'. rewrite E in Hup'.
    inversion Hup' as [|x l Ho Hrest]; subst. simpl in Ho. subst o.
    eexists. split; [reflexivity|]. split; [reflexivity|].
    unfold store_up. simpl. exact Hrest.
Qed.

Lemma insert_log_on_store_up (l : LogRow) (w : World) :
  store_up w ->
  exists reply w1,
    Store.insert_log l w = (Ok reply, w1) /\
    messages w1 = messages w /\
    store_up w1.
Proof.
  intros Hup. unfold Store.insert_log.
  destruct (run_on_store_up
              (fun w0 => (Ok (Store.mkReply (@None (list LogRow)) None),
                          Store.with_logs (webhook_logs w0 ++ [l]) w0))
              w Hup) as (w1 & Hrun & Hrows & Hup1).
  rewrite Hrun. do 2 eexists. split; [reflexivity|].
  split; [exact Hrows | exact Hup1].
Qed.

Lemma storeInboundMessage_on_store_up
    (c : option Change) (m : InboundMessage) (w : World) :
  store_up w ->
  Whatsapp.first_message c = Some m ->
  date_of_ms (option_map (fun s => s * 1000) (parseInt (wa_timestamp m)))
    <> None ->
  exists stored w1,
    Whatsapp.storeInboundMessage c w = (Ok stored, w1) /\
    Store.has_id (wa_id m) (messages w1) = true.
Proof.
  intros Hup Hfirst Hdate.
  unfold Whatsapp.storeInboundMessage. rewrite Hfirst.
  unfold Whatsapp.iso_of_seconds.
  destruct (date_of_ms _) as [ms|]; [|contradiction].
  unfold bind at 1. simpl.
  repeat match goal with
         | |- context [if ?b then _ else _] => destruct b
         end;
    unfold bind, Store.insert_message;
    match goal with
    | |- context [Store.run ?s w] =>
        destruct (run_on_store_up s w Hup) as (w1 & -> & Hrows & _)
    end;
    simpl;
    match goal with
    | |- context [if Store.has_id ?i ?rows then _ else _] =>
        destruct (Store.has_id i rows) eqn:Ehas
    end;
    simpl; do 2 eexists; (split; [reflexivity|]); simpl;
    try exact Ehas;
    rewrite has_id_app; simpl; rewrite String.eqb_refl;
    apply orb_true_iff; right; reflexivity.
Qed.

(** On a store that is up, a delivery of the event [id] leaves a row with
    that identifier in table [messages]. *)
Lemma delivery_is_stored (id : string) (request : WebhookRequest) (w : World) :
  store_up w -> delivers id request ->
  Store.has_id id (messages (snd (Webhook.POST request w))) = true.
Proof.
  intros Hup (c & m & -> & Hfirst & <- & Hdate).
  assert (Hne : Webhook.non_empty
                  (match Webhook.change_value c with
                   | Some v => v_messages v
                   | None => None
                   end) = true).
  { destruct c as [ch|]; [|discriminate].
    simpl in *. destruct (value ch) as [v|]; [|discriminate].
    destruct (v_messages v) as [[|m' l]|]; try discriminate. reflexivity. }
  unfold Webhook.POST.
  match goal with
  | |- context [try_catch _ ?h] => set (handler := h)
  end.
  unfold try_catch, bind at 1. simpl.
  unfold bind at 1. simpl.
  unfold bind at 1.
  destruct (insert_log_on_store_up
              (mkLog (or_str (Webhook.change_field c) "unknown")
                     (LoggedBody c) false None) w Hup)
    as (reply & w1 & -> & Hrows1 & Hup1).
  rewrite Hne.
  unfold bind at 1. unfold bind at 1.
  destruct (storeInboundMessage_on_store_up c m w1 Hup1 Hfirst Hdate)
    as (stored & w2 & -> & Hhas).
  set (continue :=
         match stored with
         | Some _ =>
             Store.insert_log
               (mkLog "message_received" (LoggedBody c) true None) ;;; ret tt
         | None => ret tt
         end).
  assert (Hcont : preserves
                    (fun w0 => Store.has_id (wa_id m) (messages w0) = true)
                    continue).
  { unfold continue. destruct stored; [|apply preserves_ret].
    apply preserves_bind;
      [apply preserves_insert_log, has_id_invariant
      | intros; apply preserves_ret]. }
  specialize (Hcont w2 Hhas).
  destruct (continue w2) as [[u|e] w3]; simpl in *.
  - exact Hcont.
  - assert (Hh : preserves
                   (fun w0 => Store.has_id (wa_id m) (messages w0) = true)
                   (handler e)).
    { unfold handler.
      apply preserves_bind; [|intros; apply preserves_ret].
      apply preserves_try_catch; [|intros; apply preserves_ret].
      apply preserves_bind;
        [apply preserves_insert_log, has_id_invariant
        | intros; apply preserves_ret]. }
    apply Hh, Hcont.
Qed.

(** C2.  Starting from a table that respects the uniqueness of
    [message_id], after any sequence of webhook deliveries of one inbound
    event the table holds at most one row with that identifier, whatever
    the store did in between; and exactly one when the store was up. *)
Theorem redelivery_leaves_one_row
    (id : string) (first : WebhookRequest) (again : list WebhookRequest)
    (w : World) :
  unique_ids (messages w) ->
  Forall (delivers id) (first :: again) ->
  (count_id id (messages (deliver_all (first :: again) w)) <= 1)%nat /\
  (store_up w ->
   count_id id (messages (deliver_all (first :: again) w)) = 1%nat).
Proof.
  intros Huniq Hall.
  assert (Hle : (count_id id (messages (deliver_all (first :: again) w)) <= 1)%nat).
  { apply count_id_unique.
    apply (preserves_deliver_all _ unique_ids_invariant). exact Huniq. }
  split; [exact Hle|].
  intros Hup.
  assert (Hge : (1 <= count_id id (messages (deliver_all (first :: again) w)))%nat).
  { apply count_id_present. simpl.
    apply (preserves_deliver_all _ (has_id_invariant id)).
    apply delivery_is_stored; [exact Hup|].
    inversion Hall; assumption. }
  lia.
Qed.

Lemma redelivery_leaves_one_row_witness :
  count_id "wamid.IN1"
    (messages (deliver_all [sample_inbound; sample_inbound; sample_inbound]
                 sample_world)) = 1%nat.
Proof.
  assert (Hd : delivers "wamid.IN1" sample_inbound).
  { unfold delivers, sample_inbound. do 2 eexists.
    split; [reflexivity|]. split; [reflexivity|]. split; [reflexivity|].
    vm_compute. discriminate. }
  apply (redelivery_leaves_one_row "wamid.IN1" sample_inbound
           [sample_inbound; sample_inbound] sample_world).
  - constructor.
  - repeat constructor; exact Hd.
  - constructor.
Defined.

(* ================================================================== *)
(** ** Arithmetic on doubles *)
(* ================================================================== *)

Lemma pow2_pos (e : Z) : (0 < 2 ^ e)%Q.
Proof. apply Qpower_0_lt. reflexivity. Qed.

Lemma pow2_le (a b : Z) : a <= b -> (2 ^ a <= 2 ^ b)%Q.
Proof. intros H. apply Qpower_le_compat_l; [exact H | discriminate]. Qed.

Lemma pow2_plus (a b : Z) : (2 ^ (a + b) == 2 ^ a * 2 ^ b)%Q.
Proof. apply Qpower_plus. discriminate. Qed.

Lemma pow2_Z (n : Z) : 0 <= n -> (inject_Z (2 ^ n) == 2 ^ n)%Q.
Proof. intros H. apply (Zpower_Qpower 2 n H). Qed.

Lemma Q_as_fraction (x : Q) :
  (x * inject_Z (Z.pos (Qden x)) == inject_Z (Qnum x))%Q.
Proof.
  destruct x as [p q]. unfold Qeq, Qmult, inject_Z. cbn [Qnum Qden]. lia.
Qed.

(** [ilog2 x] is the binade of [x]. *)
Lemma ilog2_spec (x : Q) :
  (0 < x)%Q -> (2 ^ ilog2 x <= x)%Q /\ (x < 2 ^ (ilog2 x + 1))%Q.
Proof.
  intros Hx.
  assert (Hp : 0 < Qnum x).
  { destruct x as [p q]. unfold Qlt in Hx. cbn in Hx |- *. lia. }
  pose proof (Z.log2_spec _ Hp) as [Hp1 Hp2].
  pose proof (Z.log2_spec (Z.pos (Qden x)) ltac:(lia)) as [Hq1 Hq2].
  pose proof (Z.log2_nonneg (Qnum x)) as Hlp.
  pose proof (Z.log2_nonneg (Z.pos (Qden x))) as Hlq.
  set (lp := Z.log2 (Qnum x)) in *. set (lq := Z.log2 (Z.pos (Qden x))) in *.
  pose proof (Q_as_fraction x) as Hfrac.
  set (P := inject_Z (Qnum x)) in *.
  set (D := inject_Z (Z.pos (Qden x))) in *.
  assert (HP1 : (2 ^ lp <= P)%Q).
  { rewrite <- pow2_Z by lia. unfold P. rewrite <- Zle_Qle. exact Hp1. }
  assert (HP2 : (P < 2 ^ (lp + 1))%Q).
  { rewrite <- pow2_Z by lia. unfold P. rewrite <- Zlt_Qlt.
    replace (lp + 1) with (Z.succ lp) by lia. exact Hp2. }
  assert (HD1 : (2 ^ lq <= D)%Q).
  { rewrite <- pow2_Z by lia. unfold D. rewrite <- Zle_Qle. exact Hq1. }
  assert (HD2 : (D < 2 ^ (lq + 1))%Q).
  { rewrite <- pow2_Z by lia. unfold D. rewrite <- Zlt_Qlt.
    replace (lq + 1) with (Z.succ lq) by lia. exact Hq2. }
  assert (Hup : (x < 2 ^ (lp - lq + 1))%Q).
  { assert (E : (2 ^ (lp + 1) == 2 ^ (lp - lq + 1) * 2 ^ lq)%Q).
    { rewrite <- pow2_plus. replace (lp - lq + 1 + lq) with (lp + 1) by lia.
      reflexivity. }
    pose proof (pow2_pos lq). pose proof (pow2_pos (lp - lq + 1)).
    set (A := (2 ^ (lp + 1))%Q) in *. set (B := (2 ^ lq)%Q) in *.
    set (C := (2 ^ (lp - lq + 1))%Q) in *.
    nra. }
  assert (Hlo : (2 ^ (lp - lq - 1) <= x)%Q).
  { assert (E : (2 ^ lp == 2 ^ (lp - lq - 1) * 2 ^ (lq + 1))%Q).
    { rewrite <- pow2_plus. replace (lp - lq - 1 + (lq + 1)) with lp by lia.
      reflexivity. }
    pose proof (pow2_pos (lq + 1)). pose proof (pow2_pos (lp - lq - 1)).
    set (A := (2 ^ lp)%Q) in *. set (B := (2 ^ (lq + 1))%Q) in *.
    set (C := (2 ^ (lp - lq - 1))%Q) in *.
    nra. }
  unfold ilog2. fold lp lq.
  destruct (Qle_bool (2 ^ (lp - lq)) x) eqn:E.
  - apply Qle_bool_iff in E. split; assumption.
  - split; [exact Hlo|].
    replace (lp - lq - 1 + 1) with (lp - lq) by lia.
    apply Qnot_le_lt. intros H. apply Qle_bool_iff in H. congruence.
Qed.

Lemma ilog2_le (x y : Q) : (0 < x)%Q -> (x <= y)%Q -> ilog2 x <= ilog2 y.
Proof.
  intros Hx Hxy.
  destruct (ilog2_spec x Hx) as [Hx1 _].
  destruct (ilog2_spec y) as [_ Hy2]; [lra|].
  destruct (Z_le_gt_dec (ilog2 x) (ilog2 y)) as [H|H]; [exact H|].
  exfalso. pose proof (pow2_le (ilog2 y + 1) (ilog2 x) ltac:(lia)). lra.
Qed.

Lemma round_even_bounds (t : Q) :
  Qfloor t <= round_even t <= Qfloor t + 1.
Proof.
  unfold round_even.
  destruct (Qcompare (t - inject_Z (Qfloor t)) (1 # 2));
    [destruct (Z.even (Qfloor t))|..]; lia.
Qed.

Lemma round_even_le (t s : Q) : (t <= s)%Q -> round_even t <= round_even s.
Proof.
  intros H.
  pose proof (Qfloor_resp_le _ _ H) as Hf.
  pose proof (round_even_bounds t) as Ht.
  pose proof (round_even_bounds s) as Hs.
  destruct (Z_lt_le_dec (Qfloor t) (Qfloor s)) as [Hlt|Hge]; [lia|].
  assert (E : Qfloor s = Qfloor t) by lia.
  unfold round_even in *. rewrite E in *.
  destruct (Qcompare (t - inject_Z (Qfloor t)) (1 # 2)) eqn:Ct;
    destruct (Qcompare (s - inject_Z (Qfloor t)) (1 # 2)) eqn:Cs;
    try (destruct (Z.even (Qfloor t))); try lia;
    first [apply Qeq_alt in Ct | apply Qlt_alt in Ct | apply Qgt_alt in Ct];
    first [apply Qeq_alt in Cs | apply Qlt_alt in Cs | apply Qgt_alt in Cs];
    exfalso; lra.
Qed.

Lemma round_even_Z (n : Z) : round_even (inject_Z n) = n.
Proof.
  unfold round_even. rewrite Qfloor_Z.
  destruct (Qcompare (inject_Z n - inject_Z n) (1 # 2)) eqn:C;
    [apply Qeq_alt in C; exfalso; lra | reflexivity
    | apply Qgt_alt in C; exfalso; lra].
Qed.

(** A positive number and the double nearest to it lie in the same
    binade. *)
Lemma double_abs_binade (a : Q) :
  (0 < a)%Q ->
  (2 ^ ilog2 a <= double_abs a)%Q /\ (double_abs a <= 2 ^ (ilog2 a + 1))%Q.
Proof.
  intros Ha.
  destruct (ilog2_spec a Ha) as [Hlo Hhi].
  unfold double_abs.
  destruct (Qle_bool a 0) eqn:E; [apply Qle_bool_iff in E; lra|].
  cbv zeta. set (e := ilog2 a) in *.
  pose proof (pow2_pos (e - 52)) as Hu.
  assert (E1 : (2 ^ e == inject_Z (2 ^ 52) * 2 ^ (e - 52))%Q).
  { rewrite pow2_Z by lia. rewrite <- pow2_plus.
    replace (52 + (e - 52)) with e by lia. reflexivity. }
  assert (E2 : (2 ^ (e + 1) == inject_Z (2 ^ 53) * 2 ^ (e - 52))%Q).
  { rewrite pow2_Z by lia. rewrite <- pow2_plus.
    replace (53 + (e - 52)) with (e + 1) by lia. reflexivity. }
  set (u := (2 ^ (e - 52))%Q) in *.
  assert (Hdiv : (a / u * u == a)%Q) by (field; lra).
  assert (H1 : (inject_Z (2 ^ 52) <= a / u)%Q).
  { apply Qle_shift_div_l; [exact Hu|]. lra. }
  assert (H2 : (a / u <= inject_Z (2 ^ 53))%Q).
  { apply Qle_shift_div_r; [exact Hu|]. lra. }
  apply round_even_le in H1, H2. rewrite round_even_Z in H1, H2.
  rewrite Zle_Qle in H1, H2.
  set (m := inject_Z (round_even (a / u))) in *.
  rewrite E1, E2. split; apply Qmult_le_compat_r; lra.
Qed.

Lemma double_abs_nonneg (a : Q) : (0 <= double_abs a)%Q.
Proof.
  destruct (Qlt_le_dec 0 a) as [H|H].
  - destruct (double_abs_binade a H) as [Hlo _].
    pose proof (pow2_pos (ilog2 a)). lra.
  - unfold double_abs. apply Qle_bool_iff in H. rewrite H. lra.
Qed.

Lemma double_abs_pos (a : Q) : (0 < a)%Q -> (0 < double_abs a)%Q.
Proof.
  intros H. destruct (double_abs_binade a H) as [Hlo _].
  pose proof (pow2_pos (ilog2 a)). lra.
Qed.

Lemma double_abs_le (a b : Q) :
  (a <= b)%Q -> (double_abs a <= double_abs b)%Q.
Proof.
  intros Hab.
  destruct (Qlt_le_dec 0 a) as [Ha|Ha].
  2:{ unfold double_abs at 1. apply Qle_bool_iff in Ha. rewrite Ha.
      apply double_abs_nonneg. }
  assert (Hb : (0 < b)%Q) by lra.
  pose proof (ilog2_le a b Ha Hab) as He.
  destruct (Z_lt_le_dec (ilog2 a) (ilog2 b)) as [Hlt|Hge].
  - destruct (double_abs_binade a Ha) as [_ Hhi].
    destruct (double_abs_binade b Hb) as [Hlo _].
    pose proof (pow2_le (ilog2 a + 1) (ilog2 b) ltac:(lia)). lra.
  - assert (E : ilog2 b = ilog2 a) by lia.
    unfold double_abs.
    destruct (Qle_bool a 0) eqn:Ea; [apply Qle_bool_iff in Ea; lra|].
    destruct (Qle_bool b 0) eqn:Eb; [apply Qle_bool_iff in Eb; lra|].
    cbv zeta. rewrite E.
    pose proof (pow2_pos (ilog2 a - 52)) as Hu.
    set (u := (2 ^ (ilog2 a - 52))%Q) in *.
    apply Qmult_le_compat_r; [|lra].
    rewrite <- Zle_Qle. apply round_even_le.
    apply Qle_shift_div_l; [exact Hu|].
    assert (Hdiv : (a / u * u == a)%Q) by (field; lra).
    lra.
Qed.

(** Rounding to a double keeps the order. *)
Lemma double_le (x y : Q) : (x <= y)%Q -> (double x <= double y)%Q.
Proof.
  intros Hxy. unfold double.
  destruct (Qle_bool 0 x) eqn:Ex; destruct (Qle_bool 0 y) eqn:Ey.
  - apply double_abs_le, Hxy.
  - apply Qle_bool_iff in Ex.
    assert (~ (0 <= y)%Q) by (intros H; apply Qle_bool_iff in H; congruence).
    lra.
  - pose proof (double_abs_nonneg (- x)). pose proof (double_abs_nonneg y).
    lra.
  - assert (H : (double_abs (- y) <= double_abs (- x))%Q)
      by (apply double_abs_le; lra).
    lra.
Qed.

Lemma double_Proper (x y : Q) : (x == y)%Q -> (double x == double y)%Q.
Proof.
  intros H. apply Qle_antisym; apply double_le; lra.
Qed.

(** Rounding to a double keeps the sign. *)
Lemma double_pos (x : Q) : (0 < x)%Q -> (0 < double x)%Q.
Proof.
  intros H. unfold double.
  destruct (Qle_bool 0 x) eqn:E.
  - apply double_abs_pos, H.
  - assert (~ (0 <= x)%Q) by (intros H0; apply Qle_bool_iff in H0; congruence).
    lra.
Qed.

(** Hours elapsed, as the code divides them out, grow with the age. *)
Lemma hours_elapsed_le (a b : Z) :
  a <= b ->
  (double (inject_Z a / inject_Z CheckHuman.hour)
   <= double (inject_Z b / inject_Z CheckHuman.hour))%Q.
Proof.
  intros H. apply double_le. unfold Qdiv.
  change (/ inject_Z CheckHuman.hour)%Q with (1 # 3600000)%Q.
  rewrite Zle_Qle in H. lra.
Qed.

(* ================================================================== *)
(** ** The two-hour window *)
(* ================================================================== *)

Lemma sort_desc_head {A} (key : A -> Z) (xs : list A) :
  match sort_desc key xs with
  | [] => xs = []
  | x :: _ => In x xs /\ forall y, In y xs -> key y <= key x
  end.
Proof.
  induction xs as [|a l IH]; simpl; [reflexivity|].
  fold (sort_desc key l).
  destruct (sort_desc key l) as [|y r]; simpl.
  - subst l. split; [auto|]. intros z [<-|[]]. lia.
  - destruct IH as [Hin Hmax].
    destruct (key y <=? key a)%Z eqn:E.
    + apply Z.leb_le in E. split; [auto|].
      intros z [<-|Hz]; [lia|]. specialize (Hmax z Hz). lia.
    + apply Z.leb_gt in E. split; [auto|].
      intros z [<-|Hz]; [lia|]. auto.
Qed.

Lemma in_window (phone : string) (since : Z) (rows : list Row) (r : Row) :
  In r (Store.gte_timestamp since
          (Store.eq_is_ai_response false
             (Store.eq_direction outbound
                (Store.eq_phone_number phone rows))))
  <-> In r rows /\ human_reply phone r = true /\ since <= timestamp r.
Proof.
  unfold Store.gte_timestamp, Store.eq_is_ai_response, Store.eq_direction,
    Store.eq_phone_number, human_reply.
  rewrite !filter_In, !andb_true_iff, Z.leb_le. tauto.
Qed.

(** The gate's query finds the most recent human reply of the window. *)
Lemma latest_human_reply_found
    (phone : string) (since T : Z) (rows : list Row) :
  last_human_reply_at phone T rows -> since <= T ->
  latest_human_reply phone since rows = Some T.
Proof.
  intros [(r & Hin & Hh & Ht) Hmax] Hsince.
  unfold latest_human_reply, human_window, Store.limit,
    Store.order_timestamp_desc.
  pose proof (sort_desc_head timestamp
                (Store.gte_timestamp since
                   (Store.eq_is_ai_response false
                      (Store.eq_direction outbound
                         (Store.eq_phone_number phone rows))))) as Hs.
  destruct (sort_desc timestamp _) as [|x l].
  - exfalso.
    assert (Hr : In r (Store.gte_timestamp since
                   (Store.eq_is_ai_response false
                      (Store.eq_direction outbound
                         (Store.eq_phone_number phone rows)))))
      by (apply in_window; repeat split; [assumption..|lia]).
    rewrite Hs in Hr. exact Hr.
  - destruct Hs as [Hx Hbig]. simpl. f_equal.
    apply in_window in Hx. destruct Hx as (Hx1 & Hx2 & Hx3).
    assert (timestamp x <= T) by (apply Hmax; assumption).
    assert (timestamp r <= timestamp x).
    { apply Hbig. apply in_window. repeat split; [assumption..|lia]. }
    lia.
Qed.

Lemma latest_human_reply_none (phone : string) (since : Z) (rows : list Row) :
  no_human_reply_since phone since rows ->
  latest_human_reply phone since rows = None.
Proof.
  intros Hnone.
  unfold latest_human_reply, human_window, Store.limit,
    Store.order_timestamp_desc.
  pose proof (sort_desc_head timestamp
                (Store.gte_timestamp since
                   (Store.eq_is_ai_response false
                      (Store.eq_direction outbound
                         (Store.eq_phone_number phone rows))))) as Hs.
  destruct (sort_desc timestamp _) as [|x l]; [reflexivity|].
  destruct Hs as [Hx _]. apply in_window in Hx.
  destruct Hx as (Hx1 & Hx2 & Hx3).
  specialize (Hnone x Hx1 Hx2). lia.
Qed.

(** What the gate answers when the store runs its query. *)
Lemma check_human_on_healthy_store (phone : string) (w : World) :
  phone <> "" ->
  next_store_outcome w = Healthy ->
  exists res,
    CheckHuman.GET (Some phone) w
      = (Ok (json (CheckHuman.Verdict res)), after_call w) /\
    CheckHuman.phoneNumber res = gate_key phone /\
    CheckHuman.lastHumanResponseTime res
      = latest_human_reply (gate_key phone) (clock w - 7200000) (messages w) /\
    CheckHuman.humanActive res
      = CheckHuman.positive
          (hours_left (clock w + next_store_delay w)
             (CheckHuman.lastHumanResponseTime res)) /\
    CheckHuman.hoursRemaining res
      = two_decimals
          (hours_left (clock w + next_store_delay w)
             (CheckHuman.lastHumanResponseTime res)).
Proof.
  intros Hphone Hup.
  unfold CheckHuman.GET, try_catch.
  destruct (phone =? "") eqn:Ep; [apply String.eqb_eq in Ep; contradiction|].
  unfold bind at 1, now at 1. cbv beta iota zeta.
  unfold after_call, next_store_outcome, next_store_delay in *.
  unfold latest_human_reply. fold (gate_key phone).
  change (fun rows : list Row =>
            Store.limit 1
              (Store.order_timestamp_desc
                 (Store.gte_timestamp (clock w - 2 * 60 * 60 * 1000)
                    (Store.eq_is_ai_response false
                       (Store.eq_direction outbound
                          (Store.eq_phone_number (gate_key phone) rows))))))
    with (human_window (gate_key phone) (clock w - 7200000)).
  remember (human_window (gate_key phone) (clock w - 7200000)) as q eqn:Hq.
  unfold bind at 1, Store.select, Store.run, bind at 1, Store.call.
  destruct (store_script w) as [|[d o] rest]; simpl.
  - destruct (q (messages w)) as [|r l]; simpl.
    + eexists. split; [reflexivity|]. simpl. repeat split.
    + unfold bind; simpl. eexists. split; [reflexivity|]. simpl.
      rewrite Z.add_0_r. repeat split.
  - subst o. simpl.
    destruct (q (messages w)) as [|r l]; simpl.
    + eexists. split; [reflexivity|]. simpl. repeat split.
    + unfold bind; simpl. eexists. split; [reflexivity|]. simpl.
      repeat split.
Qed.

Lemma positive_true (x : Q) : CheckHuman.positive x = true <-> (0 < x)%Q.
Proof.
  unfold CheckHuman.positive. rewrite negb_true_iff.
  split.
  - intros H. apply Qnot_le_lt. intros Hle.
    apply Qle_bool_iff in Hle. congruence.
  - intros H. destruct (Qle_bool x 0) eqn:E; [|reflexivity].
    apply Qle_bool_iff in E. exfalso. eapply Qlt_not_le; eassumption.
Qed.

(** Time only runs the window down. *)
Lemma hours_left_after_decreasing (a b : Z) :
  a <= b -> (hours_left_after b <= hours_left_after a)%Q.
Proof.
  intros H. unfold hours_left_after.
  apply Q.max_le_compat_l, double_le.
  pose proof (hours_elapsed_le a b H). lra.
Qed.

(** Less than two hours after the reply, hours are left. *)
Lemma hours_left_after_inside (age : Z) :
  age < 7200000 -> (0 < hours_left_after age)%Q.
Proof.
  intros H. unfold hours_left_after.
  pose proof (hours_elapsed_le age 7199999 ltac:(lia)) as Hle.
  assert (Hc : (double (inject_Z 7199999 / inject_Z CheckHuman.hour) < 2)%Q)
    by (vm_compute; reflexivity).
  eapply Qlt_le_trans; [|apply Q.le_max_r].
  apply double_pos. lra.
Qed.

(** Two hours after the reply and later, none are. *)
Lemma hours_left_after_outside (age : Z) :
  7200000 <= age -> (hours_left_after age == 0)%Q.
Proof.
  intros H. unfold hours_left_after.
  pose proof (hours_elapsed_le 7200000 age H) as Hle.
  assert (Hc : (double (inject_Z 7200000 / inject_Z CheckHuman.hour) == 2)%Q)
    by (vm_compute; reflexivity).
  assert (Hz : (double 0 == 0)%Q) by (vm_compute; reflexivity).
  apply Q.max_l. rewrite <- Hz. apply double_le. lra.
Qed.

Lemma hours_left_inside (t1 ts : Z) :
  t1 - ts < 7200000 -> (0 < hours_left t1 (Some ts))%Q.
Proof. apply hours_left_after_inside. Qed.

Lemma hours_left_outside (t1 ts : Z) :
  7200000 <= t1 - ts -> (hours_left t1 (Some ts) == 0)%Q.
Proof. apply hours_left_after_outside. Qed.

Lemma hours_left_nonneg (t1 : Z) (latest : option Z) :
  (0 <= hours_left t1 latest)%Q.
Proof.
  destruct latest as [ts|]; simpl; [apply Q.le_max_l | apply Qle_refl].
Qed.


Lemma two_decimals_increasing (x y : Q) :
  (x <= y)%Q -> (two_decimals x <= two_decimals y)%Q.
Proof.
  intros H. unfold two_decimals, Js.round, Qdiv.
  change (/ 100)%Q with (1 # 100)%Q.
  assert (Hd : (double (x * 100) <= double (y * 100))%Q)
    by (apply double_le; lra).
  assert (Hf : (Qfloor (double (x * 100) + (1 # 2))
                <= Qfloor (double (y * 100) + (1 # 2)))%Z)
    by (apply Qfloor_resp_le; lra).
  rewrite Zle_Qle in Hf. lra.
Qed.

Lemma two_decimals_Proper (x y : Q) :
  (x == y)%Q -> (two_decimals x == two_decimals y)%Q.
Proof.
  intros H. apply Qle_antisym; apply two_decimals_increasing;
    rewrite H; apply Qle_refl.
Qed.

Lemma two_decimals_nonneg (x : Q) : (0 <= x)%Q -> (0 <= two_decimals x)%Q.
Proof.
  intros H. apply (two_decimals_increasing 0 x) in H.
  assert (Hzero : (two_decimals 0 == 0)%Q) by (vm_compute; reflexivity).
  rewrite Hzero in H. exact H.
Qed.

(** What the gate reports between two ages lies between what it reports
    at them. *)
Lemma reported_between (lo age hi : Z) (v : Q) :
  lo <= age <= hi ->
  (two_decimals (hours_left_after lo) == v)%Q ->
  (two_decimals (hours_left_after hi) == v)%Q ->
  (two_decimals (hours_left_after age) == v)%Q.
Proof.
  intros [Hlo Hhi] Elo Ehi.
  apply Qle_antisym.
  - rewrite <- Elo.
    apply two_decimals_increasing, hours_left_after_decreasing, Hlo.
  - rewrite <- Ehi.
    apply two_decimals_increasing, hours_left_after_decreasing, Hhi.
Qed.

(** The gate when the table holds no human reply of the last two hours. *)
Lemma check_human_quiet (phone : string) (w : World) :
  phone <> "" ->
  next_store_outcome w = Healthy ->
  no_human_reply_since (gate_key phone) (clock w - 7200000) (messages w) ->
  exists res w',
    CheckHuman.GET (Some phone) w = (Ok (json (CheckHuman.Verdict res)), w') /\
    CheckHuman.humanActive res = false /\
    (CheckHuman.hoursRemaining res == 0)%Q /\
    CheckHuman.lastHumanResponseTime res = None.
Proof.
  intros Hphone Hup Hquiet.
  destruct (check_human_on_healthy_store phone w Hphone Hup)
    as (res & Hget & _ & Hlast & Hactive & Hhours).
  rewrite (latest_human_reply_none _ _ _ Hquiet) in Hlast.
  rewrite Hlast in Hactive, Hhours.
  exists res, (after_call w). split; [exact Hget|].
  split; [rewrite Hactive; reflexivity|].
  split; [rewrite Hhours; reflexivity | exact Hlast].
Qed.

(** C3.  With the threshold of two hours and a store that runs the query:
    when the last human reply to the counterparty was sent at [T], a call
    at [T + 1h] (answered by the store within 18 seconds) reports an
    active human with 1.0 hours remaining, and a call at [T + 3h] reports
    no active human, 0 hours remaining; and whenever the table holds no
    human reply of the last two hours, the gate reports no active human,
    0 hours remaining and no last response time. *)
Theorem check_human_two_hour_window (phone : string) (T : Z) (w : World) :
  phone <> "" ->
  next_store_outcome w = Healthy ->
  (last_human_reply_at (gate_key phone) T (messages w) ->
   next_store_delay w <= 18000 ->
   exists res w',
     CheckHuman.GET (Some phone) (at_time (T + 1 * CheckHuman.hour) w)
       = (Ok (json (CheckHuman.Verdict res)), w') /\
     CheckHuman.humanActive res = true /\
     (CheckHuman.hoursRemaining res == 1)%Q /\
     CheckHuman.lastHumanResponseTime res = Some T) /\
  (last_human_reply_at (gate_key phone) T (messages w) ->
   exists res w',
     CheckHuman.GET (Some phone) (at_time (T + 3 * CheckHuman.hour) w)
       = (Ok (json (CheckHuman.Verdict res)), w') /\
     CheckHuman.humanActive res = false /\
     (CheckHuman.hoursRemaining res == 0)%Q) /\
  (no_human_reply_since (gate_key phone) (clock w - 2 * CheckHuman.hour)
     (messages w) ->
   exists res w',
     CheckHuman.GET (Some phone) w
       = (Ok (json (CheckHuman.Verdict res)), w') /\
     CheckHuman.humanActive res = false /\
     (CheckHuman.hoursRemaining res == 0)%Q /\
     CheckHuman.lastHumanResponseTime res = None).
Proof.
  intros Hphone Hup. split; [|split].
  - intros Hlast Hdelay.
    assert (Hup1 : next_store_outcome (at_time (T + 1 * CheckHuman.hour) w)
                   = Healthy) by exact Hup.
    destruct (check_human_on_healthy_store phone _ Hphone Hup1)
      as (res & Hget & _ & Hfound & Hactive & Hhours).
    simpl in Hfound.
    rewrite (latest_human_reply_found _ _ T _ Hlast) in Hfound
      by (unfold CheckHuman.hour; lia).
    rewrite Hfound in Hactive, Hhours.
    assert (Hd : 0 <= next_store_delay w).
    { unfold next_store_delay.
      destruct (store_script w) as [|[d o] rest]; lia. }
    change (next_store_delay (at_time (T + 1 * CheckHuman.hour) w))
      with (next_store_delay w) in *.
    change (clock (at_time (T + 1 * CheckHuman.hour) w))
      with (T + 1 * CheckHuman.hour) in *.
    set (d := next_store_delay w) in *.
    exists res. eexists. split; [exact Hget|].
    split; [|split; [|exact Hfound]].
    + rewrite Hactive. apply positive_true, hours_left_inside.
      unfold CheckHuman.hour. lia.
    + rewrite Hhours. unfold hours_left.
      apply (reported_between 3600000 _ 3618000);
        [unfold CheckHuman.hour; lia | vm_compute; reflexivity..].
  - intros Hlast.
    assert (Hquiet : no_human_reply_since (gate_key phone)
                       (clock (at_time (T + 3 * CheckHuman.hour) w) - 7200000)
                       (messages (at_time (T + 3 * CheckHuman.hour) w))).
    { intros r Hin Hh. simpl. destruct Hlast as [_ Hmax].
      specialize (Hmax r Hin Hh). unfold CheckHuman.hour. lia. }
    destruct (check_human_quiet phone
                (at_time (T + 3 * CheckHuman.hour) w) Hphone Hup Hquiet)
      as (res & w' & Hget & Hactive & Hhours & _).
    exists res, w'. auto.
  - intros Hquiet. apply check_human_quiet; assumption.
Qed.

Lemma check_human_two_hour_window_witness :
  let w := mkWorld (messages sample_thread) [] 0 [(120%N, Healthy)] [] [] in
  (exists res w',
     CheckHuman.GET (Some "+254 700 000001") (at_time 1700003600250 w)
       = (Ok (json (CheckHuman.Verdict res)), w') /\
     CheckHuman.humanActive res = true /\
     (CheckHuman.hoursRemaining res == 1)%Q /\
     CheckHuman.lastHumanResponseTime res = Some 1700000000250) /\
  (exists res w',
     CheckHuman.GET (Some "+254 700 000001") (at_time 1700010800250 w)
       = (Ok (json (CheckHuman.Verdict res)), w') /\
     CheckHuman.humanActive res = false /\
     (CheckHuman.hoursRemaining res == 0)%Q).
Proof.
  intros w.
  assert (Hlast : last_human_reply_at (gate_key "+254 700 000001")
                    1700000000250 (messages w)).
  { split.
    - eexists. split; [right; left; reflexivity|]. split; reflexivity.
    - intros r [<-|[<-|[]]]; vm_compute; intros; congruence. }
  destruct (check_human_two_hour_window "+254 700 000001" 1700000000250 w)
    as (H1 & H2 & _).
  - discriminate.
  - reflexivity.
  - split; [apply H1; [exact Hlast | vm_compute; discriminate] | apply H2, Hlast].
Defined.

(* ================================================================== *)
(** ** The window over time *)
(* ================================================================== *)

(** When the gate's query finds a row, and which. *)
Lemma latest_human_reply_spec
    (phone : string) (since ts : Z) (rows : list Row) :
  latest_human_reply phone since rows = Some ts <->
  (exists r, In r rows /\ human_reply phone r = true /\ timestamp r = ts) /\
  since <= ts /\
  (forall r, In r rows -> human_reply phone r = true ->
             since <= timestamp r -> timestamp r <= ts).
Proof.
  unfold latest_human_reply, human_window, Store.limit,
    Store.order_timestamp_desc.
  pose proof (sort_desc_head timestamp
                (Store.gte_timestamp since
                   (Store.eq_is_ai_response false
                      (Store.eq_direction outbound
                         (Store.eq_phone_number phone rows))))) as Hs.
  destruct (sort_desc timestamp _) as [|x l]; simpl.
  - split; [discriminate|].
    intros ((r & Hin & Hh & Ht) & Hsince & _). exfalso.
    assert (Hr : In r (Store.gte_timestamp since
                   (Store.eq_is_ai_response false
                      (Store.eq_direction outbound
                         (Store.eq_phone_number phone rows)))))
      by (apply in_window; repeat split; [assumption..|lia]).
    rewrite Hs in Hr. exact Hr.
  - destruct Hs as [Hx Hbig].
    apply in_window in Hx. destruct Hx as (Hx1 & Hx2 & Hx3).
    split.
    + intros H. inversion H; subst ts. split; [eauto|]. split; [lia|].
      intros r Hin Hh Hs. apply Hbig. apply in_window. auto.
    + intros ((r & Hin & Hh & Ht) & Hsince & Hmax). f_equal.
      assert (timestamp x <= ts) by (apply Hmax; assumption).
      assert (timestamp r <= timestamp x).
      { apply Hbig. apply in_window. repeat split; [assumption..|lia]. }
      lia.
Qed.


Lemma after_call_clock (w : World) :
  clock (after_call w) = clock w + next_store_delay w.
Proof.
  unfold after_call, Store.call, next_store_delay.
  destruct (store_script w) as [|[d o] rest]; simpl; lia.
Qed.


Lemma next_store_delay_nonneg (w : World) : 0 <= next_store_delay w.
Proof.
  unfold next_store_delay. destruct (store_script w) as [|[d o] rest]; lia.
Qed.




(** Nor does a hundredth of an hour between two calls force a decrease:
    1998 and 2034 seconds after a reply the gate reports 1.44 hours both
    times, the hours left at the first instant being a double just below
    1.445. *)
Lemma hours_remaining_repeats_after_36_seconds :
  (two_decimals (hours_left_after 1998000) == 144 # 100)%Q /\
  (two_decimals (hours_left_after 2034000) == 144 # 100)%Q.
Proof. split; vm_compute; reflexivity. Qed.


(* ================================================================== *)
(** ** The conversation list *)
(* ================================================================== *)

(** The dashboard files every stored row under its [from_number]: the
    fetch route has already put a sent row's [from_number] in field [to],
    which is the field the dashboard reads for a message that is not
    inbound. *)
Lemma group_key_of_row (r : Row) :
  Page.group_key (FetchRoute.format r)
  = replace "whatsapp:" "" (from_number r).
Proof.
  unfold Page.group_key, FetchRoute.format. simpl.
  destruct (FetchRoute.is_inbound r); reflexivity.
Qed.

(** C1 does not hold of the code.  In the sample thread, counterparty
    254700000001 writes in and the business replies to that number; the
    dashboard lists the inbound message under 254700000001 and the reply
    under 106540352242922, the business's own phone number id, not under
    the counterparty it was sent to. *)
Theorem outbound_reply_is_filed_under_business_number :
  (exists row,
     In row (messages sample_thread) /\
     message_id row = "wamid.OUT1" /\
     direction row = outbound /\
     to_number row = "254700000001") /\
  exists page w' cs,
    FetchRoute.GET sample_thread = (Ok page, w') /\
    Page.fetchMessages page = Ok cs /\
    conversation_of "wamid.IN1" cs = Some "254700000001" /\
    conversation_of "wamid.OUT1" cs = Some "106540352242922".
Proof.
  split.
  - eexists. split; [right; left; reflexivity|]. repeat split.
  - eassert (H1 : FetchRoute.GET sample_thread = (Ok _, _))
      by (vm_compute; reflexivity).
    match type of H1 with
    | _ = (Ok ?page, _) =>
        eassert (H2 : Page.fetchMessages page = Ok _)
          by (vm_compute; reflexivity)
    end.
    do 3 eexists. split; [exact H1|]. split; [exact H2|].
    split; vm_compute; reflexivity.
Qed.

(* ================================================================== *)
(** ** A send by a human opens the window *)
(* ================================================================== *)

Lemma remove_all_clean (p : ascii -> bool) (s : string) :
  remove_all p (remove_all p s) = remove_all p s.
Proof.
  induction s as [|c r IH]; simpl; [reflexivity|].
  destruct (p c) eqn:E; simpl; [exact IH|].
  rewrite E, IH. reflexivity.
Qed.

Lemma trim_start_spaceless (s : string) :
  strip_spaces s = s -> trim_start s = s.
Proof.
  destruct s as [|c r]; simpl; [reflexivity|].
  unfold strip_spaces. simpl.
  destruct (is_space c) eqn:E; [|reflexivity].
  intros H. exfalso.
  assert (Hlen : forall t, (String.length (remove_all is_space t)
                            <= String.length t)%nat).
  { induction t as [|x t IH]; simpl; [lia|].
    destruct (is_space x); simpl; lia. }
  specialize (Hlen r). rewrite H in Hlen. simpl in Hlen. lia.
Qed.

Lemma trim_end_spaceless (s : string) :
  strip_spaces s = s -> trim_end s = s.
Proof.
  unfold strip_spaces.
  induction s as [|c r IH]; simpl; [reflexivity|].
  destruct (is_space c) eqn:E.
  - intros H. exfalso.
    assert (Hlen : forall t, (String.length (remove_all is_space t)
                              <= String.length t)%nat).
    { induction t as [|x t IHt]; simpl; [lia|].
      destruct (is_space x); simpl; lia. }
    specialize (Hlen r). rewrite H in Hlen. simpl in Hlen. lia.
  - intros H. inversion H as [Hr]. rewrite Hr. rewrite (IH Hr).
    destruct r; reflexivity.
Qed.

(** The gate looks a number up under the key a send files it under. *)
Lemma gate_key_clean (s : string) :
  gate_key s = strip_spaces (strip_plus s).
Proof.
  unfold gate_key, trim.
  assert (H : strip_spaces (strip_spaces (strip_plus s))
              = strip_spaces (strip_plus s))
    by apply remove_all_clean.
  rewrite (trim_start_spaceless _ H). apply trim_end_spaceless, H.
Qed.

(** A row of the window bounds what the gate's query finds from below. *)
Lemma latest_human_reply_bound
    (phone : string) (since : Z) (rows : list Row) (row : Row) :
  In row rows -> human_reply phone row = true -> since <= timestamp row ->
  exists ts,
    latest_human_reply phone since rows = Some ts /\ timestamp row <= ts.
Proof.
  intros Hin Hh Hs.
  unfold latest_human_reply, human_window, Store.limit,
    Store.order_timestamp_desc.
  pose proof (sort_desc_head timestamp
                (Store.gte_timestamp since
                   (Store.eq_is_ai_response false
                      (Store.eq_direction outbound
                         (Store.eq_phone_number phone rows))))) as Hsort.
  assert (Hrow : In row (Store.gte_timestamp since
                   (Store.eq_is_ai_response false
                      (Store.eq_direction outbound
                         (Store.eq_phone_number phone rows)))))
    by (apply in_window; auto).
  destruct (sort_desc timestamp _) as [|x l]; simpl.
  - rewrite Hsort in Hrow. contradiction.
  - exists (timestamp x). split; [reflexivity|]. apply Hsort, Hrow.
Qed.

(** While less than two hours have passed since a human reply in the
    table, the gate reports an active human. *)
Lemma human_reply_opens_window (p : string) (row : Row) (w : World) :
  p <> "" ->
  next_store_outcome w = Healthy ->
  In row (messages w) ->
  human_reply (gate_key p) row = true ->
  clock w + next_store_delay w < timestamp row + 2 * CheckHuman.hour ->
  exists res w',
    CheckHuman.GET (Some p) w = (Ok (json (CheckHuman.Verdict res)), w') /\
    CheckHuman.humanActive res = true.
Proof.
  intros Hp Hup Hin Hh Hfresh.
  destruct (check_human_on_healthy_store p w Hp Hup)
    as (res & Hget & _ & Hlast & Hactive & _).
  pose proof (next_store_delay_nonneg w) as Hd.
  destruct (latest_human_reply_bound (gate_key p) (clock w - 7200000)
              (messages w) row Hin Hh) as (ts & Hts & Hle).
  { unfold CheckHuman.hour in Hfresh. lia. }
  rewrite Hts in Hlast. rewrite Hlast in Hactive.
  exists res, (after_call w). split; [exact Hget|].
  rewrite Hactive. apply positive_true.
  unfold CheckHuman.hour in Hfresh.
  apply hours_left_inside. lia.
Qed.

(** A send with credentials that the provider accepts, up to the insert. *)
Lemma send_reaches_store
    (E : Engine) (cfg : Config) (pid s : string) (body isAiResponse : jsval)
    (w : World) (delay : N) (d : ProviderData)
    (rest : list (N * FetchOutcome)) :
  WHATSAPP_PHONE_NUMBER_ID cfg = Some pid -> pid <> "" ->
  Whatsapp.missing (WHATSAPP_ACCESS_TOKEN cfg) = false ->
  provider_script w = (delay, Response true (Data d)) :: rest ->
  let cleanTo := strip_spaces (strip_plus s) in
  let t := clock w + Z.of_N delay in
  let w2 := mkWorld (messages w) (webhook_logs w) t (store_script w) rest
                    (provider_calls w ++ [(cleanTo, body)])%list in
  Whatsapp.sendWhatsAppMessage E cfg (JStr s) body isAiResponse w
  = (Store.insert_message
       (match text_column E body,
              bool_column E (Whatsapp.defaulted isAiResponse) with
        | Some b, Some ai =>
            Some (mkRow (sent_id d t) cleanTo pid cleanTo b outbound
                        (Some "sent") t "text" None None None ai
                        (RawProvider d))
        | _, _ => None
        end) ;;; ret d) w2.
Proof.
  intros Hpid Hne Htok Hscript cleanTo t w2.
  unfold Whatsapp.sendWhatsAppMessage.
  rewrite Hpid, Htok.
  assert (Hm : Whatsapp.missing (Some pid) = false).
  { simpl. destruct (pid =? "") eqn:Ep; [|reflexivity].
    apply String.eqb_eq in Ep. contradiction. }
  rewrite Hm. cbn [orb].
  unfold bind at 1. cbn [Whatsapp.clean_to ret].
  unfold bind at 1, fetch_provider. rewrite Hscript.
  unfold bind at 1. cbn [Whatsapp.response_json ret negb].
  unfold bind at 1. cbn [Whatsapp.read_data ret].
  unfold bind at 1, now at 1. unfold bind at 1, now at 1.
  cbn [clock]. unfold sent_id.
  assert (Hfrom : or_str (Some pid) "" = pid).
  { simpl. destruct (pid =? "") eqn:Ep; [|reflexivity].
    apply String.eqb_eq in Ep. contradiction. }
  rewrite Hfrom. reflexivity.
Qed.

(** What a send that returns has found: the credentials, a string to
    send to, and a provider that accepted the message. *)
Lemma send_returns_setup
    (E : Engine) (cfg : Config) (to body isAiResponse : jsval)
    (w w' : World) (d : ProviderData) :
  Whatsapp.sendWhatsAppMessage E cfg to body isAiResponse w = (Ok d, w') ->
  exists pid s delay d0 rest,
    WHATSAPP_PHONE_NUMBER_ID cfg = Some pid /\ pid <> "" /\
    Whatsapp.missing (WHATSAPP_ACCESS_TOKEN cfg) = false /\
    to = JStr s /\
    provider_script w = (delay, Response true (Data d0)) :: rest.
Proof.
  unfold Whatsapp.sendWhatsAppMessage.
  destruct (Whatsapp.missing (WHATSAPP_PHONE_NUMBER_ID cfg)) eqn:Hpid;
    [cbn [orb]; discriminate|].
  destruct (Whatsapp.missing (WHATSAPP_ACCESS_TOKEN cfg)) eqn:Htok;
    [cbn [orb]; discriminate|].
  cbn [orb].
  destruct (WHATSAPP_PHONE_NUMBER_ID cfg) as [pid|] eqn:Epid;
    [|discriminate].
  assert (Hne : pid <> "").
  { intros ->. discriminate. }
  destruct to as [| | | |s|]; try discriminate.
  unfold bind at 1. cbn [Whatsapp.clean_to ret].
  unfold bind at 1, fetch_provider.
  destruct (provider_script w) as [|[delay o] rest] eqn:Hscript;
    [discriminate|].
  destruct o as [e|ok raw]; [discriminate|].
  unfold bind at 1.
  destruct raw as [msg| |d0]; cbn [Whatsapp.response_json ret throw];
    [discriminate| |].
  - destruct ok; cbn [negb]; unfold bind, Whatsapp.read_data, throw;
      discriminate.
  - destruct ok; cbn [negb].
    + intros _. exists pid, s, delay, d0, rest. repeat split; auto.
    + unfold bind, Whatsapp.read_data, ret, throw. discriminate.
Qed.

(** C10, as the code has it.  When a send request whose [isAiResponse] is
    absent or falsy is answered 200, and the store runs the insert of a
    row whose identifier no row has yet, that row is in table [messages]
    afterwards, outbound and with [is_ai_response] false: the send is
    recorded as written by a human, under the counterparty it was sent
    to, and for the two hours that follow the gate reports an active
    human for that counterparty. *)
Theorem send_without_flag_is_recorded_as_human
    (E : Engine) (cfg : Config) (to body isAiResponse : jsval)
    (w w' : World) (d : ProviderData) :
  stores_booleans E ->
  text_column E body <> None ->
  truthy isAiResponse = false ->
  next_store_outcome w = Healthy ->
  (forall t, Store.has_id (sent_id d t) (messages w) = false) ->
  SendRoute.POST E cfg (SendRoute.Fields to body isAiResponse) w
    = (Ok (json (SendRoute.Success d)), w') ->
  exists row s,
    messages w' = (messages w ++ [row])%list /\
    direction row = outbound /\
    is_ai_response row = false /\
    to = JStr s /\
    phone_number row = gate_key s /\
    forall w2,
      In row (messages w2) ->
      next_store_outcome w2 = Healthy ->
      clock w2 + next_store_delay w2 < timestamp row + 2 * CheckHuman.hour ->
      exists res w3,
        CheckHuman.GET (Some s) w2
          = (Ok (json (CheckHuman.Verdict res)), w3) /\
        CheckHuman.humanActive res = true.
Proof.
  intros HE Htext Hai Hup Hfresh Hpost.
  unfold SendRoute.POST, try_catch, bind at 1 in Hpost.
  cbn [SendRoute.request_json ret] in Hpost.
  destruct (negb (truthy to) || negb (truthy body)) eqn:Hguard.
  { inversion Hpost. }
  unfold bind at 1 in Hpost.
  assert (Hor : Js.or isAiResponse (JBool false) = JBool false)
    by (unfold Js.or; rewrite Hai; reflexivity).
  rewrite Hor in Hpost.
  destruct (Whatsapp.sendWhatsAppMessage E cfg to body (JBool false) w)
    as [[d1|e] w1] eqn:Hsend; cbn [ret] in Hpost; [|inversion Hpost].
  assert (d1 = d /\ w1 = w') as [-> ->] by (inversion Hpost; auto).
  clear Hpost.
  destruct (send_returns_setup _ _ _ _ _ _ _ _ Hsend)
    as (pid & s & delay & d0 & rest & Hpid & Hne & Htok & -> & Hscript).
  rewrite (send_reaches_store E cfg pid s body (JBool false) w delay d0 rest
             Hpid Hne Htok Hscript) in Hsend.
  cbn [Whatsapp.defaulted] in Hsend. rewrite (HE false) in Hsend.
  destruct (text_column E body) as [b|]; [|contradiction].
  unfold bind, Store.insert_message, Store.run, bind, Store.call in Hsend.
  unfold next_store_outcome in Hup. cbn [store_script] in Hsend.
  assert (Hs : s <> "").
  { intros ->. cbn in Hguard. discriminate. }
  assert (Hrow :
    d0 = d /\
    messages w'
    = (messages w
       ++ [mkRow (sent_id d (clock w + Z.of_N delay))
                 (strip_spaces (strip_plus s)) pid
                 (strip_spaces (strip_plus s)) b outbound (Some "sent")
                 (clock w + Z.of_N delay) "text" None None None false
                 (RawProvider d)])%list).
  { destruct (store_script w) as [|[dl o] more]; [|subst o];
      cbn [messages message_id fst snd ret] in Hsend;
      destruct (Store.has_id (sent_id d0 (clock w + Z.of_N delay))
                  (messages w)) eqn:Hid;
      cbn [messages message_id fst snd ret] in Hsend;
      inversion Hsend; subst d0;
      try (rewrite Hfresh in Hid; discriminate);
      split; reflexivity. }
  destruct Hrow as [-> Hrows].
  eexists. exists s. split; [exact Hrows|].
  cbn [direction is_ai_response phone_number timestamp].
  split; [reflexivity|]. split; [reflexivity|]. split; [reflexivity|].
  split; [rewrite gate_key_clean; reflexivity|].
  intros w2 Hin Hup2 Hfresh2.
  apply (human_reply_opens_window s _ w2 Hs Hup2 Hin); [|exact Hfresh2].
  unfold human_reply. cbn [phone_number direction is_ai_response].
  rewrite gate_key_clean, String.eqb_refl. reflexivity.
Qed.

(** C10 as stated fails: a send without the flag that is answered 200
    need not be recorded.  When the store answers the insert with an
    error, no row is persisted, and the gate, asked next, reports no
    active human for the counterparty. *)
Lemma send_without_flag_can_go_unrecorded :
  let w := mkWorld [] [] 1700000000000 [(5000%N, ErrorResult "timeout")]
             [(250%N, Response true (Data (mkData None (Some "wamid.OUT1"))))]
             [] in
  exists w' res w'',
    SendRoute.POST sample_engine sample_config sample_send w
      = (Ok (json (SendRoute.Success (mkData None (Some "wamid.OUT1")))), w')
    /\ messages w' = []
    /\ CheckHuman.GET (Some "254700000001") w'
       = (Ok (json (CheckHuman.Verdict res)), w'')
    /\ CheckHuman.humanActive res = false.
Proof.
  intros w.
  eassert (H1 : SendRoute.POST sample_engine sample_config sample_send w
                = (Ok (json (SendRoute.Success _)), _))
    by (vm_compute; reflexivity).
  match type of H1 with
  | _ = (_, ?w1) =>
      eassert (H2 : CheckHuman.GET (Some "254700000001") w1
                    = (Ok (json (CheckHuman.Verdict _)), _))
        by (vm_compute; reflexivity)
  end.
  do 3 eexists. split; [exact H1|]. split; [reflexivity|].
  split; [exact H2 | reflexivity].
Qed.

Lemma send_without_flag_is_recorded_as_human_witness :
  exists row,
    messages sample_thread
      = (messages (snd (Webhook.POST sample_inbound sample_world)) ++ [row])%list
    /\ direction row = outbound
    /\ is_ai_response row = false
    /\ phone_number row = "254700000001".
Proof.
  destruct (send_without_flag_is_recorded_as_human
              sample_engine sample_config
              (JStr "+254 700 000001") (JStr "hi there") JUndefined
              (snd (Webhook.POST sample_inbound sample_world))
              sample_thread
              (mkData None (Some "wamid.OUT1")))
    as (row & s & Hrows & Hdir & Hflag & Hs & Hphone & _).
  - intros b; reflexivity.
  - discriminate.
  - reflexivity.
  - reflexivity.
  - intros t. reflexivity.
  - vm_compute. reflexivity.
  - exists row. repeat split; try assumption.
    inversion Hs; subst s. rewrite Hphone. vm_compute. reflexivity.
Defined.

(* ================================================================== *)
(** ** Further properties of the send path *)
(* ================================================================== *)

(** X1.  Without the provider's credentials in the environment a send
    throws at once, whatever its arguments: the provider is not called,
    nothing is written, and the send route answers 500 with the
    configuration message. *)
Theorem send_without_credentials
    (E : Engine) (cfg : Config) (to body isAiResponse : jsval) (w : World) :
  Whatsapp.missing (WHATSAPP_PHONE_NUMBER_ID cfg) = true \/
  Whatsapp.missing (WHATSAPP_ACCESS_TOKEN cfg) = true ->
  Whatsapp.sendWhatsAppMessage E cfg to body isAiResponse w
    = (Throw (JsError "WhatsApp credentials not configured"), w) /\
  (truthy to = true -> truthy body = true ->
   SendRoute.POST E cfg (SendRoute.Fields to body isAiResponse) w
     = (Ok (mkHttp 500
              (SendRoute.Failure "WhatsApp credentials not configured")), w)).
Proof.
  intros Hmissing.
  assert (Hsend : forall ai,
    Whatsapp.sendWhatsAppMessage E cfg to body ai w
      = (Throw (JsError "WhatsApp credentials not configured"), w)).
  { intros ai. unfold Whatsapp.sendWhatsAppMessage.
    destruct Hmissing as [-> | ->]; [|rewrite orb_true_r]; reflexivity. }
  split; [apply Hsend|].
  intros Hto Hbody.
  unfold SendRoute.POST, try_catch, bind, SendRoute.request_json, ret.
  rewrite Hto, Hbody. cbn [negb orb]. rewrite Hsend. reflexivity.
Qed.

Lemma send_without_credentials_witness :
  SendRoute.POST sample_engine (mkConfig (Some "106540352242922") None None)
    sample_send sample_world
  = (Ok (mkHttp 500
           (SendRoute.Failure "WhatsApp credentials not configured")),
     sample_world).
Proof.
  apply (send_without_credentials sample_engine
           (mkConfig (Some "106540352242922") None None)
           (JStr "+254 700 000001") (JStr "hi there") JUndefined sample_world).
  - right. reflexivity.
  - reflexivity.
  - reflexivity.
Defined.

Lemma remove_all_spec (p : ascii -> bool) (s : string) (c : ascii) :
  In c (list_ascii_of_string (remove_all p s)) ->
  p c = false /\ In c (list_ascii_of_string s).
Proof.
  induction s as [|x r IH]; simpl; [intros []|].
  destruct (p x) eqn:E; simpl.
  - intros H. destruct (IH H). auto.
  - intros [<-|H]; [auto|]. destruct (IH H). auto.
Qed.

Lemma cleaned_is_clean (s : string) :
  clean_number (strip_spaces (strip_plus s)).
Proof.
  intros c Hin. unfold strip_spaces, strip_plus in Hin.
  apply remove_all_spec in Hin. destruct Hin as [Hspace Hin].
  apply remove_all_spec in Hin. destruct Hin as [Hplus _].
  split; [|exact Hspace].
  intros ->. simpl in Hplus. discriminate.
Qed.

(** X2.  A send asks the provider at most once, and never for a number
    with a plus sign or white space in it: whatever way
    [sendWhatsAppMessage] ends, either no call was made, or exactly one,
    for the recipient stripped of those characters and with the body as
    given. *)
Theorem send_calls_provider_once_with_clean_number
    (E : Engine) (cfg : Config) (to body isAiResponse : jsval)
    (w w' : World) (res : result ProviderData) :
  Whatsapp.sendWhatsAppMessage E cfg to body isAiResponse w = (res, w') ->
  provider_calls w' = provider_calls w \/
  exists s,
    to = JStr s /\
    provider_calls w'
      = (provider_calls w ++ [(strip_spaces (strip_plus s), body)])%list /\
    clean_number (strip_spaces (strip_plus s)).
Proof.
  unfold Whatsapp.sendWhatsAppMessage.
  destruct (Whatsapp.missing _ || Whatsapp.missing _).
  { intros H; inversion H; auto. }
  destruct to as [| | b | n | s |];
    try (unfold bind; simpl; intros H; inversion H; auto; fail).
  unfold bind at 1. simpl.
  intros H. right. exists s. split; [reflexivity|].
  split; [|apply cleaned_is_clean].
  revert H. unfold bind at 1.
  destruct (fetch_provider (strip_spaces (strip_plus s)) body w)
    as [[[ok raw]|e] w2] eqn:Hf.
  2:{ intros H; inversion H; subst.
      unfold fetch_provider in Hf.
      destruct (provider_script w) as [|[d o] rest];
        [|destruct o]; inversion Hf; reflexivity. }
  assert (Hc2 : provider_calls w2
                = (provider_calls w
                   ++ [(strip_spaces (strip_plus s), body)])%list).
  { unfold fetch_provider in Hf.
    destruct (provider_script w) as [|[d o] rest];
      [|destruct o]; inversion Hf; reflexivity. }
  unfold bind at 1.
  destruct raw as [msg| |d]; simpl.
  { intros H; inversion H; subst; auto. }
  { destruct ok; simpl; unfold bind; simpl;
      intros H; inversion H; subst; auto. }
  destruct ok; simpl.
  2:{ unfold bind; simpl. intros H; inversion H; subst; auto. }
  unfold bind; simpl.
  unfold Store.insert_message, Store.run, bind, Store.call.
  destruct (store_script w2) as [|[dl o] rest]; simpl.
  - destruct (match text_column E body with
              | Some b0 =>
                  match bool_column E (Whatsapp.defaulted isAiResponse) with
                  | Some ai => Some _
                  | None => None
                  end
              | None => None
              end) as [row|]; simpl.
    + destruct (Store.has_id _ (messages w2)); simpl;
        intros H; inversion H; subst; simpl; auto.
    + intros H; inversion H; subst; auto.
  - destruct o; simpl; try (intros H; inversion H; subst; auto; fail).
    destruct (match text_column E body with
              | Some b0 =>
                  match bool_column E (Whatsapp.defaulted isAiResponse) with
                  | Some ai => Some _
                  | None => None
                  end
              | None => None
              end) as [row|]; simpl.
    + destruct (Store.has_id _ (messages w2)); simpl;
        intros H; inversion H; subst; simpl; auto.
    + intros H; inversion H; subst; auto.
Qed.

Lemma send_calls_provider_once_with_clean_number_witness :
  exists s,
    provider_calls sample_thread = [(s, JStr "hi there")] /\ clean_number s.
Proof.
  destruct (send_calls_provider_once_with_clean_number
              sample_engine sample_config
              (JStr "+254 700 000001") (JStr "hi there") JUndefined
              (snd (Webhook.POST sample_inbound sample_world))
              sample_thread
              (Ok (mkData None (Some "wamid.OUT1"))))
    as [Hsame | (s & Hs & Hcalls & Hclean)].
  - vm_compute. reflexivity.
  - vm_compute in Hsame. discriminate.
  - eexists. split; [|exact Hclean]. rewrite Hcalls. reflexivity.
Defined.

(** Once the provider has accepted a message, what is left of a send is
    the insert of its row. *)
(** X3.  A send the provider accepts, on a store that runs the insert,
    leaves exactly one new row, last in the table: outbound, with status
    "sent", filed under the cleaned recipient, sent from the configured
    phone number id at the instant the provider answered, under the
    provider's message id (or, when the answer holds none, under "msg_"
    followed by that instant), provided no row has that identifier yet. *)
Theorem send_success_records_one_row
    (E : Engine) (cfg : Config) (pid s : string) (body isAiResponse : jsval)
    (w : World) (delay : N) (d : ProviderData)
    (rest : list (N * FetchOutcome)) (b : option string) (ai : bool) :
  WHATSAPP_PHONE_NUMBER_ID cfg = Some pid -> pid <> "" ->
  Whatsapp.missing (WHATSAPP_ACCESS_TOKEN cfg) = false ->
  provider_script w = (delay, Response true (Data d)) :: rest ->
  next_store_outcome w = Healthy ->
  text_column E body = Some b ->
  bool_column E (Whatsapp.defaulted isAiResponse) = Some ai ->
  Store.has_id (sent_id d (clock w + Z.of_N delay)) (messages w) = false ->
  exists w',
    Whatsapp.sendWhatsAppMessage E cfg (JStr s) body isAiResponse w
      = (Ok d, w') /\
    messages w'
      = (messages w
         ++ [mkRow (sent_id d (clock w + Z.of_N delay))
                   (strip_spaces (strip_plus s)) pid
                   (strip_spaces (strip_plus s)) b outbound (Some "sent")
                   (clock w + Z.of_N delay) "text" None None None ai
                   (RawProvider d)])%list.
Proof.
  intros Hpid Hne Htok Hscript Hup Htext Hbool Hfresh.
  rewrite (send_reaches_store E cfg pid s body isAiResponse w delay d rest
             Hpid Hne Htok Hscript).
  rewrite Htext, Hbool.
  unfold bind, Store.insert_message, Store.run, bind, Store.call.
  unfold next_store_outcome in Hup. cbn [store_script].
  destruct (store_script w) as [|[dl o] more]; [|subst o];
    cbn [messages message_id fst snd]; rewrite Hfresh;
    eexists; split; reflexivity.
Qed.

Lemma send_success_records_one_row_witness :
  exists w',
    Whatsapp.sendWhatsAppMessage sample_engine sample_config
      (JStr "+254 700 000001") (JStr "hi there") JUndefined sample_world
      = (Ok (mkData None (Some "wamid.OUT1")), w') /\
    messages w'
      = [mkRow "wamid.OUT1" "254700000001" "106540352242922" "254700000001"
               (Some "hi there") outbound (Some "sent") 1700000000250 "text"
               None None None false
               (RawProvider (mkData None (Some "wamid.OUT1")))].
Proof.
  destruct (send_success_records_one_row sample_engine sample_config
              "106540352242922" "+254 700 000001" (JStr "hi there")
              JUndefined sample_world 250%N
              (mkData None (Some "wamid.OUT1")) [] (Some "hi there") false)
    as (w' & Hsend & Hrows); try reflexivity; try discriminate.
  exists w'. split; [exact Hsend|]. rewrite Hrows. reflexivity.
Defined.

(** X4.  The send route does not look at the store's answer to the
    insert.  When the provider has accepted the message and the store
    answers the insert with an error, or refuses it because a row already
    has that identifier, the route still answers 200 with the provider's
    answer, and the table holds no row for the message. *)
Theorem send_unrecorded_still_succeeds
    (E : Engine) (cfg : Config) (pid s : string) (body isAiResponse : jsval)
    (w : World) (delay : N) (d : ProviderData)
    (rest : list (N * FetchOutcome)) :
  WHATSAPP_PHONE_NUMBER_ID cfg = Some pid -> pid <> "" ->
  Whatsapp.missing (WHATSAPP_ACCESS_TOKEN cfg) = false ->
  provider_script w = (delay, Response true (Data d)) :: rest ->
  s <> "" -> truthy body = true ->
  (exists msg, next_store_outcome w = ErrorResult msg) \/
  (next_store_outcome w = Healthy /\
   Store.has_id (sent_id d (clock w + Z.of_N delay)) (messages w) = true) ->
  exists w',
    SendRoute.POST E cfg (SendRoute.Fields (JStr s) body isAiResponse) w
      = (Ok (json (SendRoute.Success d)), w') /\
    messages w' = messages w /\
    provider_calls w'
      = (provider_calls w ++ [(strip_spaces (strip_plus s), body)])%list.
Proof.
  intros Hpid Hne Htok Hscript Hs Hbody Hstore.
  assert (Hguard : negb (truthy (JStr s)) || negb (truthy body) = false).
  { rewrite Hbody. simpl.
    destruct (s =? "") eqn:Es; [|reflexivity].
    apply String.eqb_eq in Es; contradiction. }
  unfold SendRoute.POST, try_catch, bind at 1, SendRoute.request_json, ret.
  rewrite Hguard. unfold bind at 1.
  rewrite (send_reaches_store E cfg pid s body
             (Js.or isAiResponse (JBool false)) w delay d rest
             Hpid Hne Htok Hscript).
  unfold bind, Store.insert_message, Store.run, bind, Store.call.
  unfold next_store_outcome in Hstore. cbn [store_script].
  destruct Hstore as [(msg & Hout) | (Hout & Hdup)].
  - destruct (store_script w) as [|[dl o] more]; [discriminate|].
    subst o. eexists. split; [reflexivity|]. split; reflexivity.
  - destruct (text_column E body) as [b|];
      destruct (bool_column E
                  (Whatsapp.defaulted (Js.or isAiResponse (JBool false))))
        as [ai|];
      destruct (store_script w) as [|[dl o] more]; try subst o;
      cbn [messages message_id fst snd]; try rewrite Hdup;
      eexists; (split; [reflexivity|]); split; reflexivity.
Qed.

Lemma send_unrecorded_still_succeeds_witness :
  exists w',
    SendRoute.POST sample_engine sample_config sample_send
      (mkWorld [] [] 1700000000000 [(5000%N, ErrorResult "timeout")]
         [(250%N, Response true (Data (mkData None (Some "wamid.OUT1"))))] [])
      = (Ok (json (SendRoute.Success (mkData None (Some "wamid.OUT1")))), w')
    /\ messages w' = [].
Proof.
  destruct (send_unrecorded_still_succeeds sample_engine sample_config
              "106540352242922" "+254 700 000001" (JStr "hi there")
              JUndefined
              (mkWorld [] [] 1700000000000 [(5000%N, ErrorResult "timeout")]
                 [(250%N,
                   Response true (Data (mkData None (Some "wamid.OUT1"))))] [])
              250%N (mkData None (Some "wamid.OUT1")) [])
    as (w' & Hpost & Hrows & _);
    try reflexivity; try discriminate.
  - left. eexists. reflexivity.
  - exists w'. split; [exact Hpost | exact Hrows].
Defined.

(* ================================================================== *)
(** ** Further properties of the webhook route *)
(* ================================================================== *)

Lemma takes_ret {A} (P Q : World -> Prop) (a : A) :
  (forall w, P w -> Q w) -> takes P Q (ret a).
Proof. intros H w Hw. apply H, Hw. Qed.

Lemma takes_throw {A} (P Q : World -> Prop) (e : thrown) :
  (forall w, P w -> Q w) -> takes P Q (@throw A e).
Proof. intros H w Hw. apply H, Hw. Qed.

Lemma takes_bind {A B} (P Q R : World -> Prop) (m : M A) (k : A -> M B) :
  takes P Q m -> (forall a, takes Q R (k a)) -> (forall w, Q w -> R w) ->
  takes P R (bind m k).
Proof.
  intros Hm Hk Hsub w Hw. unfold bind.
  specialize (Hm w Hw). destruct (m w) as [[a|e] w1]; simpl in *.
  - apply Hk, Hm.
  - apply Hsub, Hm.
Qed.

Lemma takes_try_catch {A} (P Q R : World -> Prop)
    (body : M A) (handler : thrown -> M A) :
  takes P Q body -> (forall e, takes Q R (handler e)) ->
  (forall w, Q w -> R w) ->
  takes P R (try_catch body handler).
Proof.
  intros Hb Hh Hsub w Hw. unfold try_catch.
  specialize (Hb w Hw). destruct (body w) as [[a|e] w1]; simpl in *.
  - apply Hsub, Hb.
  - apply Hh, Hb.
Qed.

Lemma takes_for_each {A} (P : World -> Prop) (xs : list A) (f : A -> M unit) :
  (forall x, In x xs -> takes P P (f x)) -> takes P P (for_each xs f).
Proof.
  induction xs as [|x r IH]; simpl; intros Hf.
  - apply takes_ret. auto.
  - apply (takes_bind P P P); [apply Hf; auto | | auto].
    intros _. apply IH. intros y Hy. apply Hf. auto.
Qed.

(** A run of a statement keeps what the statement keeps, when time and
    the script do not matter. *)
Lemma takes_run {A} (R R' : list Row -> Prop) (stmt : M (Store.Reply A)) :
  takes (fun w => R (messages w)) (fun w => R' (messages w)) stmt ->
  (forall rows, R rows -> R' rows) ->
  takes (fun w => R (messages w)) (fun w => R' (messages w)) (Store.run stmt).
Proof.
  intros Hs Hsub w Hw. unfold Store.run, bind, Store.call.
  destruct (store_script w) as [|[d o] rest]; [apply Hs, Hw|].
  destruct o; simpl; [|apply Hsub, Hw..].
  apply (Hs (mkWorld (messages w) (webhook_logs w) (clock w + Z.of_N d) rest
                     (provider_script w) (provider_calls w))).
  exact Hw.
Qed.

Lemma takes_insert_log (R : list Row -> Prop) (l : LogRow) :
  takes (fun w => R (messages w)) (fun w => R (messages w))
        (Store.insert_log l).
Proof.
  apply takes_run; [|auto]. intros w Hw. exact Hw.
Qed.

Lemma takes_insert_message (R R' : list Row -> Prop) (r : Row) :
  (forall rows, R rows -> Store.has_id (message_id r) rows = false ->
                R' (rows ++ [r])%list) ->
  (forall rows, R rows -> R' rows) ->
  takes (fun w => R (messages w)) (fun w => R' (messages w))
        (Store.insert_message (Some r)).
Proof.
  intros Hins Hsub. apply takes_run; [|exact Hsub].
  intros w Hw. simpl.
  destruct (Store.has_id (message_id r) (messages w)) eqn:E; simpl.
  - apply Hsub, Hw.
  - apply Hins; assumption.
Qed.

Lemma takes_update_status (R : list Row -> Prop) (id st : string) :
  (forall rows, R rows ->
     R (map (fun r => if message_id r =? id then set_status st r else r)
            rows)) ->
  takes (fun w => R (messages w)) (fun w => R (messages w))
        (Store.update_status id st).
Proof.
  intros Hupd. apply takes_run; [|auto]. intros w Hw. simpl. apply Hupd, Hw.
Qed.

(** The row [storeInboundMessage] tries to insert is inbound, not flagged
    as automated, and carries the identifier of the first message. *)
Lemma takes_storeInboundMessage (R R' : list Row -> Prop) (c : option Change) :
  (forall rows r m,
     R rows -> Whatsapp.first_message c = Some m ->
     message_id r = wa_id m -> direction r = inbound ->
     is_ai_response r = false -> Table.status r = Some "received" ->
     Store.has_id (message_id r) rows = false ->
     R' (rows ++ [r])%list) ->
  (forall rows, R rows -> R' rows) ->
  takes (fun w => R (messages w)) (fun w => R' (messages w))
        (Whatsapp.storeInboundMessage c).
Proof.
  intros Hins Hsub.
  assert (Hsubw : forall w : World, R (messages w) -> R' (messages w))
    by (intros w; apply Hsub).
  unfold Whatsapp.storeInboundMessage.
  destruct (Whatsapp.first_message c) as [m|] eqn:Hm;
    [|apply takes_ret; exact Hsubw].
  apply (takes_bind _ (fun w => R (messages w))).
  - unfold Whatsapp.iso_of_seconds.
    destruct (date_of_ms _); [apply takes_ret | apply takes_throw]; auto.
  - intros ts.
    repeat match goal with
           | |- context [if ?b then _ else _] => destruct b
           end;
      (apply (takes_bind _ (fun w => R' (messages w)));
       [apply takes_insert_message;
        [intros rows Hr Hf; eapply Hins; eauto | exact Hsub]
       | intros; apply takes_ret; auto
       | auto]).
  - exact Hsubw.
Qed.

(** What a webhook delivery keeps: any property of the table that
    survives the appending of an inbound row and the rewriting of
    statuses. *)
Lemma takes_webhook_POST (R : list Row -> Prop) (request : WebhookRequest) :
  (forall rows r,
     R rows -> direction r = inbound -> is_ai_response r = false ->
     Store.has_id (message_id r) rows = false -> R (rows ++ [r])%list) ->
  (forall rows id st,
     R rows ->
     R (map (fun r => if message_id r =? id then set_status st r else r)
            rows)) ->
  takes (fun w => R (messages w)) (fun w => R (messages w))
        (Webhook.POST request).
Proof.
  intros Hins Hupd. unfold Webhook.POST.
  set (P := fun w => R (messages w)).
  assert (Hlog : forall l, takes P P (Store.insert_log l ;;; ret tt)).
  { intros l. apply (takes_bind P P P); [apply takes_insert_log | | auto].
    intros; apply takes_ret; auto. }
  apply (takes_try_catch P P P); [| |auto].
  - apply (takes_bind P P P); [| |auto].
    { destruct request; [apply takes_throw | apply takes_ret ..]; auto. }
    intros body. apply (takes_bind P P P); [| |auto].
    { destruct body; [apply takes_ret | apply takes_throw]; auto. }
    intros change. apply (takes_bind P P P); [apply takes_insert_log| |auto].
    intros _. apply (takes_bind P P P); [|intros; apply takes_ret; auto|auto].
    destruct (Webhook.non_empty _).
    + apply (takes_bind P P P); [| |auto].
      * apply takes_storeInboundMessage; [|auto].
        intros rows r m Hr _ _ Hd Ha _ Hf. apply Hins; assumption.
      * intros [row|]; [apply Hlog | apply takes_ret; auto].
    + destruct (Webhook.non_empty _); [|apply takes_ret; auto].
      apply (takes_bind P P P); [|intros; apply Hlog|auto].
      apply takes_for_each. intros st _.
      apply (takes_bind P P P); [|intros; apply takes_ret; auto|auto].
      apply takes_update_status. intros rows Hr. apply Hupd, Hr.
  - intros e. apply (takes_bind P P P); [|intros; apply takes_ret; auto|auto].
    apply (takes_try_catch P P P); [apply Hlog| |auto].
    intros; apply takes_ret; auto.
Qed.

Lemma takes_deliver_all (P : World -> Prop) (requests : list WebhookRequest) :
  (forall r, takes P P (Webhook.POST r)) ->
  forall w, P w -> P (deliver_all requests w).
Proof.
  intros Hstep. induction requests as [|r rest IH]; intros w Hw; simpl.
  - exact Hw.
  - apply IH, Hstep, Hw.
Qed.

Lemma without_status_update (id st : string) (rows : list Row) :
  map without_status
    (map (fun r => if message_id r =? id then set_status st r else r) rows)
  = map without_status rows.
Proof.
  rewrite map_map. apply map_ext. intros r.
  destruct (message_id r =? id); reflexivity.
Qed.

Lemma logs_append_only_invariant (logs0 : list LogRow) :
  store_invariant
    (fun w => exists new, webhook_logs w = (logs0 ++ new)%list).
Proof.
  constructor; simpl; intros; try assumption.
  match goal with
  | H : exists new, _ = _ |- _ => destruct H as (new & ->)
  end.
  exists (new ++ [l])%list. rewrite app_assoc. reflexivity.
Qed.

(** X6.  The webhook route only ever adds.  After any sequence of
    deliveries, whatever their payloads and whatever the store did, the
    audit log is the old log followed by new rows, and table [messages]
    is the old table, every row in its place and unchanged but for its
    status, followed by new rows that are all inbound and not flagged as
    automated. *)
Theorem webhook_only_appends (requests : list WebhookRequest) (w : World) :
  (exists new,
     webhook_logs (deliver_all requests w) = (webhook_logs w ++ new)%list) /\
  (exists new,
     map without_status (messages (deliver_all requests w))
       = (map without_status (messages w) ++ map without_status new)%list /\
     Forall (fun r => direction r = inbound /\ is_ai_response r = false) new).
Proof.
  split.
  - apply (preserves_deliver_all _ (logs_append_only_invariant (webhook_logs w))).
    exists []. rewrite app_nil_r. reflexivity.
  - apply (takes_deliver_all
             (fun w' => exists new,
                map without_status (messages w')
                  = (map without_status (messages w)
                     ++ map without_status new)%list /\
                Forall (fun r => direction r = inbound
                                 /\ is_ai_response r = false) new)).
    + intros r.
      apply (takes_webhook_POST
               (fun rows => exists new,
                  map without_status rows
                    = (map without_status (messages w)
                       ++ map without_status new)%list /\
                  Forall (fun r => direction r = inbound
                                   /\ is_ai_response r = false) new)).
      * intros rows row (new & Hrows & Hall) Hd Ha _.
        exists (new ++ [row])%list. split.
        -- rewrite !map_app, Hrows, app_assoc. reflexivity.
        -- apply Forall_app. split; [exact Hall|]. constructor; auto.
      * intros rows id st (new & Hrows & Hall).
        exists new. rewrite without_status_update. auto.
    + exists []. simpl. rewrite app_nil_r. auto.
Qed.

Lemma human_reply_times_update (p id st : string) (rows : list Row) :
  human_reply_times p
    (map (fun r => if message_id r =? id then set_status st r else r) rows)
  = human_reply_times p rows.
Proof.
  unfold human_reply_times.
  induction rows as [|r rest IH]; simpl; [reflexivity|].
  assert (Hh : human_reply p
                 (if message_id r =? id then set_status st r else r)
               = human_reply p r)
    by (destruct (message_id r =? id); reflexivity).
  assert (Ht : timestamp (if message_id r =? id then set_status st r else r)
               = timestamp r)
    by (destruct (message_id r =? id); reflexivity).
  rewrite Hh. destruct (human_reply p r); simpl; rewrite ?Ht, IH; reflexivity.
Qed.

Lemma human_reply_times_other (p : string) (rows : list Row) (r : Row) :
  human_reply p r = false ->
  human_reply_times p (rows ++ [r]) = human_reply_times p rows.
Proof.
  intros H. unfold human_reply_times.
  rewrite filter_app. simpl. rewrite H, app_nil_r. reflexivity.
Qed.

Lemma in_human_reply_times (p : string) (rows : list Row) (ts : Z) :
  In ts (human_reply_times p rows) <->
  exists r, In r rows /\ human_reply p r = true /\ timestamp r = ts.
Proof.
  unfold human_reply_times. rewrite in_map_iff. split.
  - intros (r & Ht & Hin). apply filter_In in Hin. destruct Hin. eauto.
  - intros (r & Hin & Hh & Ht). exists r. split; [exact Ht|].
    apply filter_In. auto.
Qed.

(** The gate's query depends on the table only through the instants of
    the human replies to the number. *)
Lemma latest_human_reply_ext
    (p : string) (since : Z) (rows1 rows2 : list Row) :
  human_reply_times p rows1 = human_reply_times p rows2 ->
  latest_human_reply p since rows1 = latest_human_reply p since rows2.
Proof.
  intros Heq.
  assert (Hiff : forall ts,
            latest_human_reply p since rows1 = Some ts <->
            latest_human_reply p since rows2 = Some ts).
  { intros ts. rewrite !latest_human_reply_spec.
    assert (Hin : forall t,
              (exists r, In r rows1 /\ human_reply p r = true
                         /\ timestamp r = t) <->
              (exists r, In r rows2 /\ human_reply p r = true
                         /\ timestamp r = t)).
    { intros t. rewrite <- !in_human_reply_times, Heq. reflexivity. }
    split; intros (Hex & Hs & Hmax); (split; [apply Hin, Hex|]);
      (split; [exact Hs|]); intros r Hr Hh Hsr.
    - destruct (proj2 (Hin (timestamp r))) as (r' & Hr' & Hh' & Ht');
        [eauto|]. rewrite <- Ht'. apply Hmax; [assumption..|lia].
    - destruct (proj1 (Hin (timestamp r))) as (r' & Hr' & Hh' & Ht');
        [eauto|]. rewrite <- Ht'. apply Hmax; [assumption..|lia]. }
  destruct (latest_human_reply p since rows1) as [t1|] eqn:E1.
  - symmetry. apply Hiff. reflexivity.
  - destruct (latest_human_reply p since rows2) as [t2|] eqn:E2;
      [|reflexivity].
    apply (proj2 (Hiff t2)). reflexivity.
Qed.

(** The gate's answer depends on the world only through the clock, the
    store's behaviour and the instants of the human replies. *)
Lemma check_human_depends_on_times (phone : option string) (w1 w2 : World) :
  clock w1 = clock w2 ->
  store_script w1 = store_script w2 ->
  (forall p, human_reply_times p (messages w1)
             = human_reply_times p (messages w2)) ->
  fst (CheckHuman.GET phone w1) = fst (CheckHuman.GET phone w2).
Proof.
  intros Hclock Hscript Htimes.
  destruct phone as [p|]; [|reflexivity].
  destruct w1 as [rows1 logs1 t1 script1 prov1 calls1].
  destruct w2 as [rows2 logs2 t2 script2 prov2 calls2].
  simpl in Hclock, Hscript, Htimes. subst t2 script2.
  unfold CheckHuman.GET, try_catch.
  destruct (p =? "") eqn:Ep; [reflexivity|].
  fold (gate_key p).
  unfold bind, now, Store.select, Store.run, bind, Store.call, ret.
  pose proof (latest_human_reply_ext (gate_key p)
                (t1 - 2 * 60 * 60 * 1000) rows1 rows2 (Htimes _)) as Hq.
  unfold latest_human_reply, human_window in Hq.
  destruct script1 as [|[d o] rest]; [|destruct o];
    cbv beta iota; cbn [clock store_script messages fst snd];
    try reflexivity;
    cbn [Store.error Store.data];
    remember (Store.limit 1
                (Store.order_timestamp_desc
                   (Store.gte_timestamp (t1 - 2 * 60 * 60 * 1000)
                      (Store.eq_is_ai_response false
                         (Store.eq_direction outbound
                            (Store.eq_phone_number (gate_key p) rows1))))))
      as found1 eqn:E1;
    remember (Store.limit 1
                (Store.order_timestamp_desc
                   (Store.gte_timestamp (t1 - 2 * 60 * 60 * 1000)
                      (Store.eq_is_ai_response false
                         (Store.eq_direction outbound
                            (Store.eq_phone_number (gate_key p) rows2))))))
      as found2 eqn:E2;
    clear E1 E2;
    destruct found1 as [|r1 l1], found2 as [|r2 l2];
    simpl in Hq; try discriminate; try reflexivity;
    inversion Hq as [Ht]; cbn [fst snd clock]; rewrite Ht; reflexivity.
Qed.

Lemma human_reply_inbound (p : string) (r : Row) :
  direction r = inbound -> human_reply p r = false.
Proof.
  intros H. unfold human_reply. rewrite H. simpl.
  rewrite andb_false_r. reflexivity.
Qed.

Lemma human_reply_automated (p : string) (r : Row) :
  is_ai_response r = true -> human_reply p r = false.
Proof.
  intros H. unfold human_reply. rewrite H. simpl.
  rewrite andb_false_r. reflexivity.
Qed.

(** X7.  No webhook delivery moves the human-activity gate.  For the same
    clock and the same behaviour of the store, the gate answers any query
    on the table left by any sequence of deliveries as it answers it on
    the table before them: inbound messages and status updates never open,
    extend or close a human window. *)
Theorem webhook_never_moves_the_gate
    (requests : list WebhookRequest) (w w2 : World) (phone : option string) :
  fst (CheckHuman.GET phone
         (Store.with_messages (messages (deliver_all requests w)) w2))
  = fst (CheckHuman.GET phone (Store.with_messages (messages w) w2)).
Proof.
  apply check_human_depends_on_times; try reflexivity.
  intros p. simpl.
  apply (takes_deliver_all
           (fun w' => human_reply_times p (messages w')
                      = human_reply_times p (messages w)));
    [|reflexivity].
  intros r.
  apply (takes_webhook_POST
           (fun rows => human_reply_times p rows
                        = human_reply_times p (messages w))).
  - intros rows row Hrows Hd _ _.
    rewrite human_reply_times_other; [exact Hrows|].
    apply human_reply_inbound, Hd.
  - intros rows id st Hrows. rewrite human_reply_times_update. exact Hrows.
Qed.

(** X8.  A send flagged as automated does not move the gate either: with
    [isAiResponse] true, whatever the send route answers, the gate
    answers any query on the table it leaves as on the table before. *)
Theorem automated_send_never_moves_the_gate
    (E : Engine) (cfg : Config) (to body : jsval) (w w' w2 : World)
    (r : result (Http SendRoute.Body)) (phone : option string) :
  stores_booleans E ->
  SendRoute.POST E cfg (SendRoute.Fields to body (JBool true)) w = (r, w') ->
  fst (CheckHuman.GET phone (Store.with_messages (messages w') w2))
  = fst (CheckHuman.GET phone (Store.with_messages (messages w) w2)).
Proof.
  intros HE Hpost.
  apply check_human_depends_on_times; try reflexivity.
  intros p. simpl.
  unfold SendRoute.POST, try_catch, bind at 1, SendRoute.request_json, ret
    in Hpost.
  destruct (negb (truthy to) || negb (truthy body)).
  { inversion Hpost; reflexivity. }
  unfold bind at 1 in Hpost.
  change (Js.or (JBool true) (JBool false)) with (JBool true) in Hpost.
  destruct (Whatsapp.sendWhatsAppMessage E cfg to body (JBool true) w)
    as [res w1] eqn:Hsend.
  assert (w1 = w') by (destruct res; inversion Hpost; reflexivity).
  subst w1.
  destruct (sendWhatsAppMessage_rows _ _ _ _ _ _ _ _ Hsend)
    as [Hsame | (d & row & _ & Hrows & _ & _ & Hflag & _)].
  - rewrite Hsame. reflexivity.
  - rewrite Hrows. apply human_reply_times_other.
    apply human_reply_automated.
    simpl in Hflag. rewrite HE in Hflag. inversion Hflag. reflexivity.
Qed.

Lemma automated_send_never_moves_the_gate_witness :
  let w := snd (Webhook.POST sample_inbound sample_world) in
  let w' := snd (SendRoute.POST sample_engine sample_config
                   (SendRoute.Fields (JStr "+254 700 000001")
                      (JStr "hi there") (JBool true)) w) in
  List.length (messages w') = 2%nat /\
  fst (CheckHuman.GET (Some "254700000001")
         (Store.with_messages (messages w') (at_time 1700000001000 w)))
  = fst (CheckHuman.GET (Some "254700000001")
           (Store.with_messages (messages w) (at_time 1700000001000 w))).
Proof.
  intros w w'. split; [vm_compute; reflexivity|].
  apply (automated_send_never_moves_the_gate sample_engine sample_config
           (JStr "+254 700 000001") (JStr "hi there") w w'
           (at_time 1700000001000 w)
           (fst (SendRoute.POST sample_engine sample_config
                   (SendRoute.Fields (JStr "+254 700 000001")
                      (JStr "hi there") (JBool true)) w))).
  - intros b; reflexivity.
  - unfold w'. apply surjective_pairing.
Defined.

(** On a store that is up an awaited call runs its statement; nothing
    but the clock and the script has changed meanwhile. *)
Lemma run_on_store_up_full {A} (stmt : M (Store.Reply A)) (w : World) :
  store_up w ->
  exists w1,
    Store.run stmt w = stmt w1 /\
    messages w1 = messages w /\
    webhook_logs w1 = webhook_logs w /\
    provider_calls w1 = provider_calls w /\
    store_up w1.
Proof.
  intros Hup. unfold Store.run, bind, Store.call.
  destruct (store_script w) as [|[d o] rest] eqn:E.
  - exists w. auto.
  - pose proof Hup as Hup'. unfold store_up in Hup'. rewrite E in Hup'.
    inversion Hup' as [|x l Ho Hrest]; subst. simpl in Ho. subst o.
    eexists. split; [reflexivity|]. repeat split. exact Hrest.
Qed.

Lemma insert_log_up (l : LogRow) (w : World) :
  store_up w ->
  exists w1,
    Store.insert_log l w = (Ok (Store.mkReply None None), w1) /\
    messages w1 = messages w /\
    webhook_logs w1 = (webhook_logs w ++ [l])%list /\
    provider_calls w1 = provider_calls w /\
    store_up w1.
Proof.
  intros Hup. unfold Store.insert_log.
  destruct (run_on_store_up_full
              (fun w0 => (Ok (Store.mkReply (@None (list LogRow)) None),
                          Store.with_logs (webhook_logs w0 ++ [l]) w0))
              w Hup) as (w1 & Hrun & Hrows & Hlogs & Hcalls & Hup1).
  rewrite Hrun. eexists. split; [reflexivity|]. simpl.
  rewrite Hlogs. auto.
Qed.

Lemma update_status_up (id st : string) (w : World) :
  store_up w ->
  exists w1,
    Store.update_status id st w = (Ok (Store.mkReply None None), w1) /\
    messages w1
      = map (fun r => if message_id r =? id then set_status st r else r)
            (messages w) /\
    webhook_logs w1 = webhook_logs w /\
    store_up w1.
Proof.
  intros Hup. unfold Store.update_status.
  destruct (run_on_store_up_full
              (fun w0 =>
                 (Ok (Store.mkReply (@None (list Row)) None),
                  Store.with_messages
                    (map (fun r => if message_id r =? id
                                   then set_status st r else r)
                         (messages w0)) w0))
              w Hup) as (w1 & Hrun & Hrows & Hlogs & Hcalls & Hup1).
  rewrite Hrun. eexists. split; [reflexivity|]. simpl.
  rewrite Hrows. auto.
Qed.

(** Past the timestamp, [storeInboundMessage] is the insert of one row. *)
Lemma storeInboundMessage_builds
    (c : option Change) (m : InboundMessage) (ms : Z) :
  Whatsapp.first_message c = Some m ->
  instant_of (wa_timestamp m) = Some ms ->
  exists row,
    inbound_row c m ms row /\
    forall w,
      Whatsapp.storeInboundMessage c w
      = (reply <- Store.insert_message (Some row) ;;
         ret (match Store.data reply with
              | Some (r :: _) => Some r
              | _ => None
              end)) w.
Proof.
  intros Hfirst Hdate.
  unfold Whatsapp.storeInboundMessage. rewrite Hfirst.
  unfold Whatsapp.iso_of_seconds. unfold instant_of in Hdate. rewrite Hdate.
  assert (Hnonempty : forall s b, b <> "" -> or_str s b <> "").
  { intros s b Hb. unfold or_str. destruct s as [x|]; [|exact Hb].
    destruct (x =? "") eqn:Ex; [exact Hb|].
    intros ->. discriminate. }
  assert (Hbracket : forall t, "[" ++ t ++ "]" <> "").
  { intros t. discriminate. }
  destruct (wa_type m =? "text") eqn:T1;
    [|destruct (wa_type m =? "image") eqn:T2;
      [|destruct (wa_type m =? "video") eqn:T3;
        [|destruct (wa_type m =? "audio") eqn:T4;
          [|destruct (wa_type m =? "document") eqn:T5]]]];
    (eexists; split; [|intros w; reflexivity]);
    unfold inbound_row; cbn [message_id phone_number from_number to_number
      direction Table.status timestamp Table.message_type is_ai_response
      metadata Table.body];
    repeat match goal with |- _ /\ _ => split end;
    try (match goal with |- _ = _ => reflexivity end);
    intros Htype;
    first
      [ reflexivity
      | exfalso; apply Htype; apply String.eqb_eq; exact T1
      | rewrite Htype in T1; simpl in T1; discriminate
      | eexists; split; [reflexivity|];
        first [apply Hnonempty; discriminate | apply Hbracket | discriminate] ].
Qed.

(** The insert of a row on a store that is up. *)
Lemma insert_message_up (r : Row) (w : World) :
  store_up w ->
  exists w1,
    webhook_logs w1 = webhook_logs w /\
    store_up w1 /\
    (Store.has_id (message_id r) (messages w) = false ->
     Store.insert_message (Some r) w
       = (Ok (Store.mkReply (Some [r]) None), w1) /\
     messages w1 = (messages w ++ [r])%list) /\
    (Store.has_id (message_id r) (messages w) = true ->
     exists err,
       Store.insert_message (Some r) w
         = (Ok (Store.mkReply None (Some err)), w1) /\
       messages w1 = messages w).
Proof.
  intros Hup. unfold Store.insert_message.
  match goal with
  | |- context [Store.run ?s w] =>
      destruct (run_on_store_up_full s w Hup)
        as (w1 & Hrun & Hrows & Hlogs & _ & Hup1)
  end.
  rewrite Hrun, Hrows.
  destruct (Store.has_id (message_id r) (messages w)) eqn:Ehas.
  - exists w1. split; [exact Hlogs|]. split; [exact Hup1|].
    split; [discriminate|]. intros _. eexists. split; [reflexivity|exact Hrows].
  - eexists. split; [|split; [|split; [intros _; split; reflexivity|]]].
    + simpl. exact Hlogs.
    + exact Hup1.
    + discriminate.
Qed.

Lemma first_message_non_empty (c : option Change) (m : InboundMessage) :
  Whatsapp.first_message c = Some m ->
  Webhook.non_empty
    (match Webhook.change_value c with
     | Some v => v_messages v
     | None => None
     end) = true.
Proof.
  destruct c as [ch|]; [|discriminate].
  simpl. destruct (value ch) as [v|]; [|discriminate].
  destruct (v_messages v) as [[|m' l]|]; try discriminate. reflexivity.
Qed.

(** A delivery of an inbound message on a store that is up. *)
Lemma webhook_POST_message_up
    (c : option Change) (m : InboundMessage) (ms : Z) (w : World) :
  store_up w ->
  Whatsapp.first_message c = Some m ->
  instant_of (wa_timestamp m) = Some ms ->
  exists row w',
    inbound_row c m ms row /\
    Webhook.POST (Envelope c) w = (Ok (mkHttp 200 "ok"), w') /\
    (Store.has_id (wa_id m) (messages w) = false ->
     messages w' = (messages w ++ [row])%list /\
     webhook_logs w'
       = (webhook_logs w
          ++ [raw_log c;
              mkLog "message_received" (LoggedBody c) true None])%list) /\
    (Store.has_id (wa_id m) (messages w) = true ->
     messages w' = messages w /\
     webhook_logs w' = (webhook_logs w ++ [raw_log c])%list).
Proof.
  intros Hup Hfirst Hdate.
  destruct (storeInboundMessage_builds c m ms Hfirst Hdate)
    as (row & Hrow & Hbuild).
  assert (Hid : message_id row = wa_id m) by apply Hrow.
  exists row.
  unfold Webhook.POST.
  match goal with
  | |- context [try_catch _ ?h] => set (handler := h)
  end.
  unfold try_catch, bind at 1. cbn [Webhook.request_json ret].
  unfold bind at 1. cbn [Webhook.first_change ret].
  unfold bind at 1. fold (raw_log c).
  destruct (insert_log_up (raw_log c) w Hup)
    as (w1 & -> & Hrows1 & Hlogs1 & _ & Hup1).
  rewrite (first_message_non_empty c m Hfirst).
  unfold bind at 1. unfold bind at 1. rewrite Hbuild.
  unfold bind at 1.
  destruct (insert_message_up row w1 Hup1)
    as (w2 & Hlogs2 & Hup2 & Hfresh & Hdup).
  rewrite Hid, Hrows1 in Hfresh, Hdup.
  destruct (Store.has_id (wa_id m) (messages w)) eqn:Ehas.
  - destruct (Hdup eq_refl) as (err & -> & Hrows2).
    cbn [ret Store.data]. eexists. split; [exact Hrow|].
    split; [reflexivity|]. split; [discriminate|]. intros _.
    rewrite Hrows2, Hlogs2, Hlogs1. auto.
  - destruct (Hfresh eq_refl) as (-> & Hrows2).
    cbn [ret Store.data]. unfold bind at 1.
    destruct (insert_log_up
                (mkLog "message_received" (LoggedBody c) true None) w2 Hup2)
      as (w3 & -> & Hrows3 & Hlogs3 & _ & Hup3).
    cbn [ret]. eexists. split; [exact Hrow|].
    split; [reflexivity|]. split; [|discriminate]. intros _.
    rewrite Hrows3, Hrows2, Hlogs3, Hlogs2, Hlogs1, <- app_assoc. auto.
Qed.

(** X9.  On a store that is up, the delivery of an inbound message whose
    identifier is new is answered 200 "ok" and stores exactly one row, for
    the first message of the envelope: inbound, with status "received",
    filed under the sender, at the instant the provider's timestamp
    names, with the literal body for a text and a non-empty caption or
    bracketed placeholder for anything else; and the audit log gains the
    raw delivery followed by a processed "message_received" row. *)
Theorem delivery_stores_first_message
    (c : option Change) (m : InboundMessage) (ms : Z) (w : World) :
  store_up w ->
  Whatsapp.first_message c = Some m ->
  instant_of (wa_timestamp m) = Some ms ->
  Store.has_id (wa_id m) (messages w) = false ->
  exists row w',
    inbound_row c m ms row /\
    Webhook.POST (Envelope c) w = (Ok (mkHttp 200 "ok"), w') /\
    messages w' = (messages w ++ [row])%list /\
    webhook_logs w'
      = (webhook_logs w
         ++ [raw_log c;
             mkLog "message_received" (LoggedBody c) true None])%list.
Proof.
  intros Hup Hfirst Hdate Hfresh.
  destruct (webhook_POST_message_up c m ms w Hup Hfirst Hdate)
    as (row & w' & Hrow & Hpost & Hnew & _).
  exists row, w'. destruct (Hnew Hfresh). auto.
Qed.

Lemma delivery_stores_first_message_witness :
  exists row w',
    Webhook.POST sample_inbound sample_world = (Ok (mkHttp 200 "ok"), w') /\
    messages w' = [row] /\
    Table.body row = Some "hello" /\
    timestamp row = 1699999000000 /\
    List.length (webhook_logs w') = 2%nat.
Proof.
  destruct (delivery_stores_first_message
              (Some (mkChange (Some "messages")
                 (Some (mkValue
                    (Some [mkInbound "wamid.IN1" "254700000001" "1699999000"
                                     "text" (Some "hello") None None None
                                     None])
                    None (Some "106540352242922")))))
              (mkInbound "wamid.IN1" "254700000001" "1699999000" "text"
                         (Some "hello") None None None None)
              1699999000000 sample_world)
    as (row & w' & Hrow & Hpost & Hrows & Hlogs).
  - constructor.
  - reflexivity.
  - reflexivity.
  - reflexivity.
  - exists row, w'. split; [exact Hpost|]. split; [exact Hrows|].
    destruct Hrow as (_ & _ & _ & _ & _ & _ & Hts & _ & _ & _ & Htext & _).
    split; [apply Htext; reflexivity|]. split; [exact Hts|].
    rewrite Hlogs. reflexivity.
Defined.

(** X10.  On a store that is up, the redelivery of a message whose
    identifier is already stored is answered 200 "ok" and leaves table
    [messages] as it was; the audit log gains the raw delivery only, with
    no "message_received" row: a redelivery is acknowledged but never
    marked as processed. *)
Theorem redelivery_is_acknowledged_unprocessed
    (c : option Change) (m : InboundMessage) (ms : Z) (w : World) :
  store_up w ->
  Whatsapp.first_message c = Some m ->
  instant_of (wa_timestamp m) = Some ms ->
  Store.has_id (wa_id m) (messages w) = true ->
  exists w',
    Webhook.POST (Envelope c) w = (Ok (mkHttp 200 "ok"), w') /\
    messages w' = messages w /\
    webhook_logs w' = (webhook_logs w ++ [raw_log c])%list.
Proof.
  intros Hup Hfirst Hdate Hdup.
  destruct (webhook_POST_message_up c m ms w Hup Hfirst Hdate)
    as (row & w' & Hrow & Hpost & _ & Hold).
  exists w'. destruct (Hold Hdup). auto.
Qed.

Lemma redelivery_is_acknowledged_unprocessed_witness :
  let w := snd (Webhook.POST sample_inbound sample_world) in
  exists w',
    Webhook.POST sample_inbound w = (Ok (mkHttp 200 "ok"), w') /\
    messages w' = messages w /\
    List.length (webhook_logs w') = 3%nat.
Proof.
  intros w.
  destruct (redelivery_is_acknowledged_unprocessed
              (Some (mkChange (Some "messages")
                 (Some (mkValue
                    (Some [mkInbound "wamid.IN1" "254700000001" "1699999000"
                                     "text" (Some "hello") None None None
                                     None])
                    None (Some "106540352242922")))))
              (mkInbound "wamid.IN1" "254700000001" "1699999000" "text"
                         (Some "hello") None None None None)
              1699999000000 w)
    as (w' & Hpost & Hrows & Hlogs).
  - constructor.
  - reflexivity.
  - reflexivity.
  - reflexivity.
  - exists w'. split; [exact Hpost|]. split; [exact Hrows|].
    rewrite Hlogs. reflexivity.
Defined.

(** X11.  A delivery whose message carries a timestamp that names no
    instant (not a number, or out of the range of dates) is not stored: on
    a store that is up it is answered 200 "error", table [messages] is as
    it was, and the audit log gains the raw delivery followed by an error
    row saying "Invalid time value". *)
Theorem delivery_with_invalid_timestamp
    (c : option Change) (m : InboundMessage) (w : World) :
  store_up w ->
  Whatsapp.first_message c = Some m ->
  instant_of (wa_timestamp m) = None ->
  exists w',
    Webhook.POST (Envelope c) w = (Ok (mkHttp 200 "error"), w') /\
    messages w' = messages w /\
    webhook_logs w'
      = (webhook_logs w ++ [raw_log c; error_log "Invalid time value"])%list.
Proof.
  intros Hup Hfirst Hdate.
  unfold Webhook.POST.
  unfold try_catch, bind at 1. cbn [Webhook.request_json ret].
  unfold bind at 1. cbn [Webhook.first_change ret].
  unfold bind at 1. fold (raw_log c).
  destruct (insert_log_up (raw_log c) w Hup)
    as (w1 & -> & Hrows1 & Hlogs1 & _ & Hup1).
  rewrite (first_message_non_empty c m Hfirst).
  unfold bind at 1. unfold bind at 1.
  unfold Whatsapp.storeInboundMessage. rewrite Hfirst.
  unfold Whatsapp.iso_of_seconds. unfold instant_of in Hdate. rewrite Hdate.
  unfold bind at 1. cbn [throw message_or].
  unfold bind at 1, try_catch. unfold bind at 1.
  fold (error_log "Invalid time value").
  destruct (insert_log_up (error_log "Invalid time value") w1 Hup1)
    as (w2 & -> & Hrows2 & Hlogs2 & _ & Hup2).
  cbn [ret]. eexists. split; [reflexivity|].
  rewrite Hrows2, Hrows1, Hlogs2, Hlogs1, <- app_assoc. auto.
Qed.

Lemma delivery_with_invalid_timestamp_witness :
  exists w',
    Webhook.POST
      (Envelope
         (Some (mkChange (Some "messages")
            (Some (mkValue
               (Some [mkInbound "wamid.IN9" "254700000001" "yesterday" "text"
                                (Some "hello") None None None None])
               None None)))))
      sample_world = (Ok (mkHttp 200 "error"), w') /\
    messages w' = [] /\
    List.length (webhook_logs w') = 2%nat.
Proof.
  destruct (delivery_with_invalid_timestamp
              (Some (mkChange (Some "messages")
                 (Some (mkValue
                    (Some [mkInbound "wamid.IN9" "254700000001" "yesterday"
                                     "text" (Some "hello") None None None
                                     None])
                    None None))))
              (mkInbound "wamid.IN9" "254700000001" "yesterday" "text"
                         (Some "hello") None None None None)
              sample_world)
    as (w' & Hpost & Hrows & Hlogs).
  - constructor.
  - reflexivity.
  - reflexivity.
  - exists w'. split; [exact Hpost|]. split; [exact Hrows|].
    rewrite Hlogs. reflexivity.
Defined.

(** X12.  A delivery whose body does not parse, or is the literal null,
    never reaches table [messages]: on a store that is up it is answered
    200 "error" and the audit log gains one error row, holding the
    parser's message, or the message of the failed read of [entry]. *)
Theorem delivery_with_unreadable_body (w : World) :
  store_up w ->
  (forall msg, exists w',
     Webhook.POST (BadJson msg) w = (Ok (mkHttp 200 "error"), w') /\
     messages w' = messages w /\
     webhook_logs w' = (webhook_logs w ++ [error_log msg])%list) /\
  (exists w',
     Webhook.POST JsonNull w = (Ok (mkHttp 200 "error"), w') /\
     messages w' = messages w /\
     webhook_logs w'
       = (webhook_logs w
          ++ [error_log
                "Cannot read properties of null (reading 'entry')"])%list).
Proof.
  intros Hup. split.
  - intros msg. unfold Webhook.POST.
    unfold try_catch, bind at 1. cbn [Webhook.request_json throw message_or].
    unfold bind at 1, try_catch. unfold bind at 1.
    fold (error_log msg).
    destruct (insert_log_up (error_log msg) w Hup)
      as (w1 & -> & Hrows1 & Hlogs1 & _ & _).
    cbn [ret]. eexists. split; [reflexivity|]. auto.
  - unfold Webhook.POST.
    unfold try_catch, bind at 1. cbn [Webhook.request_json ret].
    unfold bind at 1. cbn [Webhook.first_change throw message_or].
    unfold bind at 1, try_catch. unfold bind at 1.
    fold (error_log "Cannot read properties of null (reading 'entry')").
    destruct (insert_log_up
                (error_log "Cannot read properties of null (reading 'entry')")
                w Hup)
      as (w1 & -> & Hrows1 & Hlogs1 & _ & _).
    cbn [ret]. eexists. split; [reflexivity|]. auto.
Qed.

Lemma delivery_with_unreadable_body_witness :
  exists w',
    Webhook.POST (BadJson "Unexpected end of JSON input") sample_world
      = (Ok (mkHttp 200 "error"), w') /\
    webhook_logs w' = [error_log "Unexpected end of JSON input"].
Proof.
  destruct (delivery_with_unreadable_body sample_world) as [Hbad _].
  - constructor.
  - destruct (Hbad "Unexpected end of JSON input") as (w' & Hpost & _ & Hlogs).
    exists w'. split; [exact Hpost | exact Hlogs].
Defined.

Lemma set_status_twice (a b : string) (r : Row) :
  set_status a (set_status b r) = set_status a r.
Proof. reflexivity. Qed.

Lemma last_status_for_seed (id : string) (statuses : list StatusUpdate)
    (seed : option string) :
  fold_left
    (fun found s => if st_id s =? id then Some (st_status s) else found)
    statuses seed
  = match last_status_for id statuses with
    | Some st => Some st
    | None => seed
    end.
Proof.
  unfold last_status_for. revert seed.
  induction statuses as [|s rest IH]; intros seed; simpl; [reflexivity|].
  rewrite IH. rewrite (IH (if st_id s =? id then Some (st_status s) else None)).
  destruct (fold_left _ rest None); [reflexivity|].
  destruct (st_id s =? id); reflexivity.
Qed.

Lemma apply_statuses_cons (s : StatusUpdate) (rest : list StatusUpdate)
    (r : Row) :
  apply_statuses (s :: rest) r
  = apply_statuses rest
      (if message_id r =? st_id s then set_status (st_status s) r else r).
Proof.
  assert (Hid : message_id
                  (if message_id r =? st_id s
                   then set_status (st_status s) r else r) = message_id r)
    by (destruct (message_id r =? st_id s); reflexivity).
  unfold apply_statuses. rewrite Hid.
  unfold last_status_for at 1. cbn [fold_left].
  rewrite last_status_for_seed.
  rewrite (String.eqb_sym (st_id s) (message_id r)).
  destruct (last_status_for (message_id r) rest) as [st|];
    destruct (message_id r =? st_id s); reflexivity.
Qed.

(** Updates applied one after another amount to the last one naming each
    row. *)
Lemma statuses_one_by_one (statuses : list StatusUpdate) (rows : list Row) :
  fold_left
    (fun rs s =>
       map (fun r => if message_id r =? st_id s
                     then set_status (st_status s) r else r) rs)
    statuses rows
  = map (apply_statuses statuses) rows.
Proof.
  revert rows. induction statuses as [|s rest IH]; intros rows; simpl.
  - symmetry. apply map_id.
  - rewrite IH, map_map. apply map_ext. intros r.
    symmetry. apply apply_statuses_cons.
Qed.

Lemma status_updates_up (statuses : list StatusUpdate) (w : World) :
  store_up w ->
  exists w',
    for_each statuses
      (fun status =>
         Store.update_status (st_id status) (st_status status) ;;; ret tt) w
      = (Ok tt, w') /\
    messages w'
      = fold_left
          (fun rs s =>
             map (fun r => if message_id r =? st_id s
                           then set_status (st_status s) r else r) rs)
          statuses (messages w) /\
    webhook_logs w' = webhook_logs w /\
    store_up w'.
Proof.
  revert w. induction statuses as [|s rest IH]; intros w Hup; simpl.
  - exists w. auto.
  - unfold bind at 1. unfold bind at 1.
    destruct (update_status_up (st_id s) (st_status s) w Hup)
      as (w1 & -> & Hrows1 & Hlogs1 & Hup1).
    cbn [ret].
    destruct (IH w1 Hup1) as (w' & -> & Hrows & Hlogs & Hup').
    exists w'. split; [reflexivity|].
    rewrite Hrows, Hrows1, Hlogs, Hlogs1. auto.
Qed.

(** X13.  On a store that is up, a delivery of status updates (and no
    message) is answered 200 "ok", adds and removes no row, and gives
    every row the status of the last update of the batch that names its
    [message_id], leaving the rows no update names as they were; the audit
    log gains the raw delivery followed by a processed "status_update"
    row. *)
Theorem status_delivery_applies_last_update
    (c : option Change) (statuses : list StatusUpdate) (w : World) :
  store_up w ->
  Webhook.non_empty (envelope_messages c) = false ->
  envelope_statuses c = Some statuses ->
  statuses <> [] ->
  exists w',
    Webhook.POST (Envelope c) w = (Ok (mkHttp 200 "ok"), w') /\
    messages w' = map (apply_statuses statuses) (messages w) /\
    webhook_logs w'
      = (webhook_logs w
         ++ [raw_log c; mkLog "status_update" (LoggedBody c) true None])%list.
Proof.
  intros Hup Hmsg Hst Hne.
  unfold envelope_messages in Hmsg. unfold envelope_statuses in Hst.
  unfold Webhook.POST.
  unfold try_catch, bind at 1. cbn [Webhook.request_json ret].
  unfold bind at 1. cbn [Webhook.first_change ret].
  unfold bind at 1. fold (raw_log c).
  destruct (insert_log_up (raw_log c) w Hup)
    as (w1 & -> & Hrows1 & Hlogs1 & _ & Hup1).
  rewrite Hmsg, Hst.
  assert (Hsome : Webhook.non_empty (Some statuses) = true)
    by (destruct statuses; [contradiction | reflexivity]).
  rewrite Hsome. cbn [Webhook.items].
  unfold bind at 1. unfold bind at 1.
  destruct (status_updates_up statuses w1 Hup1)
    as (w2 & -> & Hrows2 & Hlogs2 & Hup2).
  unfold bind at 1.
  destruct (insert_log_up
              (mkLog "status_update" (LoggedBody c) true None) w2 Hup2)
    as (w3 & -> & Hrows3 & Hlogs3 & _ & _).
  cbn [ret]. eexists. split; [reflexivity|].
  rewrite Hrows3, Hrows2, Hrows1, statuses_one_by_one.
  rewrite Hlogs3, Hlogs2, Hlogs1, <- app_assoc. auto.
Qed.

Lemma status_delivery_applies_last_update_witness :
  let c := Some (mkChange (Some "messages")
             (Some (mkValue None
                (Some [mkStatus "wamid.OUT1" "delivered";
                       mkStatus "wamid.OUT1" "read";
                       mkStatus "wamid.GONE" "failed"])
                None))) in
  let w := mkWorld (messages sample_thread) [] 1700000005000 [] [] [] in
  exists w',
    Webhook.POST (Envelope c) w = (Ok (mkHttp 200 "ok"), w') /\
    map (fun r => (message_id r, Table.status r)) (messages w')
      = [("wamid.IN1", Some "received"); ("wamid.OUT1", Some "read")].
Proof.
  intros c w.
  destruct (status_delivery_applies_last_update c
              [mkStatus "wamid.OUT1" "delivered";
               mkStatus "wamid.OUT1" "read";
               mkStatus "wamid.GONE" "failed"] w)
    as (w' & Hpost & Hrows & _).
  - constructor.
  - reflexivity.
  - reflexivity.
  - discriminate.
  - exists w'. split; [exact Hpost|]. rewrite Hrows. vm_compute. reflexivity.
Defined.

(** X14.  Whatever the store does, a delivery that carries no message
    adds no row and removes none: every row stays in its place, and is
    either untouched or has received the status of an update of the batch
    that names its [message_id]. *)
Theorem status_delivery_touches_named_rows_only
    (c : option Change) (w : World) :
  Webhook.non_empty (envelope_messages c) = false ->
  exists f,
    messages (snd (Webhook.POST (Envelope c) w)) = map f (messages w) /\
    forall r,
      f r = r \/
      exists s,
        In s (Webhook.items (envelope_statuses c)) /\
        st_id s = message_id r /\
        f r = set_status (st_status s) r.
Proof.
  intros Hmsg.
  remember (messages w) as rows0 eqn:Hrows0.
  set (R := fun rows : list Row =>
       exists f,
         rows = map f rows0 /\
         forall r,
           f r = r \/
           exists s,
             In s (Webhook.items (envelope_statuses c)) /\
             st_id s = message_id r /\
             f r = set_status (st_status s) r).
  set (P := fun w0 : World => R (messages w0)).
  change (P (snd (Webhook.POST (Envelope c) w))).
  assert (Hstart : P w).
  { exists (fun r => r). split; [rewrite map_id; symmetry; exact Hrows0 | auto]. }
  clear Hrows0.
  assert (Hlog : forall l, takes P P (Store.insert_log l ;;; ret tt)).
  { intros l. apply (takes_bind P P P); [apply takes_insert_log | | auto].
    intros; apply takes_ret; auto. }
  unfold envelope_messages in Hmsg.
  unfold Webhook.POST.
  match goal with
  | |- context [try_catch (bind _ ?k) ?h] => set (K := k); set (handler := h)
  end.
  change (P (snd (try_catch (K (Some c)) handler w))).
  revert w Hstart. change (takes P P (try_catch (K (Some c)) handler)).
  apply (takes_try_catch P P P); [| |auto].
  - unfold K.
    match goal with
    | |- context [bind _ ?k] => set (K2 := k)
    end.
    change (takes P P (K2 c)). unfold K2. cbv beta.
    apply (takes_bind P P P); [apply takes_insert_log| |auto].
    intros _. apply (takes_bind P P P); [|intros; apply takes_ret; auto|auto].
    rewrite Hmsg.
    destruct (Webhook.non_empty
                (match Webhook.change_value c with
                 | Some v => v_statuses v
                 | None => None
                 end)) eqn:Hne; [|apply takes_ret; auto].
    apply (takes_bind P P P); [|intros; apply Hlog|auto].
    apply takes_for_each. intros st Hin.
    apply (takes_bind P P P); [|intros; apply takes_ret; auto|auto].
    apply takes_update_status. intros rows (f & Hrows & Hf).
    exists (fun r => if message_id (f r) =? st_id st
                     then set_status (st_status st) (f r) else f r).
    split; [rewrite Hrows, map_map; reflexivity|].
    intros r. destruct (Hf r) as [Hsame | (s0 & Hs0 & Hid0 & Hset)].
    + rewrite Hsame. destruct (message_id r =? st_id st) eqn:E; [|auto].
      right. exists st. apply String.eqb_eq in E.
      split; [exact Hin|]. split; [symmetry; exact E | reflexivity].
    + rewrite Hset. cbn [message_id set_status].
      destruct (message_id r =? st_id st) eqn:E.
      * right. exists st. apply String.eqb_eq in E.
        split; [exact Hin|]. split; [symmetry; exact E | reflexivity].
      * right. exists s0. auto.
  - intros e. unfold handler.
    apply (takes_bind P P P); [|intros; apply takes_ret; auto|auto].
    apply (takes_try_catch P P P); [apply Hlog| |auto].
    intros; apply takes_ret; auto.
Qed.

Lemma status_delivery_touches_named_rows_only_witness :
  let c := Some (mkChange (Some "messages")
             (Some (mkValue None
                (Some [mkStatus "wamid.OUT1" "delivered"]) None))) in
  let w := mkWorld (messages sample_thread) [] 1700000005000
             [(10%N, Healthy); (900%N, ErrorResult "timeout")] [] [] in
  exists f,
    messages (snd (Webhook.POST (Envelope c) w)) = map f (messages w).
Proof.
  intros c w.
  destruct (status_delivery_touches_named_rows_only c w) as (f & Hf & _).
  - reflexivity.
  - exists f. exact Hf.
Defined.

(* ================================================================== *)
(** ** Further properties of the human-activity gate *)
(* ================================================================== *)

(** A verdict of the gate, taken apart. *)
Lemma check_human_verdict_full
    (phone : option string) (w w' : World) (res : CheckHuman.Result) :
  CheckHuman.GET phone w = (Ok (json (CheckHuman.Verdict res)), w') ->
  exists ph,
    phone = Some ph /\ ph <> "" /\
    next_store_outcome w = Healthy /\
    w' = after_call w /\
    CheckHuman.phoneNumber res = gate_key ph /\
    CheckHuman.lastHumanResponseTime res
      = latest_human_reply (gate_key ph) (clock w - 7200000) (messages w) /\
    CheckHuman.humanActive res
      = CheckHuman.positive
          (hours_left (clock w') (CheckHuman.lastHumanResponseTime res)) /\
    CheckHuman.hoursRemaining res
      = two_decimals
          (hours_left (clock w') (CheckHuman.lastHumanResponseTime res)).
Proof.
  intros Hget.
  destruct phone as [ph|]; [|discriminate].
  destruct (ph =? "") eqn:Eph.
  { unfold CheckHuman.GET, try_catch in Hget. rewrite Eph in Hget.
    discriminate. }
  assert (Hne : ph <> "")
    by (intros ->; rewrite String.eqb_refl in Eph; discriminate).
  destruct (next_store_outcome w) eqn:Hout;
    try (destruct (check_human_store_down (Some ph) w)
           as (r & w1 & Hget' & _ & Hst);
         [rewrite Hout; discriminate
         |rewrite Hget' in Hget; inversion Hget; subst; contradiction]).
  destruct (check_human_on_healthy_store ph w Hne Hout)
    as (res' & Hget' & Hp & Hlast & Hactive & Hhours).
  rewrite Hget' in Hget. inversion Hget; subst res' w'.
  exists ph. rewrite after_call_clock. repeat split; auto.
Qed.

(** X15.  The gate reports an active human exactly when table [messages]
    holds an outbound row for the normalised number, not flagged as
    automated, whose timestamp is less than two hours before the instant
    the store answered the query. *)
Theorem check_human_active_iff_recent_reply
    (phone : option string) (w w' : World) (res : CheckHuman.Result) :
  CheckHuman.GET phone w = (Ok (json (CheckHuman.Verdict res)), w') ->
  CheckHuman.humanActive res = true <->
  exists row,
    In row (messages w) /\
    human_reply (CheckHuman.phoneNumber res) row = true /\
    clock w' - timestamp row < 2 * CheckHuman.hour.
Proof.
  intros Hget.
  destruct (check_human_verdict_full _ _ _ _ Hget)
    as (ph & -> & Hne & Hup & Hw' & Hp & Hlast & Hactive & _).
  pose proof (next_store_delay_nonneg w) as Hd.
  assert (Hclock : clock w' = clock w + next_store_delay w)
    by (rewrite Hw'; apply after_call_clock).
  rewrite Hp. unfold CheckHuman.hour. split.
  - intros Htrue. rewrite Htrue in Hactive. symmetry in Hactive.
    apply positive_true in Hactive.
    destruct (CheckHuman.lastHumanResponseTime res) as [ts|] eqn:E.
    + symmetry in Hlast. apply latest_human_reply_spec in Hlast.
      destruct Hlast as ((row & Hin & Hh & Ht) & _ & _).
      exists row. split; [exact Hin|]. split; [exact Hh|].
      rewrite Ht.
      destruct (Z_lt_le_dec (clock w' - ts) (2 * (1000 * 60 * 60)))
        as [Hlt|Hge]; [exact Hlt|].
      exfalso. rewrite (hours_left_outside (clock w') ts) in Hactive by lia.
      apply (Qlt_irrefl 0). exact Hactive.
    + exfalso. simpl in Hactive. apply (Qlt_irrefl 0). exact Hactive.
  - intros (row & Hin & Hh & Hrecent).
    destruct (human_reply_opens_window ph row w Hne Hup Hin Hh)
      as (res' & w'' & Hget' & Htrue).
    { unfold CheckHuman.hour. lia. }
    rewrite Hget' in Hget. inversion Hget; subst. exact Htrue.
Qed.

Lemma check_human_active_iff_recent_reply_witness :
  let w := mkWorld (messages sample_thread) [] 1700003600250 [] [] [] in
  exists res w',
    CheckHuman.GET (Some "254700000001") w
      = (Ok (json (CheckHuman.Verdict res)), w') /\
    CheckHuman.humanActive res = true /\
    exists row,
      In row (messages w) /\
      human_reply (CheckHuman.phoneNumber res) row = true /\
      clock w' - timestamp row < 2 * CheckHuman.hour.
Proof.
  intros w.
  eassert (H1 : CheckHuman.GET (Some "254700000001") w
                = (Ok (json (CheckHuman.Verdict _)), _))
    by (vm_compute; reflexivity).
  do 2 eexists. split; [exact H1|].
  split; [reflexivity|].
  apply (proj1 (check_human_active_iff_recent_reply _ _ _ _ H1)).
  reflexivity.
Defined.

(** X16.  The hours the gate reports are never negative; they are 0
    whenever it reports no active human; and they are at most 2 unless the
    reply it found is dated after the instant the store answered. *)
Theorem check_human_hours_are_bounded
    (phone : option string) (w w' : World) (res : CheckHuman.Result) :
  CheckHuman.GET phone w = (Ok (json (CheckHuman.Verdict res)), w') ->
  (0 <= CheckHuman.hoursRemaining res)%Q /\
  (CheckHuman.humanActive res = false ->
   (CheckHuman.hoursRemaining res == 0)%Q) /\
  (forall ts,
     CheckHuman.lastHumanResponseTime res = Some ts -> ts <= clock w' ->
     (CheckHuman.hoursRemaining res <= 2)%Q).
Proof.
  intros Hget.
  destruct (check_human_verdict_full _ _ _ _ Hget)
    as (ph & _ & _ & _ & _ & _ & _ & Hactive & Hhours).
  rewrite Hhours, Hactive.
  set (h := hours_left (clock w') (CheckHuman.lastHumanResponseTime res)).
  assert (Hh : (0 <= h)%Q) by apply hours_left_nonneg.
  split; [apply two_decimals_nonneg, Hh|]. split.
  - intros Hoff. unfold CheckHuman.positive in Hoff.
    apply negb_false_iff, Qle_bool_iff in Hoff.
    assert (Hz : (h == 0)%Q) by (apply Qle_antisym; assumption).
    rewrite (two_decimals_Proper _ _ Hz). vm_compute. reflexivity.
  - intros ts Hts Hpast. unfold h. rewrite Hts.
    assert (Htwo : (two_decimals (hours_left_after 0) == 2)%Q)
      by (vm_compute; reflexivity).
    rewrite <- Htwo.
    apply two_decimals_increasing, hours_left_after_decreasing. lia.
Qed.

Lemma check_human_hours_are_bounded_witness :
  let w := mkWorld (messages sample_thread) [] 1700003600250 [] [] [] in
  exists res w',
    CheckHuman.GET (Some "254700000001") w
      = (Ok (json (CheckHuman.Verdict res)), w') /\
    (0 <= CheckHuman.hoursRemaining res)%Q.
Proof.
  intros w.
  eassert (H1 : CheckHuman.GET (Some "254700000001") w
                = (Ok (json (CheckHuman.Verdict _)), _))
    by (vm_compute; reflexivity).
  do 2 eexists. split; [exact H1|].
  apply (check_human_hours_are_bounded _ _ _ _ H1).
Defined.

Lemma remove_all_app (p : ascii -> bool) (a b : string) :
  remove_all p (a ++ b) = remove_all p a ++ remove_all p b.
Proof.
  induction a as [|c r IH]; simpl; [reflexivity|].
  rewrite IH. destruct (p c); reflexivity.
Qed.

(** A plus sign or a white-space character more does not change the key
    the gate looks up. *)
Lemma gate_key_insert (a b : string) (c : ascii) :
  c = "+"%char \/ is_space c = true ->
  gate_key (a ++ String c b) = gate_key (a ++ b).
Proof.
  intros Hc. rewrite !gate_key_clean.
  unfold strip_spaces, strip_plus. rewrite !remove_all_app.
  f_equal. cbn [remove_all].
  destruct Hc as [->|Hc]; [reflexivity|].
  destruct (Ascii.eqb c "+") eqn:E.
  - apply Ascii.eqb_eq in E. subst c. discriminate.
  - cbn [remove_all]. rewrite Hc. reflexivity.
Qed.

(** X17.  The gate ignores formatting: a plus sign or a white-space
    character inserted anywhere in a query parameter that is not empty
    changes neither the answer nor the state the world is left in. *)
Theorem check_human_ignores_formatting
    (a b : string) (c : ascii) (w : World) :
  a ++ b <> "" ->
  c = "+"%char \/ is_space c = true ->
  CheckHuman.GET (Some (a ++ String c b)) w
  = CheckHuman.GET (Some (a ++ b)) w.
Proof.
  intros Hne Hc.
  unfold CheckHuman.GET.
  destruct (a ++ b =? "") eqn:E1; [apply String.eqb_eq in E1; contradiction|].
  destruct (a ++ String c b =? "") eqn:E2.
  { apply String.eqb_eq in E2. destruct a; discriminate. }
  fold (gate_key (a ++ String c b)). fold (gate_key (a ++ b)).
  rewrite (gate_key_insert a b c Hc). reflexivity.
Qed.

Lemma check_human_ignores_formatting_witness :
  CheckHuman.GET (Some "+254 700 000001") sample_thread
  = CheckHuman.GET (Some "+254700 000001") sample_thread.
Proof.
  apply (check_human_ignores_formatting "+254" "700 000001" " "%char).
  - discriminate.
  - right. reflexivity.
Defined.

(** X18.  The gate only reads.  Whatever the query and whatever the store
    does, the route returns a response, with status 200, 400 or 500;
    table [messages], the audit log and the calls made to the provider are
    as they were; the status is 400 exactly when the parameter is absent
    or empty; and an active human is only ever reported with status 200. *)
Theorem check_human_only_reads (phone : option string) (w : World) :
  exists r w',
    CheckHuman.GET phone w = (Ok r, w') /\
    messages w' = messages w /\
    webhook_logs w' = webhook_logs w /\
    provider_calls w' = provider_calls w /\
    (http_status r = 200 \/ http_status r = 400 \/ http_status r = 500) /\
    (http_status r = 400 <-> phone = None \/ phone = Some "") /\
    (CheckHuman.human_active (http_body r) = true -> http_status r = 200).
Proof.
  destruct phone as [p|].
  2:{ do 2 eexists. split; [reflexivity|]. simpl.
      repeat split; auto; try discriminate. }
  destruct (p =? "") eqn:Ep.
  { apply String.eqb_eq in Ep. subst p.
    do 2 eexists. split; [reflexivity|]. simpl.
    repeat split; auto; try discriminate. }
  assert (Hne : p <> "")
    by (intros ->; rewrite String.eqb_refl in Ep; discriminate).
  assert (Hnot400 : ~ (Some p = None \/ Some p = Some ""))
    by (intros [H|H]; [discriminate | inversion H; contradiction]).
  destruct (next_store_outcome w) eqn:Hout.
  - destruct (check_human_on_healthy_store p w Hne Hout)
      as (res & Hget & _).
    exists (json (CheckHuman.Verdict res)), (after_call w).
    split; [exact Hget|].
    unfold after_call, Store.call.
    destruct (store_script w) as [|[d o] rest]; simpl;
      repeat split; auto; try discriminate; try contradiction.
  - unfold CheckHuman.GET, try_catch. rewrite Ep.
    unfold bind at 1, now at 1. cbv beta iota zeta.
    unfold bind at 1, Store.select, Store.run, bind at 1, Store.call.
    unfold next_store_outcome in Hout.
    destruct (store_script w) as [|[d o] rest]; [discriminate|].
    subst o. simpl. do 2 eexists. split; [reflexivity|]. simpl.
    repeat split; auto; try discriminate; try contradiction.
  - unfold CheckHuman.GET, try_catch. rewrite Ep.
    unfold bind at 1, now at 1. cbv beta iota zeta.
    unfold bind at 1, Store.select, Store.run, bind at 1, Store.call.
    unfold next_store_outcome in Hout.
    destruct (store_script w) as [|[d o] rest]; [discriminate|].
    subst o. simpl. do 2 eexists. split; [reflexivity|]. simpl.
    repeat split; auto; try discriminate; try contradiction.
Qed.

(* ================================================================== *)
(** ** Further properties of the read path *)
(* ================================================================== *)

Lemma insert_desc_perm {A} (key : A -> Z) (x : A) (l : list A) :
  Permutation (insert_desc key x l) (x :: l).
Proof.
  induction l as [|y r IH]; simpl; [reflexivity|].
  destruct (key y <=? key x)%Z; [reflexivity|].
  rewrite IH. apply perm_swap.
Qed.

Lemma sort_desc_perm {A} (key : A -> Z) (l : list A) :
  Permutation (sort_desc key l) l.
Proof.
  induction l as [|x r IH]; simpl; [reflexivity|].
  fold (sort_desc key r). rewrite insert_desc_perm. constructor. exact IH.
Qed.

Lemma insert_desc_sorted {A} (key : A -> Z) (x : A) (l : list A) :
  newest_first key l -> newest_first key (insert_desc key x l).
Proof.
  unfold newest_first. induction l as [|y r IH]; simpl; intros Hs.
  - constructor; constructor.
  - inversion Hs as [|y' r' Hr Hall]; subst.
    destruct (key y <=? key x)%Z eqn:E.
    + apply Z.leb_le in E. constructor; [exact Hs|].
      constructor; [exact E|].
      rewrite Forall_forall in *. intros z Hz. specialize (Hall z Hz). lia.
    + apply Z.leb_gt in E. constructor; [apply IH, Hr|].
      rewrite Forall_forall in *. intros z Hz.
      apply (Permutation_in _ (insert_desc_perm key x r)) in Hz.
      destruct Hz as [<-|Hz]; [lia | apply Hall, Hz].
Qed.

Lemma sort_desc_sorted {A} (key : A -> Z) (l : list A) :
  newest_first key (sort_desc key l).
Proof.
  induction l as [|x r IH]; simpl; [constructor|].
  apply insert_desc_sorted, IH.
Qed.

Lemma in_firstn {A} (n : nat) (l : list A) (x : A) :
  In x (firstn n l) -> In x l.
Proof.
  revert n. induction l as [|y r IH]; intros n; destruct n; simpl;
    try contradiction.
  intros [->|H]; [auto | right; eapply IH; eassumption].
Qed.

Lemma newest_first_firstn {A} (key : A -> Z) (n : nat) (l : list A) :
  newest_first key l -> newest_first key (firstn n l).
Proof.
  unfold newest_first. revert n.
  induction l as [|x r IH]; intros n Hs; destruct n; simpl;
    try constructor.
  - inversion Hs; subst. apply IH. assumption.
  - inversion Hs as [|x' r' Hr Hall]; subst.
    rewrite Forall_forall in *. intros z Hz.
    apply Hall. eapply in_firstn; eassumption.
Qed.

Lemma newest_first_map {A B} (f : A -> B) (keyA : A -> Z) (keyB : B -> Z)
    (l : list A) :
  (forall a, keyB (f a) = keyA a) ->
  newest_first keyA l -> newest_first keyB (map f l).
Proof.
  unfold newest_first. intros Hkey.
  induction l as [|x r IH]; simpl; intros Hs; [constructor|].
  inversion Hs as [|x' r' Hr Hall]; subst.
  constructor; [apply IH, Hr|].
  rewrite Forall_forall in *. intros z Hz.
  apply in_map_iff in Hz. destruct Hz as (a & <- & Ha).
  rewrite !Hkey. apply Hall, Ha.
Qed.

(** X19.  What [getMessages] returns is read from table [messages] and
    leaves it as it was: at most [limit] rows, most recent first, all of
    them rows of the table, all filed under the number asked for
    (stripped of plus signs and white space) when one is given; and every
    row of the table when none is given and the table fits the limit. *)
Theorem getMessages_newest_first
    (phoneNumber : option string) (limit : nat) (w w' : World)
    (rows : list Row) :
  Whatsapp.getMessages phoneNumber limit w = (Ok rows, w') ->
  messages w' = messages w /\
  (List.length rows <= limit)%nat /\
  newest_first timestamp rows /\
  (forall r, In r rows -> In r (messages w)) /\
  (forall p r,
     phoneNumber = Some p -> p <> "" -> In r rows ->
     phone_number r = strip_spaces (strip_plus p)) /\
  (phoneNumber = None -> (List.length (messages w) <= limit)%nat ->
   Permutation rows (messages w)).
Proof.
  unfold Whatsapp.getMessages.
  match goal with
  | |- context [Store.select ?q0] => set (q := q0)
  end.
  unfold bind, Store.select, Store.run, bind, Store.call.
  intros Hget.
  assert (Hrows : rows = q (messages w) /\ messages w' = messages w).
  { destruct (store_script w) as [|[d o] rest]; [|destruct o];
      simpl in Hget; inversion Hget; subst; auto. }
  destruct Hrows as [-> Hsame]. clear Hget.
  split; [exact Hsame|].
  assert (Hshape : exists keep : Row -> bool,
            (forall rs,
               q rs = firstn limit (sort_desc timestamp (filter keep rs)))
            /\ (forall p r, phoneNumber = Some p -> p <> "" ->
                            keep r = true ->
                            phone_number r = strip_spaces (strip_plus p))
            /\ (phoneNumber = None -> forall r, keep r = true)).
  { unfold q. destruct phoneNumber as [p|].
    - destruct (p =? "") eqn:Ep.
      + exists (fun _ => true). split; [|split].
        * intros rs. rewrite filter_true. reflexivity.
        * intros p0 r H Hne. inversion H; subst.
          apply String.eqb_eq in Ep. contradiction.
        * discriminate.
      + exists (fun r => phone_number r =? strip_spaces (strip_plus p)).
        split; [reflexivity|]. split; [|discriminate].
        intros p0 r H _ Hk. inversion H; subst.
        apply String.eqb_eq. exact Hk.
    - exists (fun _ => true). split; [|split].
      + intros rs. rewrite filter_true. reflexivity.
      + discriminate.
      + reflexivity. }
  destruct Hshape as (keep & Hq & Hkeep & Hall).
  rewrite Hq. clear Hq q.
  split; [apply firstn_le_length|].
  split; [apply newest_first_firstn, sort_desc_sorted|].
  assert (Hin : forall r,
            In r (firstn limit (sort_desc timestamp (filter keep (messages w))))
            -> In r (messages w) /\ keep r = true).
  { intros r Hr. apply in_firstn in Hr.
    apply (Permutation_in _ (sort_desc_perm timestamp _)) in Hr.
    apply filter_In in Hr. exact Hr. }
  split; [intros r Hr; apply Hin, Hr|].
  split.
  - intros p r Hp Hne Hr. apply (Hkeep p r Hp Hne). apply Hin, Hr.
  - intros Hnone Hfits.
    assert (Hfilter : filter keep (messages w) = messages w).
    { rewrite (filter_ext keep (fun _ => true)) by (apply Hall, Hnone).
      apply filter_true. }
    rewrite Hfilter, firstn_all2.
    + apply sort_desc_perm.
    + rewrite (Permutation_length (sort_desc_perm timestamp (messages w))).
      exact Hfits.
Qed.

Lemma getMessages_newest_first_witness :
  exists rows w',
    Whatsapp.getMessages (Some "+254 700 000001") 1 sample_thread
      = (Ok rows, w') /\
    map message_id rows = ["wamid.OUT1"].
Proof.
  eassert (H : Whatsapp.getMessages (Some "+254 700 000001") 1 sample_thread
               = (Ok _, _)) by (vm_compute; reflexivity).
  destruct (getMessages_newest_first _ _ _ _ _ H) as (_ & _ & _ & _ & _ & _).
  do 2 eexists. split; [exact H|]. reflexivity.
Defined.

Lemma format_date (r : Row) : FetchRoute.date_sent (FetchRoute.format r) = timestamp r.
Proof. reflexivity. Qed.

Lemma getMessages_rows_ok (w w1 : World) (rows : list Row) :
  Whatsapp.getMessages None 1000 w = (Ok rows, w1) ->
  messages w1 = messages w /\
  webhook_logs w1 = webhook_logs w /\
  next_store_outcome w = Healthy /\
  rows = Store.limit 1000 (Store.order_timestamp_desc (messages w)).
Proof.
  unfold Whatsapp.getMessages, bind, Store.select, Store.run, bind,
    Store.call, next_store_outcome.
  destruct (store_script w) as [|[d o] rest]; [|destruct o];
    simpl; intros H; inversion H; subst; auto.
Qed.

Lemma getMessages_throws (w w1 : World) (e : thrown) :
  Whatsapp.getMessages None 1000 w = (Throw e, w1) ->
  messages w1 = messages w /\
  webhook_logs w1 = webhook_logs w /\
  next_store_outcome w <> Healthy.
Proof.
  unfold Whatsapp.getMessages, bind, Store.select, Store.run, bind,
    Store.call, next_store_outcome.
  destruct (store_script w) as [|[d o] rest]; [|destruct o];
    simpl; intros H; inversion H; subst;
    repeat split; discriminate.
Qed.

Lemma sorted_app_order {A} (R : A -> A -> Prop) (a b : list A) :
  StronglySorted R (a ++ b) ->
  forall x y, In x a -> In y b -> R x y.
Proof.
  induction a as [|z a IH]; simpl; intros Hs x y Hx Hy; [contradiction|].
  inversion Hs as [|z' l Hl Hall]; subst.
  destruct Hx as [<-|Hx].
  - rewrite Forall_forall in Hall. apply Hall, in_or_app. auto.
  - apply IH; assumption.
Qed.

(** X20.  The fetch route only reads, and always answers.  On a store
    that runs the query it answers 200 with the rows of table [messages],
    formatted, most recent first, each with direction "inbound" or
    "outbound-api": every row once when the table holds at most 1000, and
    otherwise 1000 of them, none of which is older than a row left out.
    On a store that does not run the query it answers 500 with the fixed
    message "Failed to fetch messages". *)
Theorem fetch_route_lists_newest_first (w : World) :
  exists r w',
    FetchRoute.GET w = (Ok r, w') /\
    messages w' = messages w /\
    webhook_logs w' = webhook_logs w /\
    (next_store_outcome w = Healthy ->
     exists kept dropped,
       r = json (FetchRoute.Messages (map FetchRoute.format kept)) /\
       Permutation (kept ++ dropped) (messages w) /\
       List.length kept = Nat.min 1000 (List.length (messages w)) /\
       newest_first FetchRoute.date_sent (map FetchRoute.format kept) /\
       (forall k d, In k kept -> In d dropped -> timestamp d <= timestamp k) /\
       Forall (fun m => FetchRoute.direction m = "inbound"
                        \/ FetchRoute.direction m = "outbound-api")
              (map FetchRoute.format kept)) /\
    (next_store_outcome w <> Healthy ->
     r = mkHttp 500 (FetchRoute.Failure "Failed to fetch messages")).
Proof.
  unfold FetchRoute.GET, try_catch, bind at 1.
  destruct (Whatsapp.getMessages None 1000 w) as [[rows|e] w1] eqn:Hget.
  - destruct (getMessages_rows_ok w w1 rows Hget)
      as (Hsame & Hlogs & Hup & Hrows).
    cbn [ret]. do 2 eexists. split; [reflexivity|].
    split; [exact Hsame|]. split; [exact Hlogs|]. split.
    + intros _.
      unfold Store.limit, Store.order_timestamp_desc in Hrows.
      set (sorted := sort_desc timestamp (messages w)) in *.
      exists rows, (skipn 1000 sorted). subst rows.
      split; [reflexivity|]. split; [|split; [|split; [|split]]].
      * rewrite firstn_skipn. apply sort_desc_perm.
      * rewrite length_firstn. unfold sorted.
        rewrite (Permutation_length (sort_desc_perm timestamp (messages w))).
        reflexivity.
      * apply (newest_first_map FetchRoute.format timestamp);
          [apply format_date|].
        apply newest_first_firstn, sort_desc_sorted.
      * intros k d Hk Hd.
        apply (sorted_app_order (fun a b => timestamp b <= timestamp a)
                 (firstn 1000 sorted) (skipn 1000 sorted));
          [|exact Hk | exact Hd].
        rewrite firstn_skipn. apply sort_desc_sorted.
      * apply Forall_forall. intros m Hm.
        apply in_map_iff in Hm. destruct Hm as (row & <- & _).
        unfold FetchRoute.format. cbn [FetchRoute.direction].
        destruct (FetchRoute.is_inbound row); auto.
    + intros Hdown. contradiction.
  - destruct (getMessages_throws w w1 e Hget) as (Hsame & Hlogs & Hdown).
    cbn [ret]. do 2 eexists. split; [reflexivity|].
    split; [exact Hsame|]. split; [exact Hlogs|]. split.
    + intros Hup. contradiction.
    + reflexivity.
Qed.

(* ================================================================== *)
(** ** Further properties of the dashboard *)
(* ================================================================== *)

Lemma push_keys (key : string) (m : FetchRoute.Message)
    (groups : list (string * list FetchRoute.Message)) :
  map fst (Page.push key m groups)
  = if in_dec string_dec key (map fst groups)
    then map fst groups
    else (map fst groups ++ [key])%list.
Proof.
  induction groups as [|[k ms] rest IH]; [reflexivity|].
  cbn [Page.push]. destruct (k =? key) eqn:E; cbn [map fst].
  - apply String.eqb_eq in E. subst k.
    destruct (in_dec string_dec key (key :: map fst rest)) as [_|Hn];
      [reflexivity|].
    exfalso. apply Hn. left. reflexivity.
  - apply String.eqb_neq in E. rewrite IH.
    destruct (in_dec string_dec key (map fst rest)) as [Hin|Hnot];
      destruct (in_dec string_dec key (k :: map fst rest)) as [Hin'|Hnot'];
      try reflexivity; exfalso.
    + apply Hnot'. right. exact Hin.
    + destruct Hin' as [Heq|Hin']; [contradiction | auto].
Qed.

Lemma push_entries (key : string) (m : FetchRoute.Message)
    (groups : list (string * list FetchRoute.Message))
    (k : string) (ms : list FetchRoute.Message) :
  NoDup (map fst groups) ->
  In (k, ms) (Page.push key m groups) <->
  (k <> key /\ In (k, ms) groups) \/
  (k = key /\
   ((exists old, In (key, old) groups /\ ms = (old ++ [m])%list) \/
    (~ In key (map fst groups) /\ ms = [m]))).
Proof.
  induction groups as [|[k0 ms0] rest IH]; simpl; intros Hnd.
  - split.
    + intros [H|[]]. inversion H; subst. right. split; [reflexivity|].
      right. auto.
    + intros [[_ []] | [-> [(old & [] & _) | [_ ->]]]]. left. reflexivity.
  - inversion Hnd as [|x l Hnotin Hnd']; subst.
    destruct (k0 =? key) eqn:E.
    + apply String.eqb_eq in E. subst k0. simpl. split.
      * intros [H|H].
        -- inversion H; subst. right. split; [reflexivity|]. left.
           exists ms0. auto.
        -- destruct (string_dec k key) as [->|Hne].
           ++ exfalso. apply Hnotin. apply (in_map fst) in H. exact H.
           ++ left. auto.
      * intros [[Hne [H|H]] | [-> [(old & [H|H] & ->) | [Hn _]]]].
        -- inversion H; subst. contradiction.
        -- right. exact H.
        -- inversion H; subst. left. reflexivity.
        -- exfalso. apply Hnotin. apply (in_map fst) in H. exact H.
        -- exfalso. apply Hn. left. reflexivity.
    + apply String.eqb_neq in E. simpl. rewrite (IH Hnd'). split.
      * intros [H | [[Hne H] | [-> [(old & H & ->) | [Hn ->]]]]].
        -- inversion H; subst. left. auto.
        -- left. auto.
        -- right. split; [reflexivity|]. left. exists old. auto.
        -- right. split; [reflexivity|]. right. split; [|reflexivity].
           intros [Heq|Hin]; [contradiction | auto].
      * intros [[Hne [H|H]] | [-> [(old & [H|H] & ->) | [Hn ->]]]].
        -- left. exact H.
        -- right. left. auto.
        -- inversion H; subst. contradiction.
        -- right. right. split; [reflexivity|]. left. exists old. auto.
        -- right. right. split; [reflexivity|]. right.
           split; [|reflexivity]. intros Hin. apply Hn. right. exact Hin.
Qed.

Lemma push_concat (key : string) (m : FetchRoute.Message)
    (groups : list (string * list FetchRoute.Message)) :
  Permutation (concat (map snd (Page.push key m groups)))
              (concat (map snd groups) ++ [m]).
Proof.
  induction groups as [|[k ms] rest IH]; simpl; [reflexivity|].
  destruct (k =? key); simpl.
  - rewrite <- !app_assoc. apply Permutation_app_head.
    apply Permutation_app_comm.
  - rewrite IH, app_assoc. reflexivity.
Qed.

(** What the grouping loop keeps, [seen] being the messages filed so
    far. *)
Lemma messageGroups_invariant
    (msgs seen : list FetchRoute.Message)
    (groups : list (string * list FetchRoute.Message)) :
  NoDup (map fst groups) ->
  (forall k ms,
     In (k, ms) groups <->
     ms <> [] /\ ms = filter (fun m => Page.group_key m =? k) seen) ->
  Permutation (concat (map snd groups)) seen ->
  let groups' :=
    fold_left (fun gs m => Page.push (Page.group_key m) m gs) msgs groups in
  NoDup (map fst groups') /\
  (forall k ms,
     In (k, ms) groups' <->
     ms <> [] /\
     ms = filter (fun m => Page.group_key m =? k) (seen ++ msgs)) /\
  Permutation (concat (map snd groups')) (seen ++ msgs).
Proof.
  revert seen groups.
  induction msgs as [|m rest IH]; intros seen groups Hnd Hin Hperm; simpl.
  - rewrite app_nil_r. auto.
  - replace (seen ++ m :: rest)%list with ((seen ++ [m]) ++ rest)%list
      by (rewrite <- app_assoc; reflexivity).
    apply IH.
    + rewrite push_keys.
      destruct (in_dec string_dec (Page.group_key m) (map fst groups))
        as [_|Hnew]; [exact Hnd|].
      apply NoDup_app; [exact Hnd | constructor; [intros []|constructor] |].
      intros x Hx [<-|[]]. contradiction.
    + intros k ms. rewrite (push_entries _ _ _ _ _ Hnd).
      rewrite filter_app. simpl.
      destruct (Page.group_key m =? k) eqn:E.
      * apply String.eqb_eq in E. subst k. split.
        -- intros [[Hne _] | [_ [(old & Hold & ->) | [Hnew ->]]]];
             [contradiction | |].
           ++ apply Hin in Hold. destruct Hold as [_ <-].
              split; [|reflexivity]. intros H.
              apply app_eq_nil in H. destruct H. discriminate.
           ++ split; [discriminate|].
              destruct (filter _ seen) as [|y ys] eqn:F; [reflexivity|].
              exfalso. apply Hnew.
              assert (Hg : In (Page.group_key m, y :: ys) groups)
                by (apply Hin; split; [discriminate | symmetry; exact F]).
              apply (in_map fst) in Hg. exact Hg.
        -- intros [_ ->]. right. split; [reflexivity|].
           destruct (filter (fun m0 => Page.group_key m0 =? Page.group_key m)
                            seen) as [|y ys] eqn:F.
           ++ right. split; [|reflexivity]. intros Hk.
              apply in_map_iff in Hk. destruct Hk as ([k0 old] & Hk & Hold).
              simpl in Hk. subst k0. apply Hin in Hold.
              destruct Hold as [Hne Heq]. rewrite F in Heq. contradiction.
           ++ left. exists (y :: ys). split; [|reflexivity].
              apply Hin. split; [discriminate | symmetry; exact F].
      * apply String.eqb_neq in E. rewrite app_nil_r. split.
        -- intros [[Hne H] | [-> _]]; [apply Hin, H | contradiction].
        -- intros H. left. split; [congruence | apply Hin, H].
    + rewrite push_concat. apply Permutation_app_tail. exact Hperm.
Qed.

(** The grouping loop ends when no key is an inherited name. *)
Lemma group_messages_ends (msgs : list FetchRoute.Message) :
  forall groups,
  (forall m, In m msgs -> is_inherited (Page.group_key m) = false) ->
  Page.group_messages msgs groups
  = Ok (fold_left (fun gs m => Page.push (Page.group_key m) m gs)
          msgs groups).
Proof.
  induction msgs as [|m rest IH]; intros groups Hkeys; [reflexivity|].
  cbn [Page.group_messages fold_left]. cbv zeta.
  rewrite (Hkeys m) by (left; reflexivity).
  apply IH. intros m' Hm'. apply Hkeys. right. exact Hm'.
Qed.

(** It throws when one is. *)
Lemma group_messages_throws (msgs : list FetchRoute.Message) :
  forall groups m,
  In m msgs -> is_inherited (Page.group_key m) = true ->
  exists e, Page.group_messages msgs groups = Throw e.
Proof.
  induction msgs as [|x rest IH]; intros groups m Hin Hkey; [contradiction|].
  cbn [Page.group_messages]. cbv zeta.
  destruct (is_inherited (Page.group_key x)) eqn:E; [eauto|].
  destruct Hin as [->|Hin]; [congruence|].
  eapply IH; eassumption.
Qed.

Lemma messageGroups_ends (msgs : list FetchRoute.Message) :
  (exists groups, Page.messageGroups msgs = Ok groups) <->
  (forall m, In m msgs -> is_inherited (Page.group_key m) = false).
Proof.
  unfold Page.messageGroups. split.
  - intros [groups Hok] m Hin.
    destruct (is_inherited (Page.group_key m)) eqn:E; [|reflexivity].
    destruct (group_messages_throws msgs [] m Hin E) as [e He].
    congruence.
  - intros Hkeys. eexists. apply group_messages_ends, Hkeys.
Qed.

(** The groups built from the messages received. *)
Lemma messageGroups_spec
    (msgs : list FetchRoute.Message)
    (groups : list (string * list FetchRoute.Message)) :
  Page.messageGroups msgs = Ok groups ->
  NoDup (map fst groups) /\
  (forall k ms,
     In (k, ms) groups <->
     ms <> [] /\ ms = filter (fun m => Page.group_key m =? k) msgs) /\
  Permutation (concat (map snd groups)) msgs.
Proof.
  intros Hok.
  assert (Hkeys : forall m, In m msgs ->
                            is_inherited (Page.group_key m) = false)
    by (apply messageGroups_ends; eauto).
  unfold Page.messageGroups in Hok.
  rewrite (group_messages_ends msgs [] Hkeys) in Hok.
  inversion Hok as [Hgroups].
  apply (messageGroups_invariant msgs [] []).
  - constructor.
  - intros k ms. simpl. split; [intros [] | intros [Hne ->]; contradiction].
  - reflexivity.
Qed.

(** X21.  Grouping throws, and no list is built, exactly when the key of
    some message is a name every object inherits, such as "constructor".
    Otherwise it loses nothing and duplicates nothing: the groups have
    distinct keys; the group of a key holds exactly the messages whose
    group key it is, in the order received, and no group is empty; and
    all groups together hold the messages received, each once. *)
Theorem messageGroups_is_a_partition (msgs : list FetchRoute.Message) :
  ((exists groups, Page.messageGroups msgs = Ok groups) <->
   (forall m, In m msgs -> is_inherited (Page.group_key m) = false)) /\
  (forall groups,
     Page.messageGroups msgs = Ok groups ->
     NoDup (map fst groups) /\
     (forall k ms,
        In (k, ms) groups <->
        ms <> [] /\ ms = filter (fun m => Page.group_key m =? k) msgs) /\
     Permutation (concat (map snd groups)) msgs).
Proof.
  split; [apply messageGroups_ends | apply messageGroups_spec].
Qed.

Lemma messageGroups_is_a_partition_witness :
  exists groups,
    Page.messageGroups (map FetchRoute.format (messages sample_thread))
    = Ok groups /\
    map fst groups = ["254700000001"; "106540352242922"] /\
    Permutation (concat (map snd groups))
      (map FetchRoute.format (messages sample_thread)).
Proof.
  eassert (H : Page.messageGroups
                 (map FetchRoute.format (messages sample_thread)) = Ok _)
    by (vm_compute; reflexivity).
  eexists. split; [exact H|]. split; [reflexivity|].
  exact (proj2 (proj2
           (proj2 (messageGroups_is_a_partition
                     (map FetchRoute.format (messages sample_thread)))
              _ H))).
Defined.

Lemma concat_perm {A} (l l' : list (list A)) :
  Permutation l l' -> Permutation (concat l) (concat l').
Proof.
  induction 1; simpl.
  - reflexivity.
  - apply Permutation_app_head. assumption.
  - rewrite !app_assoc. apply Permutation_app_tail, Permutation_app_comm.
  - etransitivity; eassumption.
Qed.

Lemma filter_partition_perm {A} (f : A -> bool) (l : list A) :
  Permutation (filter f l ++ filter (fun x => negb (f x)) l) l.
Proof.
  induction l as [|x r IH]; cbn [filter]; [reflexivity|].
  destruct (f x); cbn [negb app].
  - apply perm_skip, IH.
  - apply Permutation_sym, Permutation_cons_app, Permutation_sym, IH.
Qed.

(** [Object.entries] lists every entry once. *)
Lemma entries_perm {A} (object : list (string * A)) :
  Permutation (entries object) object.
Proof.
  unfold entries.
  etransitivity; [|apply (filter_partition_perm
                            (fun entry => is_array_index (fst entry)))].
  apply Permutation_app_tail, sort_desc_perm.
Qed.

(** The conversations [conversationList] makes of the groups. *)
Lemma conversationList_entries
    (msgs : list FetchRoute.Message) (convs : list Page.Conversation) :
  Page.conversationList msgs = Ok convs ->
  exists groups,
    Page.messageGroups msgs = Ok groups /\
    newest_first Page.last_date convs /\
    Permutation convs
      (map (fun entry : string * list FetchRoute.Message =>
              Page.mkConversation (fst entry)
                (sort_desc FetchRoute.date_sent (snd entry))
                (hd_error (sort_desc FetchRoute.date_sent (snd entry))))
           groups).
Proof.
  unfold Page.conversationList.
  destruct (Page.messageGroups msgs) as [groups|e]; [|discriminate].
  intros H. inversion H as [Hconvs]. exists groups.
  split; [reflexivity|]. split; [apply sort_desc_sorted|].
  etransitivity; [apply sort_desc_perm|].
  etransitivity; [apply Permutation_map, entries_perm|].
  erewrite map_ext; [reflexivity|]. intros [k ms]. reflexivity.
Qed.

(** A conversation of the list is the sorted group of its key. *)
Lemma conversationList_In
    (msgs : list FetchRoute.Message) (convs : list Page.Conversation)
    (conv : Page.Conversation) :
  Page.conversationList msgs = Ok convs -> In conv convs ->
  exists ms,
    ms <> [] /\
    ms = filter (fun m => Page.group_key m =? Page.phoneNumber conv) msgs /\
    conv = Page.mkConversation (Page.phoneNumber conv)
             (sort_desc FetchRoute.date_sent ms)
             (hd_error (sort_desc FetchRoute.date_sent ms)).
Proof.
  intros Hok Hin.
  destruct (conversationList_entries msgs convs Hok)
    as (groups & Hgroups & _ & Hperm).
  apply (Permutation_in _ Hperm) in Hin.
  apply in_map_iff in Hin. destruct Hin as ([k ms] & <- & Hin).
  destruct (messageGroups_spec msgs groups Hgroups) as (_ & Hpart & _).
  apply Hpart in Hin. destruct Hin as [Hne Hms].
  exists ms. cbn [fst snd Page.phoneNumber]. auto.
Qed.

(** X22.  Every conversation of the list holds exactly the messages
    filed under its key, most recent first, and at least one; its
    [lastMessage] is the first of them, and no message of the
    conversation is more recent. *)
Theorem conversation_last_message_is_newest
    (msgs : list FetchRoute.Message) (convs : list Page.Conversation)
    (conv : Page.Conversation) :
  Page.conversationList msgs = Ok convs ->
  In conv convs ->
  Permutation (Page.messages conv)
    (filter (fun m => Page.group_key m =? Page.phoneNumber conv) msgs) /\
  newest_first FetchRoute.date_sent (Page.messages conv) /\
  exists last,
    Page.lastMessage conv = Some last /\
    hd_error (Page.messages conv) = Some last /\
    Page.group_key last = Page.phoneNumber conv /\
    In last msgs /\
    forall m, In m (Page.messages conv) ->
              FetchRoute.date_sent m <= FetchRoute.date_sent last.
Proof.
  intros Hok Hin.
  destruct (conversationList_In msgs convs conv Hok Hin)
    as (ms & Hne & Hms & Hconv).
  set (k := Page.phoneNumber conv) in *. rewrite Hconv.
  cbn [Page.messages Page.phoneNumber Page.lastMessage].
  split; [rewrite <- Hms; apply sort_desc_perm|].
  split; [apply sort_desc_sorted|].
  pose proof (sort_desc_head FetchRoute.date_sent ms) as Hhead.
  destruct (sort_desc FetchRoute.date_sent ms) as [|x l] eqn:Es;
    [contradiction|].
  destruct Hhead as [Hx Hmax].
  exists x. split; [reflexivity|]. split; [reflexivity|].
  assert (Hxin : In x (filter (fun m => Page.group_key m =? k) msgs))
    by (rewrite <- Hms; exact Hx).
  apply filter_In in Hxin. destruct Hxin as [Hxm Hxk].
  apply String.eqb_eq in Hxk.
  split; [exact Hxk|]. split; [exact Hxm|].
  intros m Hm. apply Hmax.
  apply (Permutation_in _ (sort_desc_perm FetchRoute.date_sent ms)).
  rewrite Es. exact Hm.
Qed.

Lemma conversation_last_message_is_newest_witness :
  exists convs conv last,
    Page.conversationList (map FetchRoute.format (messages sample_thread))
    = Ok convs /\
    In conv convs /\
    Page.lastMessage conv = Some last /\
    FetchRoute.sid last = "wamid.OUT1".
Proof.
  eassert (Hok : Page.conversationList
                   (map FetchRoute.format (messages sample_thread)) = Ok _)
    by (vm_compute; reflexivity).
  match type of Hok with
  | _ = Ok (?conv :: ?rest) =>
      assert (Hin : In conv (conv :: rest)) by (left; reflexivity)
  end.
  destruct (conversation_last_message_is_newest _ _ _ Hok Hin)
    as (_ & _ & last & Hlast & _).
  do 3 eexists. split; [exact Hok|]. split; [exact Hin|].
  split; [exact Hlast|].
  vm_compute in Hlast. inversion Hlast. reflexivity.
Defined.

(** X23.  The conversation list is built exactly when no key is a name
    every object inherits.  It then has one conversation per group key,
    ordered by the date of their last message, most recent first, and the
    conversations together hold the messages received, each once. *)
Theorem conversationList_covers_all_messages
    (msgs : list FetchRoute.Message) :
  ((exists convs, Page.conversationList msgs = Ok convs) <->
   (forall m, In m msgs -> is_inherited (Page.group_key m) = false)) /\
  (forall convs,
     Page.conversationList msgs = Ok convs ->
     NoDup (map Page.phoneNumber convs) /\
     newest_first Page.last_date convs /\
     Permutation (concat (map Page.messages convs)) msgs).
Proof.
  split.
  - rewrite <- messageGroups_ends. unfold Page.conversationList.
    destruct (Page.messageGroups msgs) as [groups|e].
    + split; intros _; eauto.
    + split; intros [x H]; discriminate.
  - intros convs Hok.
    destruct (conversationList_entries msgs convs Hok)
      as (groups & Hgroups & Hsorted & Hperm).
    destruct (messageGroups_spec msgs groups Hgroups) as (Hnd & _ & Hall).
    split; [|split; [exact Hsorted|]].
    + apply (Permutation_NoDup
               (Permutation_map Page.phoneNumber (Permutation_sym Hperm))).
      rewrite map_map. cbn [Page.phoneNumber]. exact Hnd.
    + etransitivity;
        [apply concat_perm, Permutation_map, Hperm|].
      rewrite map_map. cbn [Page.messages].
      etransitivity; [|exact Hall].
      clear. induction groups as [|[k ms] rest IH]; simpl; [reflexivity|].
      apply Permutation_app; [apply sort_desc_perm | exact IH].
Qed.

Lemma conversationList_covers_all_messages_witness :
  exists convs,
    Page.conversationList (map FetchRoute.format (messages sample_thread))
    = Ok convs /\
    Permutation (concat (map Page.messages convs))
      (map FetchRoute.format (messages sample_thread)).
Proof.
  eassert (Hok : Page.conversationList
                   (map FetchRoute.format (messages sample_thread)) = Ok _)
    by (vm_compute; reflexivity).
  eexists. split; [exact Hok|].
  exact (proj2 (proj2
           (proj2 (conversationList_covers_all_messages
                     (map FetchRoute.format (messages sample_thread)))
              _ Hok))).
Defined.

(* ------------------------------------------------------------------ *)
(** *** The analytics of the dashboard *)
(* ------------------------------------------------------------------ *)

(** What one message adds to the counters. *)
Lemma count_message_step
    (now : Z) (conv : Page.Conversation) (c : Page.Counters)
    (m : FetchRoute.Message) (i : nat) :
  let c' := Page.count_message now conv c m i in
  Page.n_totalMessages c' = Page.n_totalMessages c + 1 /\
  Page.n_aiMessages c' + Page.n_humanMessages c' =
    Page.n_aiMessages c + Page.n_humanMessages c
    + (if FetchRoute.direction m =? "outbound-api" then 1 else 0) /\
  Page.n_messagesLast24h c <= Page.n_messagesLast24h c' /\
  Page.n_messagesLast24h c' - Page.n_messagesLast24h c
    <= Page.n_messagesLast7d c' - Page.n_messagesLast7d c /\
  Page.n_messagesLast7d c' - Page.n_messagesLast7d c <= 1.
Proof.
  unfold Page.count_message.
  destruct (FetchRoute.direction m =? "outbound-api");
    [destruct (nth_error (Page.messages conv) (i + 1)) as [prev|];
     [destruct (FetchRoute.direction prev =? "inbound");
      [destruct (FetchRoute.date_sent m - FetchRoute.date_sent prev
                 <? 30000)%Z|]|]|];
    cbn [Page.n_totalMessages Page.n_aiMessages Page.n_humanMessages
         Page.n_messagesLast24h Page.n_messagesLast7d];
    destruct (now - 24 * 60 * 60 * 1000 <? FetchRoute.date_sent m)%Z eqn:E1;
    destruct (now - 7 * 24 * 60 * 60 * 1000 <? FetchRoute.date_sent m)%Z
      eqn:E2;
    try apply Z.ltb_lt in E1; try apply Z.ltb_ge in E1;
    try apply Z.ltb_lt in E2; try apply Z.ltb_ge in E2;
    repeat split; lia.
Qed.

Lemma forEach_counts
    (now : Z) (conv : Page.Conversation) (xs : list FetchRoute.Message) :
  forall (i : nat) (c : Page.Counters),
  let c' := Page.forEach_indexed (Page.count_message now conv) i xs c in
  Page.n_totalMessages c' =
    Page.n_totalMessages c + Z.of_nat (List.length xs) /\
  Page.n_aiMessages c' + Page.n_humanMessages c' =
    Page.n_aiMessages c + Page.n_humanMessages c
    + Z.of_nat
        (List.length
           (filter (fun m => FetchRoute.direction m =? "outbound-api") xs)) /\
  Page.n_messagesLast24h c <= Page.n_messagesLast24h c' /\
  Page.n_messagesLast24h c' - Page.n_messagesLast24h c
    <= Page.n_messagesLast7d c' - Page.n_messagesLast7d c /\
  Page.n_messagesLast7d c' - Page.n_messagesLast7d c
    <= Z.of_nat (List.length xs).
Proof.
  induction xs as [|m rest IH]; intros i c.
  - cbn. repeat split; lia.
  - cbn [Page.forEach_indexed].
    specialize (IH (S i) (Page.count_message now conv c m i)).
    pose proof (count_message_step now conv c m i) as Hstep.
    cbv zeta in IH, Hstep |- *.
    destruct IH as (I1 & I3 & I4 & I5 & I6).
    destruct Hstep as (S1 & S3 & S4 & S5 & S6).
    cbn [filter].
    destruct (FetchRoute.direction m =? "outbound-api");
      cbn [List.length]; repeat split; lia.
Qed.

Lemma count_all_counts (now : Z) (conversations : list Page.Conversation) :
  forall c : Page.Counters,
  let c' :=
    fold_left
      (fun c conv =>
         Page.forEach_indexed (Page.count_message now conv) 0
           (Page.messages conv) c)
      conversations c in
  Page.n_totalMessages c' =
    Page.n_totalMessages c
    + total (fun conv => Z.of_nat (List.length (Page.messages conv)))
        conversations /\
  Page.n_aiMessages c' + Page.n_humanMessages c' =
    Page.n_aiMessages c + Page.n_humanMessages c
    + total outbound_count conversations /\
  Page.n_messagesLast24h c <= Page.n_messagesLast24h c' /\
  Page.n_messagesLast24h c' - Page.n_messagesLast24h c
    <= Page.n_messagesLast7d c' - Page.n_messagesLast7d c /\
  Page.n_messagesLast7d c' - Page.n_messagesLast7d c
    <= Page.n_totalMessages c' - Page.n_totalMessages c.
Proof.
  induction conversations as [|conv rest IH]; intros c.
  - cbn. repeat split; lia.
  - cbn [fold_left].
    specialize
      (IH (Page.forEach_indexed (Page.count_message now conv) 0
             (Page.messages conv) c)).
    pose proof (forEach_counts now conv (Page.messages conv) 0%nat c)
      as Hconv.
    cbv zeta in IH, Hconv |- *.
    destruct IH as (I1 & I3 & I4 & I5 & I6).
    destruct Hconv as (S1 & S3 & S4 & S5 & S6).
    unfold total in *. cbn [fold_right].
    change (Z.of_nat
              (List.length
                 (filter (fun m => FetchRoute.direction m =? "outbound-api")
                    (Page.messages conv))))
      with (outbound_count conv) in S3.
    repeat split; lia.
Qed.

(** X24.  The counts of the analytics panel add up: [totalMessages] is
    the number of messages of all conversations; every message sent by the
    business is counted once, as written by the automation or by a person;
    and of the messages, those of the last 24 hours are among those of the
    last 7 days. *)
Theorem analytics_counts_add_up
    (now : Z) (conversations : list Page.Conversation) :
  let a := Page.calculateAnalytics now conversations in
  Page.totalMessages a =
    total (fun conv => Z.of_nat (List.length (Page.messages conv)))
      conversations /\
  Page.aiMessages a + Page.humanMessages a =
    total outbound_count conversations /\
  0 <= Page.messagesLast24h a <= Page.messagesLast7d a /\
  Page.messagesLast7d a <= Page.totalMessages a.
Proof.
  pose proof (count_all_counts now conversations
                (Page.mkCounters 0 0 0 0 0 0 0)) as H.
  cbv zeta in H |- *.
  unfold Page.calculateAnalytics, Page.count_all.
  cbn [Page.totalMessages Page.aiMessages Page.humanMessages
       Page.messagesLast24h Page.messagesLast7d].
  cbn [Page.n_totalMessages Page.n_aiMessages Page.n_humanMessages
       Page.n_messagesLast24h Page.n_messagesLast7d] in H.
  destruct H as (H1 & H3 & H4 & H5 & H6).
  repeat split; lia.
Qed.

(** In a list that is newest first, an item is no older than the items
    after it. *)
Lemma newest_first_nth {A} (key : A -> Z) (l : list A) (i j : nat) (x y : A) :
  newest_first key l -> (i < j)%nat ->
  nth_error l i = Some x -> nth_error l j = Some y ->
  key y <= key x.
Proof.
  unfold newest_first. intros Hs. revert i j.
  induction Hs as [|z r Hr IH Hall]; intros i j Hij Hx Hy.
  - destruct i; discriminate.
  - destruct j as [|j]; [lia|]. cbn [nth_error] in Hy.
    destruct i as [|i]; cbn [nth_error] in Hx.
    + inversion Hx; subst z. rewrite Forall_forall in Hall.
      apply Hall. eapply nth_error_In; eassumption.
    + apply (IH i j); [lia | assumption..].
Qed.

(** X25.  The label of the message pane does not look at the time a reply
    took.  In a conversation whose messages are kept most recent first,
    as [fetchMessages] builds them, a message is labelled "AI Response"
    exactly when it was sent by the business and the message shown after
    it, the next one in time, is inbound.  ([calculateAnalytics] looks at
    the message before it, and at the 30 seconds.) *)
Theorem pane_label_ignores_response_time
    (conv : Page.Conversation) (j : nat) (m : FetchRoute.Message) :
  newest_first FetchRoute.date_sent (Page.messages conv) ->
  nth_error (Page.shownMessages conv) j = Some m ->
  Page.label conv j m = Page.ai_response <->
  FetchRoute.direction m = "outbound-api" /\
  exists next,
    nth_error (Page.shownMessages conv) (S j) = Some next /\
    FetchRoute.direction next = "inbound".
Proof.
  intros Hsorted Hm.
  unfold Page.label, Page.isAIMessage.
  replace (j + 1)%nat with (S j) by lia.
  destruct (FetchRoute.direction m =? "outbound-api") eqn:Edir.
  2:{ apply String.eqb_neq in Edir. split; [discriminate|].
      intros [H _]. contradiction. }
  apply String.eqb_eq in Edir. cbn [negb].
  destruct (nth_error (Page.shownMessages conv) (S j)) as [next|] eqn:Enext.
  2:{ split; [discriminate|]. intros (_ & next & H & _). discriminate. }
  destruct (FetchRoute.direction next =? "inbound") eqn:Ein.
  2:{ apply String.eqb_neq in Ein. split; [discriminate|].
      intros (_ & next' & H & Hd). inversion H; subst next'. contradiction. }
  apply String.eqb_eq in Ein.
  assert (Hle : FetchRoute.date_sent m <= FetchRoute.date_sent next).
  { unfold Page.shownMessages in Hm, Enext.
    rewrite nth_error_rev in Hm, Enext.
    destruct (Nat.ltb (S j) (List.length (Page.messages conv))) eqn:E1;
      [|discriminate].
    destruct (Nat.ltb j (List.length (Page.messages conv))) eqn:E2;
      [|discriminate].
    apply Nat.ltb_lt in E1.
    apply (newest_first_nth FetchRoute.date_sent (Page.messages conv)
             (List.length (Page.messages conv) - S (S j))
             (List.length (Page.messages conv) - S j) next m);
      [exact Hsorted | lia | exact Enext | exact Hm]. }
  assert (Hfast : (FetchRoute.date_sent m - FetchRoute.date_sent next
                   <? 30000)%Z = true) by (apply Z.ltb_lt; lia).
  rewrite Hfast. split; [|reflexivity].
  intros _. split; [exact Edir|]. exists next. auto.
Qed.

Lemma pane_label_ignores_response_time_witness :
  let reply :=
    FetchRoute.mkMessage "wamid.OUT7" "106540352242922" "254700000001"
      "one moment" 1700000000000 "sent" "outbound-api" "text" false in
  let question :=
    FetchRoute.mkMessage "wamid.IN8" "254700000001" "106540352242922"
      "still there?" 1700086400000 "received" "inbound" "text" false in
  let conv := Page.mkConversation "254700000001" [question; reply]
                (Some question) in
  Page.label conv 0 reply = Page.ai_response.
Proof.
  intros reply question conv.
  apply (pane_label_ignores_response_time conv 0 reply).
  - repeat constructor. vm_compute. discriminate.
  - reflexivity.
  - split; [reflexivity|]. exists question. split; reflexivity.
Defined.

(* ------------------------------------------------------------------ *)
(** *** The 24-hour badge, the filters and the order of the list *)
(* ------------------------------------------------------------------ *)

(** Hours compared through milliseconds, for a number of hours that is a
    double and that a millisecond more exceeds. *)
Lemma hoursSince_le (now t h : Z) :
  (double (inject_Z h) == inject_Z h)%Q ->
  (inject_Z h
   < double (inject_Z (h * 3600000 + 1) / inject_Z (1000 * 60 * 60)))%Q ->
  Qle_bool (Page.hoursSince now t) (inject_Z h)
  = (now - t <=? h * 3600000)%Z.
Proof.
  intros Hh Hnext. unfold Page.hoursSince.
  assert (Hmono : forall a b : Z, a <= b ->
            (double (inject_Z a / inject_Z (1000 * 60 * 60))
             <= double (inject_Z b / inject_Z (1000 * 60 * 60)))%Q).
  { intros a b Hab. apply double_le. unfold Qdiv.
    change (/ inject_Z (1000 * 60 * 60))%Q with (1 # 3600000)%Q.
    rewrite Zle_Qle in Hab. lra. }
  destruct (now - t <=? h * 3600000)%Z eqn:E.
  - apply Z.leb_le in E. apply Qle_bool_iff.
    pose proof (Hmono _ _ E) as Hle.
    assert (Heq : (double (inject_Z (h * 3600000) / inject_Z (1000 * 60 * 60))
                   == double (inject_Z h))%Q).
    { apply double_Proper. rewrite inject_Z_mult. unfold Qdiv.
      change (/ inject_Z (1000 * 60 * 60))%Q with (1 # 3600000)%Q.
      change (inject_Z 3600000) with (3600000 # 1)%Q. field. }
    rewrite Heq, Hh in Hle. exact Hle.
  - apply Z.leb_gt in E.
    destruct (Qle_bool _ (inject_Z h)) eqn:Eq; [|reflexivity].
    apply Qle_bool_iff in Eq. exfalso.
    pose proof (Hmono (h * 3600000 + 1) (now - t) ltac:(lia)) as Hge.
    lra.
Qed.

Lemma inTimeFilter_bucket
    (now : Z) (filter : Page.FilterType) (conv : Page.Conversation) :
  Page.inTimeFilter now filter conv = true <-> in_bucket now filter conv.
Proof.
  unfold Page.inTimeFilter, in_bucket. cbv zeta.
  destruct filter.
  - tauto.
  - change 4%Q with (inject_Z 4).
    rewrite hoursSince_le by (vm_compute; reflexivity). apply Z.leb_le.
  - change 8%Q with (inject_Z 8).
    rewrite hoursSince_le by (vm_compute; reflexivity). apply Z.leb_le.
  - change 24%Q with (inject_Z 24).
    rewrite hoursSince_le by (vm_compute; reflexivity). apply Z.leb_le.
  - change 24%Q with (inject_Z 24).
    rewrite hoursSince_le by (vm_compute; reflexivity).
    rewrite negb_true_iff, Z.leb_gt. reflexivity.
Qed.

(** X26.  A conversation of the list carries the "24h+" badge exactly
    when its most recent message came from the customer more than 24
    hours, to the millisecond, before now; and then every message of the
    conversation is older than 24 hours. *)
Theorem badge_24h_marks_unanswered_conversations
    (now : Z) (msgs : list FetchRoute.Message)
    (convs : list Page.Conversation) (conv : Page.Conversation) :
  Page.conversationList msgs = Ok convs ->
  In conv convs ->
  (Page.isOutside24HourWindow now conv = true <->
   exists last,
     hd_error (Page.messages conv) = Some last /\
     FetchRoute.direction last = "inbound" /\
     86400000 < now - FetchRoute.date_sent last) /\
  (Page.isOutside24HourWindow now conv = true ->
   forall m, In m msgs -> Page.group_key m = Page.phoneNumber conv ->
             86400000 < now - FetchRoute.date_sent m).
Proof.
  intros Hok Hin.
  destruct (conversationList_In msgs convs conv Hok Hin)
    as (ms & Hne & Hms & Hconv).
  set (k := Page.phoneNumber conv) in *. rewrite Hconv.
  unfold Page.isOutside24HourWindow.
  cbn [Page.messages Page.phoneNumber Page.lastMessage].
  pose proof (sort_desc_head FetchRoute.date_sent ms) as Hhead.
  destruct (sort_desc FetchRoute.date_sent ms) as [|x l] eqn:Es;
    [contradiction|].
  destruct Hhead as [Hx Hmax].
  cbn [hd_error]. cbv zeta.
  change 24%Q with (inject_Z 24).
  rewrite hoursSince_le by (vm_compute; reflexivity).
  assert (Hiff :
    (FetchRoute.direction x =? "inbound")
    && negb (now - FetchRoute.date_sent x <=? 24 * 3600000)%Z = true <->
    FetchRoute.direction x = "inbound" /\
    86400000 < now - FetchRoute.date_sent x).
  { rewrite andb_true_iff, negb_true_iff, Z.leb_gt, String.eqb_eq.
    reflexivity. }
  split.
  - rewrite Hiff. split.
    + intros H. exists x. split; [reflexivity | exact H].
    + intros (last & Hlast & H). inversion Hlast. subst last. exact H.
  - intros H. apply Hiff in H. destruct H as [_ Hold].
    intros m Hm Hk.
    assert (Hmin : In m ms).
    { rewrite Hms. apply filter_In. split; [exact Hm|].
      apply String.eqb_eq. exact Hk. }
    specialize (Hmax m Hmin). lia.
Qed.

Lemma badge_24h_marks_unanswered_conversations_witness :
  exists convs conv,
    Page.conversationList (map FetchRoute.format (messages sample_thread))
    = Ok convs /\
    In conv convs /\
    (Page.isOutside24HourWindow 1700090000000 conv = true <->
     exists last,
       hd_error (Page.messages conv) = Some last /\
       FetchRoute.direction last = "inbound" /\
       86400000 < 1700090000000 - FetchRoute.date_sent last).
Proof.
  eassert (Hok : Page.conversationList
                   (map FetchRoute.format (messages sample_thread)) = Ok _)
    by (vm_compute; reflexivity).
  match type of Hok with
  | _ = Ok (?conv :: ?rest) =>
      assert (Hin : In conv (conv :: rest)) by (left; reflexivity)
  end.
  do 2 eexists. split; [exact Hok|]. split; [exact Hin|].
  exact (proj1 (badge_24h_marks_unanswered_conversations
                  1700090000000 _ _ _ Hok Hin)).
Defined.

Lemma insert_sorted_perm {A} (cmp : A -> A -> Q) (x : A) (l : list A) :
  Permutation (Page.insert_sorted cmp x l) (x :: l).
Proof.
  induction l as [|y r IH]; cbn [Page.insert_sorted]; [reflexivity|].
  destruct (Qle_bool (cmp x y) 0); [reflexivity|].
  rewrite IH. apply perm_swap.
Qed.

Lemma page_sort_perm {A} (cmp : A -> A -> Q) (l : list A) :
  Permutation (Page.sort cmp l) l.
Proof.
  unfold Page.sort.
  induction l as [|x r IH]; cbn [fold_right]; [reflexivity|].
  rewrite insert_sorted_perm. apply perm_skip, IH.
Qed.

(** A comparator that orders by a key sorts by that key. *)
Lemma page_sort_sorted {A} (cmp : A -> A -> Q) (key : A -> Z) (l : list A) :
  (forall x y, Qle_bool (cmp x y) 0 = (key x <=? key y)%Z) ->
  oldest_first key (Page.sort cmp l).
Proof.
  intros Hcmp. unfold Page.sort, oldest_first.
  induction l as [|x r IH]; cbn [fold_right]; [constructor|].
  revert IH. generalize (fold_right (Page.insert_sorted cmp) [] r).
  intros s Hs. induction Hs as [|y s' Hs' IH' Hy];
    cbn [Page.insert_sorted].
  - constructor; [constructor | constructor].
  - rewrite Hcmp. destruct (key x <=? key y)%Z eqn:E.
    + apply Z.leb_le in E. constructor; [constructor; assumption|].
      constructor; [exact E|].
      rewrite Forall_forall in Hy |- *. intros z Hz.
      specialize (Hy z Hz). lia.
    + apply Z.leb_gt in E. constructor; [exact IH'|].
      rewrite Forall_forall in Hy |- *. intros z Hz.
      apply (Permutation_in _ (insert_sorted_perm cmp x s')) in Hz.
      destruct Hz as [<-|Hz]; [lia | apply Hy, Hz].
Qed.

(** Sorting a list that is in order leaves it as it is. *)
Lemma page_sort_fixed {A} (cmp : A -> A -> Q) (l : list A) :
  StronglySorted (fun a b => Qle_bool (cmp a b) 0 = true) l ->
  Page.sort cmp l = l.
Proof.
  unfold Page.sort. induction 1 as [|x r Hr IH Hx]; cbn [fold_right];
    [reflexivity|].
  rewrite IH. destruct r as [|y r']; cbn [Page.insert_sorted];
    [reflexivity|].
  inversion Hx as [|? ? Hxy _]. subst. rewrite Hxy. reflexivity.
Qed.

Lemma sorted_weaken {A} (R R' : A -> A -> Prop) (l : list A) :
  (forall a b, R a b -> R' a b) ->
  StronglySorted R l -> StronglySorted R' l.
Proof.
  intros Himp. induction 1 as [|x r Hr IH Hx]; constructor;
    [exact IH|].
  rewrite Forall_forall in Hx |- *. intros z Hz. apply Himp, Hx, Hz.
Qed.

Lemma Qle_bool_inject_Z (z : Z) : Qle_bool (inject_Z z) 0 = (z <=? 0)%Z.
Proof.
  unfold Qle_bool, inject_Z. cbn [Qnum Qden].
  rewrite Z.mul_1_r. reflexivity.
Qed.

Lemma compare_newest (now : Z) (a b : Page.Conversation) :
  Qle_bool (Page.compareConversations now Page.newest a b) 0 =
  (Page.last_date b <=? Page.last_date a)%Z.
Proof.
  unfold Page.compareConversations. cbv zeta.
  rewrite Qle_bool_inject_Z.
  destruct (Page.last_date b <=? Page.last_date a)%Z eqn:E;
    [apply Z.leb_le in E; apply Z.leb_le | apply Z.leb_gt in E;
     apply Z.leb_gt]; lia.
Qed.

Lemma compare_oldest (now : Z) (a b : Page.Conversation) :
  Qle_bool (Page.compareConversations now Page.oldest a b) 0 =
  (Page.last_date a <=? Page.last_date b)%Z.
Proof.
  unfold Page.compareConversations. cbv zeta.
  rewrite Qle_bool_inject_Z.
  destruct (Page.last_date a <=? Page.last_date b)%Z eqn:E;
    [apply Z.leb_le in E; apply Z.leb_le | apply Z.leb_gt in E;
     apply Z.leb_gt]; lia.
Qed.

(** The conversations [filterConversations] keeps, before it sorts
    them. *)
Lemma filterConversations_perm
    (now : Z) (sortBy : Page.SortType) (conversations : list Page.Conversation)
    (filter : Page.FilterType) (searchTerm : string) :
  Permutation
    (Page.filterConversations now sortBy conversations filter searchTerm)
    (List.filter
       (fun conv => (searchTerm =? "") || Page.matchesSearch searchTerm conv)
       (List.filter (Page.inTimeFilter now filter) conversations)).
Proof.
  unfold Page.filterConversations. cbv zeta.
  rewrite page_sort_perm.
  assert (Htime :
    match filter with
    | Page.filter_all => conversations
    | _ => List.filter (Page.inTimeFilter now filter) conversations
    end = List.filter (Page.inTimeFilter now filter) conversations).
  { destruct filter; try reflexivity.
    symmetry. rewrite (filter_ext _ (fun _ => true)); [|reflexivity].
    apply filter_true. }
  rewrite Htime.
  destruct (searchTerm =? ""); cbn [orb]; [|reflexivity].
  rewrite filter_true. reflexivity.
Qed.

Lemma filterConversations_In
    (now : Z) (sortBy : Page.SortType) (conversations : list Page.Conversation)
    (filter : Page.FilterType) (searchTerm : string)
    (conv : Page.Conversation) :
  In conv
     (Page.filterConversations now sortBy conversations filter searchTerm) <->
  In conv conversations /\
  in_bucket now filter conv /\
  (searchTerm = "" \/ Page.matchesSearch searchTerm conv = true).
Proof.
  pose proof (filterConversations_perm now sortBy conversations filter
                searchTerm) as Hperm.
  split.
  - intros H. apply (Permutation_in _ Hperm) in H.
    apply filter_In in H. destruct H as [H Hs].
    apply filter_In in H. destruct H as [H Ht].
    split; [exact H|]. split; [apply inTimeFilter_bucket, Ht|].
    apply orb_true_iff in Hs. destruct Hs as [Hs|Hs];
      [left; apply String.eqb_eq, Hs | right; exact Hs].
  - intros (H & Ht & Hs).
    apply (Permutation_in _ (Permutation_sym Hperm)).
    apply filter_In. split.
    + apply filter_In. split; [exact H | apply inTimeFilter_bucket, Ht].
    + apply orb_true_iff. destruct Hs as [Hs|Hs];
        [left; apply String.eqb_eq, Hs | right; exact Hs].
Qed.

(** X27.  The conversations shown are those of the list whose last
    message has the age the time filter asks for, to the millisecond, and
    which match the search term when there is one; the order chosen does
    not change which ones are shown, and none is shown twice. *)
Theorem filterConversations_shows_the_matching_ones
    (now : Z) (sortBy : Page.SortType) (conversations : list Page.Conversation)
    (filter : Page.FilterType) (searchTerm : string) :
  let shown :=
    Page.filterConversations now sortBy conversations filter searchTerm in
  (forall conv,
     In conv shown <->
     In conv conversations /\
     in_bucket now filter conv /\
     (searchTerm = "" \/ Page.matchesSearch searchTerm conv = true)) /\
  (NoDup conversations -> NoDup shown) /\
  (List.length shown <= List.length conversations)%nat.
Proof.
  cbv zeta.
  pose proof (filterConversations_perm now sortBy conversations filter
                searchTerm) as Hperm.
  split; [|split].
  - intros conv. apply filterConversations_In.
  - intros Hnd.
    apply (Permutation_NoDup (Permutation_sym Hperm)).
    apply NoDup_filter, NoDup_filter, Hnd.
  - rewrite (Permutation_length Hperm).
    etransitivity; [apply filter_length_le|]. apply filter_length_le.
Qed.

Lemma filterConversations_shows_the_matching_ones_witness :
  (List.length
     (Page.filterConversations 0 Page.oldest
        [Page.mkConversation "254700000001" [] None]
        Page.filter_8h "hello")
   <= 1)%nat.
Proof.
  exact (proj2 (proj2
           (filterConversations_shows_the_matching_ones 0 Page.oldest
              [Page.mkConversation "254700000001" [] None]
              Page.filter_8h "hello"))).
Defined.

Lemma filter_split_length {A} (keep part : A -> bool) (l : list A) :
  (List.length (List.filter keep (List.filter part l))
   + List.length
       (List.filter keep (List.filter (fun x => negb (part x)) l))
   = List.length (List.filter keep l))%nat.
Proof.
  induction l as [|x r IH]; cbn [List.filter]; [reflexivity|].
  destruct (part x); cbn [negb List.filter];
    destruct (keep x); cbn [List.length]; lia.
Qed.

(** X28.  The time filters are nested and split the list: what the
    4-hour filter shows the 8-hour filter shows, what the 8-hour filter
    shows the 24-hour filter shows, and every conversation shown without
    a time filter is shown by exactly one of the 24-hour filter and the
    filter for older conversations. *)
Theorem time_filters_are_nested_and_split_the_list
    (now : Z) (sortBy : Page.SortType) (conversations : list Page.Conversation)
    (searchTerm : string) :
  let shown filter :=
    Page.filterConversations now sortBy conversations filter searchTerm in
  incl (shown Page.filter_4h) (shown Page.filter_8h) /\
  incl (shown Page.filter_8h) (shown Page.filter_24h) /\
  incl (shown Page.filter_24h) (shown Page.filter_all) /\
  incl (shown Page.filter_old) (shown Page.filter_all) /\
  (forall conv,
     In conv (shown Page.filter_24h) -> In conv (shown Page.filter_old) ->
     False) /\
  (List.length (shown Page.filter_24h) + List.length (shown Page.filter_old)
   = List.length (shown Page.filter_all))%nat.
Proof.
  cbv zeta.
  assert (Hmono : forall f g,
    (forall conv, in_bucket now f conv -> in_bucket now g conv) ->
    incl (Page.filterConversations now sortBy conversations f searchTerm)
         (Page.filterConversations now sortBy conversations g searchTerm)).
  { intros f g Himp conv H.
    apply filterConversations_In in H.
    apply filterConversations_In.
    destruct H as (H & Ht & Hs). auto. }
  repeat split.
  - apply Hmono. unfold in_bucket. cbv zeta. intros conv. lia.
  - apply Hmono. unfold in_bucket. cbv zeta. intros conv. lia.
  - apply Hmono. unfold in_bucket. cbv zeta. intros conv. lia.
  - apply Hmono. unfold in_bucket. cbv zeta. intros conv. lia.
  - intros conv H1 H2.
    apply filterConversations_In in H1, H2.
    destruct H1 as (_ & H1 & _). destruct H2 as (_ & H2 & _).
    unfold in_bucket in H1, H2. cbv zeta in H1, H2. lia.
  - rewrite !(Permutation_length (filterConversations_perm _ _ _ _ _)).
    rewrite (filter_ext (Page.inTimeFilter now Page.filter_old)
               (fun conv =>
                  negb (Page.inTimeFilter now Page.filter_24h conv)))
      by reflexivity.
    rewrite filter_split_length.
    rewrite (filter_ext (Page.inTimeFilter now Page.filter_all)
               (fun _ => true)) by reflexivity.
    rewrite filter_true. reflexivity.
Qed.

(** X29.  The order chosen is the order shown: with newest the
    conversations come by the date of their last message, most recent
    first, and with oldest least recent first. *)
Theorem filterConversations_orders_by_last_message
    (now : Z) (conversations : list Page.Conversation)
    (filter : Page.FilterType) (searchTerm : string) :
  newest_first Page.last_date
    (Page.filterConversations now Page.newest conversations filter
       searchTerm) /\
  oldest_first Page.last_date
    (Page.filterConversations now Page.oldest conversations filter
       searchTerm).
Proof.
  unfold Page.filterConversations. cbv zeta. split.
  - unfold newest_first.
    apply (sorted_weaken
             (fun a b => - Page.last_date a <= - Page.last_date b)).
    + intros a b H. lia.
    + apply (page_sort_sorted _ (fun conv => - Page.last_date conv)).
      intros x y. rewrite compare_newest.
      destruct (Page.last_date y <=? Page.last_date x)%Z eqn:E;
        [apply Z.leb_le in E; symmetry; apply Z.leb_le
        | apply Z.leb_gt in E; symmetry; apply Z.leb_gt]; lia.
  - apply page_sort_sorted. intros x y. apply compare_oldest.
Qed.

(** X30.  With no time filter, no search term and the order newest, the
    dashboard shows the conversation list as [fetchMessages] built it. *)
Theorem default_view_is_the_conversation_list
    (now : Z) (msgs : list FetchRoute.Message)
    (convs : list Page.Conversation) :
  Page.conversationList msgs = Ok convs ->
  Page.filterConversations now Page.newest convs Page.filter_all "" = convs.
Proof.
  intros Hok.
  destruct (conversationList_entries msgs convs Hok) as (_ & _ & Hsorted & _).
  unfold Page.filterConversations. cbv zeta. cbn [String.eqb].
  apply page_sort_fixed.
  apply (sorted_weaken
           (fun a b => Page.last_date b <= Page.last_date a));
    [|exact Hsorted].
  intros a b H. rewrite compare_newest. apply Z.leb_le, H.
Qed.

Lemma default_view_is_the_conversation_list_witness :
  exists convs,
    Page.conversationList (map FetchRoute.format (messages sample_thread))
    = Ok convs /\
    Page.filterConversations 1700000005000 Page.newest convs
      Page.filter_all ""
    = convs.
Proof.
  eassert (Hok : Page.conversationList
                   (map FetchRoute.format (messages sample_thread)) = Ok _)
    by (vm_compute; reflexivity).
  eexists. split; [exact Hok|].
  exact (default_view_is_the_conversation_list 1700000005000 _ _ Hok).
Defined.
